(** * Position and paper-trade lifecycle of the Polymarket trading bots

    A shallow embedding of [position_tracker.py], [paper_trader.py],
    [trading_bot.py] and [btc_15min_bot.py], followed by the properties of
    the ledgers and of the two orchestration loops.

    Conventions of the embedding.
    - A Python [dict] keyed by strings is a [gmap string _]; a [set] of
      strings is a [gset string].  The iteration order of a dict is not
      observable in any property below.
    - A Python [int] is a [Z].  A finite Python [float] is the rational [Q]
      it denotes, and the truth value of a float [x] is [x != 0].  Where the
      source computes a price and stores it or compares it with a threshold
      (the averaging of [add_position], the tests of the strategies) every
      operation is rounded to binary64, as [Binary64] defines it.  The
      products and sums of [calculate_pnl], [get_stats] and
      [get_total_exposure] are written in the order of the source and kept
      exact: their rounding is not modelled.  Infinities and NaN are not
      modelled.
    - A [datetime] is the text its [isoformat()] yields.  [clock k] is the
      [k]-th of the readings of [datetime.utcnow()] that end up in a ledger
      (the entry time of a position, the id and the entry time of a paper
      trade); the readings that only feed a log line are not counted.
    - [logger] calls are returned as a list of records whose message keeps
      the interpolated values unformatted.  The consecutive lines that
      announce one trade are one record; rules, banners and the lines that
      report totals are left out.
    - The snapshot files written by [save_positions] and [save_trades] mirror
      the dict in memory and I/O errors are swallowed by the source, so the
      dict in memory is the state of a ledger.
    - An exception is modelled where the source meets one: [strategy.analyze]
      may raise anything, and an element of the list it returns that is not a
      [TradeSignal] raises an [AttributeError] at [signal.trade].
      [client.execute_trade] catches its own and answers with a boolean.
    - Line 181 of [btc_15min_bot.py] assigns to the [Trade] object of a
      signal.  The elements of a returned list carry the identity of their
      [Trade] object, and the loop keeps the amounts it has assigned, so that
      a later signal holding the same object sees the new amount.
    - Left out, as they only read the state and write log lines:
      [print_positions], [print_stats], the order-book enrichment of the
      markets and the WebSocket start-up of [run]. *)

From Stdlib Require Import QArith Qabs Ascii Lqa.
From Stdlib Require Qcanon.
From stdpp Require Import gmap strings pretty list.

Local Open Scope Z_scope.

(** ** Logging *)

Inductive Level := DEBUG | INFO | WARNING | ERROR.

Inductive Message :=
  (* position_tracker.py *)
  | PositionClosed (key : string)
  | PositionUpdated (key : string) (total_shares : Z) (entry_price : Q)
  | PositionOpened (key : string)
  | PositionOpenedShares (shares : Z) (side : string) (entry_price : Q)
  | PositionOpenedCost (cost : Q)
  (* paper_trader.py *)
  | PaperTradeRecorded (trade_id : string)
  | TradeNotFound (trade_id : string)
  | TradeAlreadyResolved (trade_id : string)
  | TradeResolved (win : bool) (trade_id : string) (pnl : Q)
  (* trading_bot.py and btc_15min_bot.py *)
  | NoMarkets
  | RunningStrategy (name : string)
  | SkippingDisabled (name : string)
  | StrategyFailed (name : string) (exn : string)
  | SkippingDuplicate (trade_key : string)
  | PaperTradeOk (trade_id : string)
  | TradeExecuted (trade_key : string)
  | TradeFailed (trade_key : string)
  | AlreadyHasPosition (name : string) (question : string)
  | NoPositionToSell (name : string) (question : string)
  | SellExceedsPosition (name : string) (amount shares : Z)
  | DryRunWouldExecute (action : string) (amount : Z) (side : string) (price : Q)
  | TradeSuccess
  | CycleComplete (executed_count : Z)
  | CycleFailed (exn : string).

Record LogRecord := Log { level : Level; message : Message }.

(** ** Binary64 arithmetic

    A finite binary64 number is the rational it denotes.  [round x] is the
    binary64 number nearest to [x], ties going to the even significand: the
    result of a Python float operation whose exact result is [x], as long as
    it stays below the overflow threshold. *)

Module Binary64.

(** The integer nearest to [a / b], ties to the even one; [0 ≤ a], [0 < b]. *)
Definition nearest_even (a b : Z) : Z :=
  let q := a / b in
  let r := a mod b in
  if 2 * r <? b then q
  else if b <? 2 * r then q + 1
  else if Z.even q then q else q + 1.

(** [floor (log2 (n / d))] *)
Definition floor_log2 (n d : positive) : Z :=
  let k := Z.log2 (Z.pos n) - Z.log2 (Z.pos d) in
  if 0 <=? k then
    if Z.pos d * 2 ^ k <=? Z.pos n then k else k - 1
  else
    if Z.pos d <=? Z.pos n * 2 ^ (- k) then k else k - 1.

(** The exponent of the last binary place kept for [n / d]: 53 significant
    bits, and no place below [2 ^ -1074]. *)
Definition last_place (n d : positive) : Z :=
  Z.max (floor_log2 n d - 52) (-1074).

Definition round_pos (n d : positive) : Q :=
  let e := last_place n d in
  if 0 <=? e then inject_Z (nearest_even (Z.pos n) (Z.pos d * 2 ^ e) * 2 ^ e)
  else Qmake (nearest_even (Z.pos n * 2 ^ (- e)) (Z.pos d)) (Z.to_pos (2 ^ (- e))).

(** The result is kept in lowest terms. *)
Definition round (x : Q) : Q :=
  Qred match Qnum x with
       | 0 => 0%Q
       | Z.pos n => round_pos n (Qden x)
       | Z.neg n => (- round_pos n (Qden x))%Q
       end.

(** [float(n)], the conversion that precedes an operation between an [int]
    and a [float]. *)
Definition of_int (n : Z) : Q := round (inject_Z n).

(** [x + y], [x - y], [x * y] and [x / y] on floats. *)
Definition add (x y : Q) : Q := round (x + y).
Definition sub (x y : Q) : Q := round (x - y).
Definition mul (x y : Q) : Q := round (x * y).
Definition div (x y : Q) : Q := round (x / y).

(** Half the distance between 1 and the next binary64 number, and half the
    smallest positive binary64 number. *)
Definition unit_roundoff : Q := 1 # (2 ^ 53).
Definition underflow_unit : Q := 1 # (2 ^ 1075).

End Binary64.

(** ** Data classes (strategies/base_strategy.py) *)

Module Market.
Record t := mk {
  id : string;
  question : string;
  end_date : string;
  yes_price : Q;
  no_price : Q;
  volume : Q;
  active : bool
}.
End Market.

Module Trade.
Record t := mk {
  market_id : string;
  question : string;
  side : string;
  amount : Z;
  price : Q;
  reason : string;
  action : string
}.

(** [trade.amount = v] *)
Definition set_amount (v : Z) (tr : t) : t :=
  mk (market_id tr) (question tr) (side tr) v (price tr) (reason tr) (action tr).
End Trade.

Module TradeSignal.
Record t := mk { trade : Trade.t; market : Market.t }.
End TradeSignal.

(** ** position_tracker.py *)

Module Position.
Record t := mk {
  strategy_name : string;
  market_id : string;
  question : string;
  side : string;
  shares : Z;
  entry_price : Q;
  entry_time : string;
  market_close_time : string
}.

Definition current_value (self : t) (current_price : Q) : Q :=
  Binary64.mul (Binary64.of_int (shares self)) current_price.

Definition unrealized_pnl (self : t) (current_price : Q) : Q :=
  let cost_basis := Binary64.mul (Binary64.of_int (shares self)) (entry_price self) in
  Binary64.sub (current_value self current_price) cost_basis.
End Position.

Module PositionTracker.

(** [f"{strategy_name}:{market_id}:{side}"] *)
Definition position_key (strategy_name market_id side : string) : string :=
  strategy_name +:+ ":" +:+ market_id +:+ ":" +:+ side.

(** [add_position]: the new dict and the log lines; the value returned by
    the source is [position_key strategy_name market_id side] in every
    branch.  [now] is the reading of [datetime.utcnow()], taken in the
    new-position branch only.  In [existing.shares * existing.entry_price],
    [shares * entry_price] and [total_cost / total_shares] one operand is an
    [int], which Python converts to a float first. *)
Definition add_position (positions : gmap string Position.t) (now : string)
    (strategy_name market_id question side : string)
    (shares : Z) (entry_price : Q) (market_close_time : string)
    : gmap string Position.t * list LogRecord :=
  let position_key := position_key strategy_name market_id side in
  match positions !! position_key with
  | Some existing =>
      let total_shares := Position.shares existing + shares in
      if decide (total_shares = 0) then
        (delete position_key positions, [Log INFO (PositionClosed position_key)])
      else
        let total_cost :=
          Binary64.add
            (Binary64.mul (Binary64.of_int (Position.shares existing))
               (Position.entry_price existing))
            (Binary64.mul (Binary64.of_int shares) entry_price) in
        let existing' :=
          Position.mk (Position.strategy_name existing) (Position.market_id existing)
            (Position.question existing) (Position.side existing)
            total_shares (Binary64.div total_cost (Binary64.of_int total_shares))
            (Position.entry_time existing) (Position.market_close_time existing) in
        (<[position_key := existing']> positions,
         [Log INFO (PositionUpdated position_key total_shares
                      (Position.entry_price existing'))])
  | None =>
      let position :=
        Position.mk strategy_name market_id question side shares entry_price
          now market_close_time in
      (<[position_key := position]> positions,
       [Log INFO (PositionOpened position_key);
        Log INFO (PositionOpenedShares shares side entry_price);
        Log INFO (PositionOpenedCost (Binary64.mul (Binary64.of_int shares) entry_price))])
  end.

Definition get_position (positions : gmap string Position.t)
    (strategy_name market_id side : string) : option Position.t :=
  positions !! position_key strategy_name market_id side.

Definition values (positions : gmap string Position.t) : list Position.t :=
  (map_to_list positions).*2.

Definition get_market_positions (positions : gmap string Position.t)
    (market_id : string) : list Position.t :=
  filter (λ p, Position.market_id p = market_id) (values positions).

Definition get_strategy_positions (positions : gmap string Position.t)
    (strategy_name : string) : list Position.t :=
  filter (λ p, Position.strategy_name p = strategy_name) (values positions).

Definition get_all_positions (positions : gmap string Position.t) : list Position.t :=
  values positions.


End PositionTracker.

(** ** Python arithmetic used by the statistics *)

(** [a / b] on numbers: [ZeroDivisionError] (here [None]) when [b] is zero. *)
Definition py_div (a b : Q) : option Q :=
  if Qeq_bool b 0 then None else Some (a / b)%Q.

(** [a > b] on numbers. *)
Definition py_gt (a b : Q) : bool := negb (Qle_bool a b).

(** Truth value of an [Optional[float]]: [None] and zero are false. *)
Definition truthy (x : option Q) : bool :=
  match x with
  | None => false
  | Some v => negb (Qeq_bool v 0)
  end.

(** [sum(...)] of a list of numbers. *)
Definition py_sum (l : list Q) : Q := foldr Qplus 0%Q l.

(** [len(...)] as a number. *)
Definition py_len {A} (l : list A) : Z := Z.of_nat (length l).

(** ** paper_trader.py *)

Module PaperTrade.
Record t := mk {
  trade_id : string;
  market_id : string;
  question : string;
  side : string;
  amount : Z;
  entry_price : Q;
  entry_time : string;
  reason : string;
  volume : Q;
  market_end_date : string;
  resolved : bool;
  resolution_outcome : option string;
  exit_price : option Q;
  profit_loss : option Q
}.

(** [calculate_pnl]: the profit returned and the record after the two
    assignments to [profit_loss] and [exit_price]. *)
Definition calculate_pnl (self : t) (winning_side : string) : Q * t :=
  let cost := (entry_price self * inject_Z (amount self))%Q in
  let profit :=
    if decide (side self = winning_side) then
      let payout := (1 * inject_Z (amount self))%Q in
      (payout - cost)%Q
    else (- cost)%Q in
  (profit,
   mk (trade_id self) (market_id self) (question self) (side self) (amount self)
      (entry_price self) (entry_time self) (reason self) (volume self)
      (market_end_date self) (resolved self) (resolution_outcome self)
      (Some (if decide (side self = winning_side) then 1%Q else 0%Q))
      (Some profit)).
End PaperTrade.

Module PaperTradingTracker.

Record Stats := mkStats {
  total_trades : Z;
  resolved_trades : Z;
  pending_trades : Z;
  winning_trades : Z;
  losing_trades : Z;
  win_rate : Q;
  total_profit : Q;
  total_invested : Q;
  roi : Q
}.

(** [add_trade]: [now_id] and [now_entry] are the two readings of
    [datetime.utcnow()]; returns the trade id, the new dict and the log. *)
Definition add_trade (trades : gmap string PaperTrade.t) (now_id now_entry : string)
    (trade : Trade.t) (market_end_date : string) (volume : Q)
    : string * gmap string PaperTrade.t * list LogRecord :=
  let trade_id := Trade.market_id trade +:+ ":" +:+ Trade.side trade +:+ ":" +:+ now_id in
  let paper_trade :=
    PaperTrade.mk trade_id (Trade.market_id trade) (Trade.question trade)
      (Trade.side trade) (Trade.amount trade) (Trade.price trade) now_entry
      (Trade.reason trade) volume market_end_date false None None None in
  (trade_id, <[trade_id := paper_trade]> trades, [Log INFO (PaperTradeRecorded trade_id)]).

Definition resolve_trade (trades : gmap string PaperTrade.t)
    (trade_id winning_side : string) : gmap string PaperTrade.t * list LogRecord :=
  match trades !! trade_id with
  | None => (trades, [Log WARNING (TradeNotFound trade_id)])
  | Some trade =>
      if PaperTrade.resolved trade then
        (trades, [Log DEBUG (TradeAlreadyResolved trade_id)])
      else
        let trade1 :=
          PaperTrade.mk (PaperTrade.trade_id trade) (PaperTrade.market_id trade)
            (PaperTrade.question trade) (PaperTrade.side trade) (PaperTrade.amount trade)
            (PaperTrade.entry_price trade) (PaperTrade.entry_time trade)
            (PaperTrade.reason trade) (PaperTrade.volume trade)
            (PaperTrade.market_end_date trade) true (Some winning_side)
            (PaperTrade.exit_price trade) (PaperTrade.profit_loss trade) in
        let '(pnl, trade2) := PaperTrade.calculate_pnl trade1 winning_side in
        (<[trade_id := trade2]> trades,
         [Log INFO (TradeResolved (py_gt pnl 0) trade_id pnl)])
  end.

Definition values (trades : gmap string PaperTrade.t) : list PaperTrade.t :=
  (map_to_list trades).*2.

Definition is_win (t : PaperTrade.t) : bool :=
  truthy (PaperTrade.profit_loss t) && py_gt (default 0%Q (PaperTrade.profit_loss t)) 0.

Definition is_loss (t : PaperTrade.t) : bool :=
  truthy (PaperTrade.profit_loss t) && Qle_bool (default 0%Q (PaperTrade.profit_loss t)) 0.

Definition resolved_list (trades : gmap string PaperTrade.t) : list PaperTrade.t :=
  filter (λ t, PaperTrade.resolved t = true) (values trades).

Definition get_pending_trades (trades : gmap string PaperTrade.t) : list PaperTrade.t :=
  filter (λ t, PaperTrade.resolved t = false) (values trades).

Definition winning_list (trades : gmap string PaperTrade.t) : list PaperTrade.t :=
  filter (λ t, is_win t = true) (resolved_list trades).

Definition losing_list (trades : gmap string PaperTrade.t) : list PaperTrade.t :=
  filter (λ t, is_loss t = true) (resolved_list trades).

Definition invested (t : PaperTrade.t) : Q :=
  (PaperTrade.entry_price t * inject_Z (PaperTrade.amount t))%Q.

(** [get_stats]: [None] stands for a [ZeroDivisionError] escaping. *)
Definition get_stats (trades : gmap string PaperTrade.t) : option Stats :=
  let total_trades := py_len (values trades) in
  let resolved_trades := resolved_list trades in
  let pending_trades := get_pending_trades trades in
  let winning_trades := winning_list trades in
  let losing_trades := losing_list trades in
  let total_profit :=
    py_sum ((λ t, default 0%Q (PaperTrade.profit_loss t)) <$>
            filter (λ t, truthy (PaperTrade.profit_loss t) = true) resolved_trades) in
  let total_invested := py_sum (invested <$> values trades) in
  win_rate ←
    match resolved_trades with
    | [] => Some 0%Q
    | _ :: _ =>
        q ← py_div (inject_Z (py_len winning_trades)) (inject_Z (py_len resolved_trades));
        Some (q * 100)%Q
    end;
  roi ←
    (if py_gt total_invested 0 then
       q ← py_div total_profit total_invested; Some (q * 100)%Q
     else Some 0%Q);
  Some (mkStats total_trades (py_len resolved_trades) (py_len pending_trades)
          (py_len winning_trades) (py_len losing_trades)
          win_rate total_profit total_invested roi).

End PaperTradingTracker.

(** ** Strategies (strategies/base_strategy.py) *)

(** What a call may do: raise an exception or return a value. *)
Inductive Outcome (A : Type) :=
  | Raise (exn : string)
  | Return (v : A).
Arguments Raise {A} exn.
Arguments Return {A} v.

(** An element of the list that [analyze] returns.  The strategies of
    [btc_15min_strategies.py] return [TradeSignal]s; those of
    [example_arbitrage_strategy.py] and [strategy_template.py] return bare
    [Trade]s, which have no attribute [trade].  [trade_object] is the
    identity of the [Trade] object that a signal holds: signals with the same
    [trade_object] hold one and the same object. *)
Inductive Item :=
  | Signal (trade_object : nat) (signal : TradeSignal.t)
  | BareTrade (trade : Trade.t).

Module Strategy.
(** A [BaseStrategy]: [analyze(markets, positions=None)] is any function of
    its two arguments, within one cycle. *)
Record t := mk {
  name : string;
  enabled : bool;
  analyze : list Market.t → option (list Position.t) → Outcome (list Item)
}.
End Strategy.

(** [s[:n]] for a string [s] of one-byte characters. *)
Definition py_prefix (n : nat) (s : string) : string := String.substring 0 n s.

(** One call of [strategy.analyze], as the orchestrators issue it. *)
Record Invocation := Invoke {
  inv_strategy : string;
  inv_markets : list Market.t;
  inv_positions : option (list Position.t)
}.

(** ** trading_bot.py *)

Module TradingBot.

(** The attributes that [run_once] reads and writes.  [calls] and
    [executions] are not attributes of the source: they keep the calls of
    [analyze] and the trades counted by [executed_count], in order, so that
    a whole run can be described. *)
Record state := mkState {
  executed_trades : gset string;
  paper_trader : option (gmap string PaperTrade.t);
  tick : nat;
  log : list LogRecord;
  calls : list Invocation;
  executions : list Trade.t
}.

(** [TradingBot.__init__]: [PaperTradingTracker()] loads [trades] when
    [dry_run] holds. *)
Definition init (dry_run : bool) (trades : gmap string PaperTrade.t) : state :=
  mkState ∅ (if dry_run then Some trades else None) 0 [] [] [].

(** [f"{trade.market_id}:{trade.side}:{trade.amount}"] *)
Definition trade_key (trade : Trade.t) : string :=
  Trade.market_id trade +:+ ":" +:+ Trade.side trade +:+ ":" +:+ pretty (Trade.amount trade).

Section cycle.
Variable dry_run : bool.
(** The readings of [datetime.utcnow()] that end up in a ledger, by number. *)
Variable clock : nat → string.
(** [client.execute_trade] *)
Variable execute_trade : Trade.t → bool.

(** Lines 74-85: one strategy of the collecting loop. *)
Definition collect (markets : list Market.t)
    (acc : list Item * list LogRecord * list Invocation)
    (strategy : Strategy.t)
    : list Item * list LogRecord * list Invocation :=
  let '(all_signals, lg, cs) := acc in
  if negb (Strategy.enabled strategy) then
    (all_signals, lg ++ [Log DEBUG (SkippingDisabled (Strategy.name strategy))], cs)
  else
    let lg := lg ++ [Log INFO (RunningStrategy (Strategy.name strategy))] in
    let cs := cs ++ [Invoke (Strategy.name strategy) markets None] in
    match Strategy.analyze strategy markets None with
    | Return signals => (all_signals ++ signals, lg, cs)
    | Raise e => (all_signals, lg ++ [Log ERROR (StrategyFailed (Strategy.name strategy) e)], cs)
    end.

(** Lines 90-118: one signal of the executing loop; the number returned
    is what it adds to [executed_count]. *)
Definition process_signal (st : state) (signal : TradeSignal.t) : state * Z :=
  let trade := TradeSignal.trade signal in
  let market := TradeSignal.market signal in
  let trade_key := trade_key trade in
  if decide (trade_key ∈ executed_trades st) then
    (mkState (executed_trades st) (paper_trader st) (tick st)
       (log st ++ [Log DEBUG (SkippingDuplicate trade_key)]) (calls st) (executions st), 0)
  else if dry_run then
    match paper_trader st with
    | Some trades =>
        let '(trade_id, trades', lg) :=
          PaperTradingTracker.add_trade trades (clock (tick st)) (clock (S (tick st)))
            trade (Market.end_date market) (Market.volume market) in
        (mkState ({[trade_key]} ∪ executed_trades st) (Some trades') (S (S (tick st)))
           (log st ++ lg ++ [Log INFO (PaperTradeOk trade_id)]) (calls st)
           (executions st ++ [trade]), 1)
    | None =>
        (mkState ({[trade_key]} ∪ executed_trades st) None (tick st) (log st) (calls st)
           (executions st ++ [trade]), 1)
    end
  else if execute_trade trade then
    (mkState ({[trade_key]} ∪ executed_trades st) (paper_trader st) (tick st)
       (log st ++ [Log INFO (TradeExecuted trade_key)]) (calls st)
       (executions st ++ [trade]), 1)
  else
    (mkState (executed_trades st) (paper_trader st) (tick st)
       (log st ++ [Log ERROR (TradeFailed trade_key)]) (calls st) (executions st), 0).

(** Lines 89-118: the executing loop.  [signal.trade] raises an
    [AttributeError] on an element that is not a [TradeSignal]; the loop is
    outside any [try], so the exception leaves [run_once], with the state as
    the signals before it left it. *)
Fixpoint process_signals (st : state) (executed_count : Z) (all_signals : list Item)
    : state * Outcome Z :=
  match all_signals with
  | [] => (st, Return executed_count)
  | Signal _ signal :: all_signals =>
      let '(st', n) := process_signal st signal in
      process_signals st' (executed_count + n) all_signals
  | BareTrade _ :: _ => (st, Raise "AttributeError")
  end.

(** [run_once]: [markets] is what [client.get_markets] returned. *)
Definition run_once (st : state) (markets : list Market.t)
    (strategies : list Strategy.t) : state * Outcome Z :=
  match markets with
  | [] =>
      (mkState (executed_trades st) (paper_trader st) (tick st)
         (log st ++ [Log WARNING NoMarkets]) (calls st) (executions st), Return 0)
  | _ :: _ =>
      let '(all_signals, lg, cs) := foldl (collect markets) ([], [], []) strategies in
      let st1 :=
        mkState (executed_trades st) (paper_trader st) (tick st)
          (log st ++ lg) (calls st ++ cs) (executions st) in
      match process_signals st1 0 all_signals with
      | (st2, Return executed_count) =>
          (mkState (executed_trades st2) (paper_trader st2) (tick st2)
             (log st2 ++ [Log INFO (CycleComplete executed_count)]) (calls st2)
             (executions st2), Return executed_count)
      | (st2, Raise e) => (st2, Raise e)
      end
  end.
End cycle.

(** What one cycle of [run] meets: the answer of the market API, the
    strategies as they behave in that cycle, and the trade endpoint. *)
Record cycle_env := mkEnv {
  env_markets : list Market.t;
  env_strategies : list Strategy.t;
  env_execute_trade : Trade.t → bool
}.

(** [add_strategy], on the list held in [self.strategies]. *)
Definition add_strategy (strategies : list Strategy.t) (strategy : Strategy.t)
    : list Strategy.t :=
  strategies ++ [strategy].

(** [remove_strategy] *)
Definition remove_strategy (strategies : list Strategy.t) (strategy_name : string)
    : list Strategy.t :=
  filter (λ s, Strategy.name s ≠ strategy_name) strategies.

Record BotStats := mkBotStats {
  total_trades_executed : Z;
  active_strategies : Z;
  total_strategies : Z;
  stats_dry_run : bool
}.

(** [TradingBot.get_stats] *)
Definition get_stats (dry_run : bool) (strategies : list Strategy.t) (st : state) : BotStats :=
  mkBotStats (Z.of_nat (size (executed_trades st)))
    (py_len (filter (λ s, Strategy.enabled s = true) strategies))
    (py_len strategies) dry_run.

(** Lines 147-150: one iteration of the loop of [run].  An exception that
    leaves [run_once] is logged and the loop goes on. *)
Definition run_cycle (dry_run : bool) (clock : nat → string) (st : state) (c : cycle_env)
    : state * Outcome Z :=
  match run_once dry_run clock (env_execute_trade c) st (env_markets c) (env_strategies c) with
  | (st', Return executed_count) => (st', Return executed_count)
  | (st', Raise e) =>
      (mkState (executed_trades st') (paper_trader st') (tick st')
         (log st' ++ [Log ERROR (CycleFailed e)]) (calls st') (executions st'), Raise e)
  end.

(** The loop of [run], over the cycles it goes through. *)
Definition run (dry_run : bool) (clock : nat → string) (st : state)
    (cycles : list cycle_env) : state :=
  foldl (λ st c, (run_cycle dry_run clock st c).1) st cycles.

End TradingBot.

(** ** btc_15min_bot.py *)

Module BTC15MinBot.

(** The attributes that [run_once] reads and writes; [calls] and
    [executions] are kept as in [TradingBot.state]. *)
Record state := mkState {
  position_tracker : gmap string Position.t;
  tick : nat;
  log : list LogRecord;
  calls : list Invocation;
  executions : list Trade.t
}.

(** [BTC15MinBot.__init__]: [PositionTracker()] loads [positions]. *)
Definition init (positions : gmap string Position.t) : state :=
  mkState positions 0 [] [] [].

(** Lines 154-181: the checks on a signal.  [None] is [continue]; otherwise
    the trade, as line 181 leaves it. *)
Definition validate (positions : gmap string Position.t) (strategy_name : string)
    (signal : TradeSignal.t) : option Trade.t * list LogRecord :=
  let trade := TradeSignal.trade signal in
  let market := TradeSignal.market signal in
  if decide (Trade.action trade = "BUY") then
    match PositionTracker.get_position positions strategy_name
            (Market.id market) (Trade.side trade) with
    | Some _ =>
        (None, [Log INFO (AlreadyHasPosition strategy_name
                            (py_prefix 40 (Market.question market)))])
    | None => (Some trade, [])
    end
  else if decide (Trade.action trade = "SELL") then
    match PositionTracker.get_position positions strategy_name
            (Market.id market) (Trade.side trade) with
    | None =>
        (None, [Log WARNING (NoPositionToSell strategy_name
                               (py_prefix 40 (Market.question market)))])
    | Some existing_position =>
        if decide (Trade.amount trade > Position.shares existing_position) then
          (Some (Trade.set_amount (Position.shares existing_position) trade),
           [Log WARNING (SellExceedsPosition strategy_name (Trade.amount trade)
                           (Position.shares existing_position))])
        else (Some trade, [])
    end
  else (Some trade, []).

(** Line 181 assigns to the [Trade] object of the signal: the amount that
    the object holds once the checks are over. *)
Definition amount_after (positions : gmap string Position.t) (strategy_name : string)
    (signal : TradeSignal.t) : Z :=
  match (validate positions strategy_name signal).1 with
  | Some trade => Trade.amount trade
  | None => Trade.amount (TradeSignal.trade signal)
  end.

(** A signal as its [Trade] object stands, [amounts] giving the amount of
    the objects that the loop has been through. *)
Definition current (amounts : gmap nat Z) (trade_object : nat) (signal : TradeSignal.t)
    : TradeSignal.t :=
  match amounts !! trade_object with
  | Some v =>
      TradeSignal.mk (Trade.set_amount v (TradeSignal.trade signal))
        (TradeSignal.market signal)
  | None => signal
  end.

(** [trade.amount if trade.action == "BUY" else -trade.amount] *)
Definition signed_shares (trade : Trade.t) : Z :=
  if decide (Trade.action trade = "BUY") then Trade.amount trade else - Trade.amount trade.

Section cycle.
Variable dry_run : bool.
Variable clock : nat → string.
Variable execute_trade : Trade.t → bool.

(** Lines 200-208 and 216-224: the call of [add_position], which reads the
    clock when it opens a position and not otherwise. *)
Definition track_position (st : state) (strategy_name : string)
    (trade : Trade.t) (market : Market.t) (before after : list LogRecord) : state :=
  let '(positions, lg) :=
    PositionTracker.add_position (position_tracker st) (clock (tick st))
      strategy_name (Trade.market_id trade) (Trade.question trade) (Trade.side trade)
      (signed_shares trade) (Trade.price trade) (Market.end_date market) in
  let tick' :=
    match PositionTracker.get_position (position_tracker st) strategy_name
            (Trade.market_id trade) (Trade.side trade) with
    | Some _ => tick st
    | None => S (tick st)
    end in
  mkState positions tick' (log st ++ before ++ lg ++ after) (calls st)
    (executions st ++ [trade]).

(** Lines 183-226: execution of a trade that passed the checks. *)
Definition dispatch (st : state) (strategy_name : string)
    (trade : Trade.t) (market : Market.t) : state * Z :=
  if dry_run then
    (track_position st strategy_name trade market
       [Log INFO (DryRunWouldExecute (Trade.action trade) (Trade.amount trade)
                    (Trade.side trade) (Trade.price trade))] [], 1)
  else if execute_trade trade then
    (track_position st strategy_name trade market [] [Log INFO TradeSuccess], 1)
  else (st, 0).

(** Lines 150-226: one signal of a strategy. *)
Definition process_signal (strategy_name : string) (st : state)
    (signal : TradeSignal.t) : state * Z :=
  match validate (position_tracker st) strategy_name signal with
  | (None, lg) =>
      (mkState (position_tracker st) (tick st) (log st ++ lg) (calls st)
         (executions st), 0)
  | (Some trade, lg) =>
      dispatch
        (mkState (position_tracker st) (tick st) (log st ++ lg) (calls st)
           (executions st))
        strategy_name trade (TradeSignal.market signal)
  end.

(** Lines 150-226: the signals of one strategy, up to the first element
    that is not a [TradeSignal], on which [signal.trade] raises an
    [AttributeError]. *)
Fixpoint process_signals (strategy_name : string) (st : state) (amounts : gmap nat Z)
    (executed_count : Z) (signals : list Item) : state * Z * option string :=
  match signals with
  | [] => (st, executed_count, None)
  | Signal trade_object signal :: signals =>
      let signal := current amounts trade_object signal in
      let amounts :=
        <[trade_object := amount_after (position_tracker st) strategy_name signal]> amounts in
      let '(st', n) := process_signal strategy_name st signal in
      process_signals strategy_name st' amounts (executed_count + n) signals
  | BareTrade _ :: _ => (st, executed_count, Some "AttributeError")
  end.

(** Lines 139-229: one strategy of the loop.  The [try] of line 144 covers
    the call of [analyze] and the loop over the signals: whatever is raised
    is logged, and what was executed before stays executed and counted. *)
Definition run_strategy (markets : list Market.t) (acc : state * Z)
    (strategy : Strategy.t) : state * Z :=
  let '(st, executed_count) := acc in
  if negb (Strategy.enabled strategy) then (st, executed_count)
  else
    let strategy_positions :=
      PositionTracker.get_strategy_positions (position_tracker st)
        (Strategy.name strategy) in
    let st1 :=
      mkState (position_tracker st) (tick st)
        (log st ++ [Log INFO (RunningStrategy (Strategy.name strategy))])
        (calls st ++ [Invoke (Strategy.name strategy) markets (Some strategy_positions)])
        (executions st) in
    match Strategy.analyze strategy markets (Some strategy_positions) with
    | Return signals =>
        match process_signals (Strategy.name strategy) st1 ∅ 0 signals with
        | (st2, n, None) => (st2, executed_count + n)
        | (st2, n, Some e) =>
            (mkState (position_tracker st2) (tick st2)
               (log st2 ++ [Log ERROR (StrategyFailed (Strategy.name strategy) e)])
               (calls st2) (executions st2), executed_count + n)
        end
    | Raise e =>
        (mkState (position_tracker st1) (tick st1)
           (log st1 ++ [Log ERROR (StrategyFailed (Strategy.name strategy) e)])
           (calls st1) (executions st1), executed_count)
    end.

(** [run_once]: [markets] is what [get_btc_15min_markets] returned. *)
Definition run_once (st : state) (markets : list Market.t)
    (strategies : list Strategy.t) : state * Z :=
  match markets with
  | [] =>
      (mkState (position_tracker st) (tick st) (log st ++ [Log WARNING NoMarkets])
         (calls st) (executions st), 0)
  | _ :: _ =>
      let '(st1, executed_count) := foldl (run_strategy markets) (st, 0) strategies in
      (mkState (position_tracker st1) (tick st1)
         (log st1 ++ [Log INFO (CycleComplete executed_count)]) (calls st1)
         (executions st1), executed_count)
  end.
End cycle.

End BTC15MinBot.

(** ** The two ledgers side by side

    [positions.json] and [paper_trades.json] live next to each other.
    [TradingBot] holds a [PaperTradingTracker] and no [PositionTracker];
    [BTC15MinBot] holds a [PositionTracker] and no [PaperTradingTracker].
    The effect of one dispatch on the pair is therefore the effect on the
    ledger the orchestrator holds, the other one being out of its reach. *)

Record Ledgers := mkLedgers {
  position_ledger : gmap string Position.t;
  paper_ledger : gmap string PaperTrade.t
}.

Definition btc_dispatch (dry_run : bool) (clock : nat → string)
    (execute_trade : Trade.t → bool) (strategy_name : string)
    (trade : Trade.t) (market : Market.t) (L : Ledgers) : Ledgers :=
  let st := BTC15MinBot.init (position_ledger L) in
  mkLedgers
    (BTC15MinBot.position_tracker
       (BTC15MinBot.dispatch dry_run clock execute_trade st strategy_name trade market).1)
    (paper_ledger L).

Definition trading_bot_dispatch (dry_run : bool) (clock : nat → string)
    (execute_trade : Trade.t → bool) (signal : TradeSignal.t) (L : Ledgers) : Ledgers :=
  let st := TradingBot.init dry_run (paper_ledger L) in
  mkLedgers
    (position_ledger L)
    (default (paper_ledger L)
       (TradingBot.paper_trader
          (TradingBot.process_signal dry_run clock execute_trade st signal).1)).

(** ** strategies/btc_15min_strategies.py

    The strategies add, subtract and compare prices, in binary64, and never
    raise.  The text of
    [reason] interpolates prices with a format specification ([:.3f],
    [:.0f]); the rendering of a number is a parameter [fmt3] or [fmt0] of the
    model.  Their log lines are left out. *)

(** [a < b] and [a >= b] on numbers. *)
Definition py_lt (a b : Q) : bool := negb (Qle_bool b a).
Definition py_ge (a b : Q) : bool := Qle_bool b a.

(** [TradeSignal(trade=Trade(market_id=market.id, question=market.question,
    side=..., amount=..., price=..., reason=...), market=market)], the only
    way these strategies build a signal; [action] keeps its default. *)
Definition buy_signal (market : Market.t) (side : string) (amount : Z) (price : Q)
    (reason : string) : TradeSignal.t :=
  TradeSignal.mk
    (Trade.mk (Market.id market) (Market.question market) side amount price reason "BUY")
    market.

(** A strategy object whose [analyze] ignores the positions and builds a
    [Trade] object of its own for every signal. *)
Definition stateless_strategy (name : string) (enabled : bool)
    (analyze : list Market.t → list TradeSignal.t) : Strategy.t :=
  Strategy.mk name enabled (λ markets _, Return (imap Signal (analyze markets))).

Module PriceArbitrageStrategy.
Definition analyze_market (fmt3 : Q → string) (shares_per_trade : Z)
    (deviation_threshold : Q) (market : Market.t) : list TradeSignal.t :=
  if negb (Market.active market) then []
  else
    let up_price := Market.yes_price market in
    let down_price := Market.no_price market in
    let total := Binary64.add up_price down_price in
    let deviation := Qabs (Binary64.sub total 1) in
    if py_gt deviation deviation_threshold then
      if py_lt total 1 then
        if py_lt up_price down_price then
          [buy_signal market "YES" shares_per_trade up_price
             ("Arbitrage: UP underpriced at " +:+ fmt3 up_price
              +:+ " (total=" +:+ fmt3 total +:+ ")")]
        else
          [buy_signal market "NO" shares_per_trade down_price
             ("Arbitrage: DOWN underpriced at " +:+ fmt3 down_price
              +:+ " (total=" +:+ fmt3 total +:+ ")")]
      else []
    else [].

Definition analyze (fmt3 : Q → string) (shares_per_trade : Z) (deviation_threshold : Q)
    (markets : list Market.t) : list TradeSignal.t :=
  markets ≫= analyze_market fmt3 shares_per_trade deviation_threshold.
End PriceArbitrageStrategy.

Module MeanReversionStrategy.
Definition analyze_market (fmt3 : Q → string) (shares_per_trade : Z)
    (extreme_threshold : Q) (market : Market.t) : list TradeSignal.t :=
  if negb (Market.active market) then []
  else
    let up_price := Market.yes_price market in
    let down_price := Market.no_price market in
    if py_gt up_price extreme_threshold then
      [buy_signal market "NO" shares_per_trade down_price
         ("Mean reversion: UP overpriced at " +:+ fmt3 up_price
          +:+ ", buying DOWN at " +:+ fmt3 down_price)]
    else if py_gt down_price extreme_threshold then
      [buy_signal market "YES" shares_per_trade up_price
         ("Mean reversion: DOWN overpriced at " +:+ fmt3 down_price
          +:+ ", buying UP at " +:+ fmt3 up_price)]
    else [].

Definition analyze (fmt3 : Q → string) (shares_per_trade : Z) (extreme_threshold : Q)
    (markets : list Market.t) : list TradeSignal.t :=
  markets ≫= analyze_market fmt3 shares_per_trade extreme_threshold.
End MeanReversionStrategy.

Module SimpleBalancedStrategy.
Definition analyze_market (fmt3 : Q → string) (shares_per_trade : Z)
    (min_edge : Q) (market : Market.t) : list TradeSignal.t :=
  if negb (Market.active market) then []
  else
    let up_price := Market.yes_price market in
    let down_price := Market.no_price market in
    let price_diff := Qabs (Binary64.sub up_price down_price) in
    if py_lt price_diff min_edge then []
    else if py_lt up_price down_price then
      [buy_signal market "YES" shares_per_trade up_price
         ("Contrarian: UP cheaper at " +:+ fmt3 up_price
          +:+ " vs DOWN at " +:+ fmt3 down_price)]
    else
      [buy_signal market "NO" shares_per_trade down_price
         ("Contrarian: DOWN cheaper at " +:+ fmt3 down_price
          +:+ " vs UP at " +:+ fmt3 up_price)].

Definition analyze (fmt3 : Q → string) (shares_per_trade : Z) (min_edge : Q)
    (markets : list Market.t) : list TradeSignal.t :=
  markets ≫= analyze_market fmt3 shares_per_trade min_edge.
End SimpleBalancedStrategy.

Module VolumeSpikeStrategy.
Definition analyze_market (fmt3 fmt0 : Q → string) (shares_per_trade : Z)
    (volume_threshold min_imbalance : Q) (market : Market.t) : list TradeSignal.t :=
  if negb (Market.active market) then []
  else if py_lt (Market.volume market) volume_threshold then []
  else
    let up_price := Market.yes_price market in
    let down_price := Market.no_price market in
    let price_diff := Qabs (Binary64.sub up_price down_price) in
    if py_ge price_diff min_imbalance then
      if py_lt up_price down_price then
        [buy_signal market "YES" shares_per_trade up_price
           ("Volume spike: High vol ($" +:+ fmt0 (Market.volume market)
            +:+ "), UP cheaper at " +:+ fmt3 up_price)]
      else
        [buy_signal market "NO" shares_per_trade down_price
           ("Volume spike: High vol ($" +:+ fmt0 (Market.volume market)
            +:+ "), DOWN cheaper at " +:+ fmt3 down_price)]
    else [].

Definition analyze (fmt3 fmt0 : Q → string) (shares_per_trade : Z)
    (volume_threshold min_imbalance : Q) (markets : list Market.t) : list TradeSignal.t :=
  markets ≫= analyze_market fmt3 fmt0 shares_per_trade volume_threshold min_imbalance.
End VolumeSpikeStrategy.

Module MomentumStrategy.
(** [analyze] reads and updates [self.last_prices], a dict from market id to
    the pair (up_price, down_price) last seen. *)
Definition analyze_market (fmt3 : Q → string) (shares_per_trade : Z)
    (momentum_threshold : Q)
    (acc : list TradeSignal.t * gmap string (Q * Q)) (market : Market.t)
    : list TradeSignal.t * gmap string (Q * Q) :=
  let '(signals, last_prices) := acc in
  if negb (Market.active market) then (signals, last_prices)
  else
    let up_price := Market.yes_price market in
    let down_price := Market.no_price market in
    let signals :=
      match last_prices !! Market.id market with
      | Some (last_up, last_down) =>
          let up_change := Binary64.sub up_price last_up in
          let down_change := Binary64.sub down_price last_down in
          if py_ge up_change momentum_threshold then
            signals ++
            [buy_signal market "YES" shares_per_trade up_price
               ("Momentum: UP rising (+$" +:+ fmt3 up_change
                +:+ " to " +:+ fmt3 up_price +:+ ")")]
          else if py_ge down_change momentum_threshold then
            signals ++
            [buy_signal market "NO" shares_per_trade down_price
               ("Momentum: DOWN rising (+$" +:+ fmt3 down_change
                +:+ " to " +:+ fmt3 down_price +:+ ")")]
          else signals
      | None => signals
      end in
    (signals, <[Market.id market := (up_price, down_price)]> last_prices).

Definition analyze (fmt3 : Q → string) (shares_per_trade : Z) (momentum_threshold : Q)
    (last_prices : gmap string (Q * Q)) (markets : list Market.t)
    : list TradeSignal.t * gmap string (Q * Q) :=
  foldl (analyze_market fmt3 shares_per_trade momentum_threshold) ([], last_prices) markets.
End MomentumStrategy.

(** ** polymarket_client.py: [get_markets] *)

(** What [requests.get], [raise_for_status] and [response.json()] give for
    one page: a [RequestException] or the list of raw market entries. *)
Inductive Response (A : Type) :=
  | RequestException (e : string)
  | Json (markets_data : list A).
Arguments RequestException {A} e.
Arguments Json {A} markets_data.

(** [l[:n]] for a list [l] and an integer [n]. *)
Definition py_take {A} (n : Z) (l : list A) : list A :=
  if decide (0 ≤ n) then take (Z.to_nat n) l
  else take (Z.to_nat (py_len l + n)) l.

(** [max_markets and n >= max_markets], for [max_markets] an integer or
    [None]. *)
Definition limit_reached (max_markets : option Z) (n : Z) : bool :=
  match max_markets with
  | None => false
  | Some m => bool_decide (m ≠ 0) && bool_decide (m ≤ n)
  end.

Module PolymarketClient.
Section get_markets.
Context {Raw : Type}.
(** The API, as it answers the [call]-th request of one [get_markets], by
    the parameters [active], [limit] and [offset] of the request. *)
Variable request : nat → bool → Z → Z → Response Raw.
(** [_parse_market], with [None] for an entry that is skipped or whose
    parsing raised. *)
Variable _parse_market : Raw → option Market.t.

(** The [while True] loop of lines 44-89, with [fuel] bounding the number of
    pages; [None] when the fuel runs out, [Raise] when a request fails. *)
Fixpoint fetch_pages (fuel : nat) (call : nat) (active_only : bool) (batch_size : Z)
    (max_markets : option Z) (offset : Z) (all_markets : list Market.t)
    : option (Outcome (list Market.t)) :=
  match fuel with
  | O => None
  | S fuel =>
      match request call active_only batch_size offset with
      | RequestException e => Some (Raise e)
      | Json [] => Some (Return all_markets)
      | Json markets_data =>
          let batch_markets : list Market.t := omap _parse_market markets_data in
          let all_markets := all_markets ++ batch_markets in
          if limit_reached max_markets (py_len all_markets)
          then Some (Return (py_take (default 0 max_markets) all_markets))
          else if bool_decide (py_len markets_data < batch_size)
          then Some (Return all_markets)
          else fetch_pages fuel (S call) active_only batch_size max_markets
                 (offset + batch_size) all_markets
      end
  end.

(** [get_markets]: a [RequestException] is caught and gives the empty list;
    after the loop, the log line of line 91 divides by [batch_size], and a
    [ZeroDivisionError] is not caught. *)
Definition get_markets (fuel : nat) (active_only : bool) (limit : Z)
    (max_markets : option Z) : option (Outcome (list Market.t)) :=
  let batch_size := Z.min limit 100 in
  match fetch_pages fuel 0 active_only batch_size max_markets 0 [] with
  | None => None
  | Some (Raise e) => Some (Return [])
  | Some (Return all_markets) =>
      if decide (batch_size = 0) then Some (Raise "ZeroDivisionError")
      else Some (Return all_markets)
  end.
End get_markets.
End PolymarketClient.

(** * Vocabulary of the properties *)

(** The cost-weighted average of two lots, in exact arithmetic. *)
Definition weighted_average (shares0 : Z) (price0 : Q) (shares_delta : Z) (price_delta : Q) : Q :=
  ((inject_Z shares0 * price0 + inject_Z shares_delta * price_delta)
   / inject_Z (shares0 + shares_delta))%Q.

(** The entry price that lines 68-70 of [position_tracker.py] store: the
    same quotient, every operation rounded to binary64. *)
Definition average_entry_price (shares0 : Z) (price0 : Q) (shares_delta : Z) (price_delta : Q)
    : Q :=
  Binary64.div
    (Binary64.add (Binary64.mul (Binary64.of_int shares0) price0)
       (Binary64.mul (Binary64.of_int shares_delta) price_delta))
    (Binary64.of_int (shares0 + shares_delta)).

(** The size of the two lots against the size of what is left of them: large
    where a sale nearly closes a position. *)
Definition rounding_slack (shares0 : Z) (price0 : Q) (shares_delta : Z) (price_delta : Q) : Q :=
  ((Qabs (inject_Z shares0 * price0) + Qabs (inject_Z shares_delta * price_delta))
   / Qabs (inject_Z (shares0 + shares_delta)))%Q.

(** [2 ^ fl ≤ n / d], without fractions. *)
Definition reaches (n d : positive) (fl : Z) : Prop :=
  if 0 <=? fl then Z.pos d * 2 ^ fl ≤ Z.pos n else Z.pos d ≤ Z.pos n * 2 ^ (- fl).

(** The arguments of one call of [add_position], with the clock reading. *)
Record Upsert := mkUpsert {
  u_now : string;
  u_strategy_name : string;
  u_market_id : string;
  u_question : string;
  u_side : string;
  u_shares : Z;
  u_entry_price : Q;
  u_market_close_time : string
}.

Definition upsert_key (c : Upsert) : string :=
  PositionTracker.position_key (u_strategy_name c) (u_market_id c) (u_side c).

Definition apply_upsert (positions : gmap string Position.t) (c : Upsert)
    : gmap string Position.t :=
  (PositionTracker.add_position positions (u_now c) (u_strategy_name c) (u_market_id c)
     (u_question c) (u_side c) (u_shares c) (u_entry_price c) (u_market_close_time c)).1.

Definition apply_upserts (positions : gmap string Position.t) (calls : list Upsert)
    : gmap string Position.t :=
  foldl apply_upsert positions calls.

(** Sum of the shares_delta of the calls that address key [k]. *)
Definition net_delta (k : string) (calls : list Upsert) : Z :=
  foldr Z.add 0 (u_shares <$> filter (λ c, upsert_key c = k) calls).

(** Shares held under key [k]; zero when there is no record. *)
Definition held (positions : gmap string Position.t) (k : string) : Z :=
  from_option Position.shares 0 (positions !! k).

(** No record is kept at zero shares. *)
Definition no_zero_position (positions : gmap string Position.t) : Prop :=
  ∀ k p, positions !! k = Some p → Position.shares p ≠ 0.

(** What one share of [side] pays once [winning_side] is known. *)
Definition payout_per_share (side winning_side : string) : Q :=
  if decide (side = winning_side) then 1%Q else 0%Q.

(** The executed trades carry pairwise distinct keys, all of which are in
    [executed_trades]. *)
Definition dedup_inv (st : TradingBot.state) : Prop :=
  NoDup (TradingBot.trade_key <$> TradingBot.executions st)
  ∧ ∀ t, t ∈ TradingBot.executions st →
         TradingBot.trade_key t ∈ TradingBot.executed_trades st.

Definition enabled_names (strategies : list Strategy.t) : list string :=
  Strategy.name <$> filter (λ s, Strategy.enabled s = true) strategies.

(** The positions handed over in a call all belong to the strategy called. *)
Definition own_positions_only (markets : list Market.t) (c : Invocation) : Prop :=
  inv_markets c = markets
  ∧ ∃ ps, inv_positions c = Some ps
          ∧ Forall (λ p, Position.strategy_name p = inv_strategy c) ps.

(** No character of [s] is a colon, the separator of [position_key]. *)
Fixpoint colon_free (s : string) : bool :=
  match s with
  | EmptyString => true
  | String a s' => negb (Ascii.eqb a ":"%char) && colon_free s'
  end.

(** Every record holds a positive number of shares: no short position, no
    empty one. *)
Definition positions_positive (positions : gmap string Position.t) : Prop :=
  ∀ k p, positions !! k = Some p → 0 < Position.shares p.






(** A signal as the strategies of the repository build them: a BUY or a
    SELL of a positive amount, bundled with the market of its trade. *)
Definition well_formed_signal (signal : TradeSignal.t) : Prop :=
  (Trade.action (TradeSignal.trade signal) = "BUY"
   ∨ Trade.action (TradeSignal.trade signal) = "SELL")
  ∧ 0 < Trade.amount (TradeSignal.trade signal)
  ∧ Trade.market_id (TradeSignal.trade signal) = Market.id (TradeSignal.market signal).

Definition well_formed_item (item : Item) : Prop :=
  match item with
  | Signal _ signal => well_formed_signal signal
  | BareTrade _ => True
  end.

(** A strategy all of whose signals are well formed, whatever it is given. *)
Definition well_behaved (strategy : Strategy.t) : Prop :=
  ∀ markets positions signals,
    Strategy.analyze strategy markets positions = Return signals →
    Forall well_formed_item signals.

(** A signal that buys [shares_per_trade] shares of one side of an active
    market among [markets], at the price quoted for that side. *)
Definition buys_quoted_side (shares_per_trade : Z) (markets : list Market.t)
    (signal : TradeSignal.t) : Prop :=
  let trade := TradeSignal.trade signal in
  let market := TradeSignal.market signal in
  market ∈ markets
  ∧ Market.active market = true
  ∧ Trade.action trade = "BUY"
  ∧ Trade.amount trade = shares_per_trade
  ∧ Trade.market_id trade = Market.id market
  ∧ Trade.question trade = Market.question market
  ∧ ((Trade.side trade = "YES" ∧ Trade.price trade = Market.yes_price market)
     ∨ (Trade.side trade = "NO" ∧ Trade.price trade = Market.no_price market)).

(** The price quoted for the side that a signal does not buy. *)
Definition other_price (signal : TradeSignal.t) : Q :=
  if decide (Trade.side (TradeSignal.trade signal) = "YES")
  then Market.no_price (TradeSignal.market signal)
  else Market.yes_price (TradeSignal.market signal).

(** A page that ends the loop of [get_markets]: a failed request, an empty
    page, or a page shorter than the batch size. *)
Definition last_page {Raw} (batch_size : Z) (r : Response Raw) : Prop :=
  match r with
  | RequestException _ => True
  | Json markets_data => markets_data = [] ∨ py_len markets_data < batch_size
  end.

(** A page after which the loop of [get_markets] asks for the next one when
    no limit is set. *)
Definition full_page {Raw} (batch_size : Z) (r : Response Raw) : Prop :=
  match r with
  | RequestException _ => False
  | Json markets_data => markets_data ≠ [] ∧ batch_size ≤ py_len markets_data
  end.



(** How the successive calls of [run_once] end in [run]. *)
Fixpoint cycle_outcomes (dry_run : bool) (clock : nat → string) (st : TradingBot.state)
    (cycles : list TradingBot.cycle_env) : list (Outcome Z) :=
  match cycles with
  | [] => []
  | c :: cycles =>
      let result := TradingBot.run_cycle dry_run clock st c in
      result.2 :: cycle_outcomes dry_run clock result.1 cycles
  end.

(** The sum of the numbers returned, a call that raised returning none. *)
Definition returned_total (outcomes : list (Outcome Z)) : Z :=
  foldr (λ outcome total,
           match outcome with
           | Return executed_count => executed_count + total
           | Raise _ => total
           end) 0 outcomes.

(** Every [Trade] object that the loop has been through holds a positive
    amount. *)
Definition amounts_positive (amounts : gmap nat Z) : Prop :=
  ∀ trade_object v, amounts !! trade_object = Some v → 0 < v.

(** * Ledgers, signals and strategies used as instances *)

Definition c3_calls : list Upsert :=
  [ mkUpsert "t1" "S" "m" "q" "UP" 10 (1 # 2) "t9";
    mkUpsert "t2" "T" "m" "q" "UP" 7 (1 # 2) "t9";
    mkUpsert "t3" "S" "m" "q" "UP" (-4) (3 # 5) "t9";
    mkUpsert "t4" "S" "m" "q" "UP" (-6) (7 # 10) "t9" ].

Definition c6_trade : PaperTrade.t :=
  PaperTrade.mk "m:YES:t0" "m" "q" "YES" 10 (9 # 10) "t0" "r" 1000 "t9"
    false None None None.

Definition c9_trades : gmap string PaperTrade.t :=
  {[ "m:YES:t0" := c6_trade;
     "n:NO:t1" := PaperTrade.mk "n:NO:t1" "n" "q" "NO" 5 (1 # 4) "t1" "r" 10 "t9"
                    false None None None ]}.

Definition c5_position : Position.t := Position.mk "S" "m" "q" "YES" 10 (1 # 2) "t0" "t9".

Definition c5_signal : TradeSignal.t :=
  TradeSignal.mk (Trade.mk "m" "q" "YES" 15 (3 # 5) "r" "SELL")
                 (Market.mk "m" "q" "t9" (3 # 5) (2 # 5) 1000 true).

(** A sale of market "n" bundled with market "m". *)
Definition c5_stray_signal : TradeSignal.t :=
  TradeSignal.mk (Trade.mk "n" "q" "YES" 10 (3 # 5) "r" "SELL")
                 (Market.mk "m" "q" "t9" (3 # 5) (2 # 5) 1000 true).

Definition c1_signal : TradeSignal.t :=
  TradeSignal.mk (Trade.mk "m" "q" "YES" 10 (3 # 5) "r" "BUY")
                 (Market.mk "m" "q" "t9" (3 # 5) (2 # 5) 1000 true).

Definition c4_strategy (name : string) : Strategy.t :=
  Strategy.mk name true (λ _ _, Return [Signal 0 c1_signal]).

Definition c4_cycle : TradingBot.cycle_env :=
  TradingBot.mkEnv [TradeSignal.market c1_signal] [c4_strategy "S1"; c4_strategy "S2"]
    (λ _, true).

(** A cycle in which a strategy that returns signals comes before one that
    returns bare trades. *)
Definition x_raising_cycle : TradingBot.cycle_env :=
  TradingBot.mkEnv [TradeSignal.market c1_signal]
    [c4_strategy "S1";
     Strategy.mk "S2" true (λ _ _, Return [BareTrade (TradeSignal.trade c1_signal)])]
    (λ _, true).

Definition c8_raising : Strategy.t :=
  Strategy.mk "S1" true (λ _ _, Raise "KeyError").


Definition x_sell_signal : TradeSignal.t :=
  TradeSignal.mk (Trade.mk "m" "q" "YES" 4 (3 # 5) "r" "SELL")
                 (Market.mk "m" "q" "t9" (3 # 5) (2 # 5) 1000 true).

Definition x_markets : list Market.t :=
  [ Market.mk "m" "q" "t9" (3 # 5) (2 # 5) 1000 true;
    Market.mk "n" "q2" "t9" (7 # 10) (1 # 5) 5000 true;
    Market.mk "o" "q3" "t9" (1 # 2) (1 # 2) 10 false ].

(** A market that [_parse_market] made out of an entry of some page. *)
Definition parsed_from_page {Raw} (request : nat → bool → Z → Z → Response Raw)
    (_parse_market : Raw → option Market.t) (active_only : bool) (batch_size : Z)
    (market : Market.t) : Prop :=
  ∃ call offset markets_data raw,
    request call active_only batch_size offset = Json markets_data
    ∧ raw ∈ markets_data ∧ _parse_market raw = Some market.

(** * Properties *)

(** ** Binary64 rounding *)

Section binary64_rounding.
Import Binary64.

Lemma nearest_even_error (a b : Z) :
  0 ≤ a → 0 < b → 2 * Z.abs (nearest_even a b * b - a) ≤ b.
Proof.
  intros Ha Hb. unfold nearest_even.
  pose proof (Z.div_mod a b ltac:(lia)) as Hdm.
  pose proof (Z.mod_pos_bound a b Hb) as Hr.
  set (q := a / b) in *. set (r := a mod b) in *.
  destruct (2 * r <? b) eqn:H1; [apply Z.ltb_lt in H1; nia|].
  apply Z.ltb_ge in H1.
  destruct (b <? 2 * r) eqn:H2; [apply Z.ltb_lt in H2; nia|].
  apply Z.ltb_ge in H2. destruct (Z.even q); nia.
Qed.

Lemma floor_log2_reaches (n d : positive) : reaches n d (floor_log2 n d).
Proof.
  unfold reaches, floor_log2.
  pose proof (Z.log2_spec (Z.pos n) ltac:(lia)) as [Hn _].
  pose proof (Z.log2_spec (Z.pos d) ltac:(lia)) as [_ Hd].
  pose proof (Z.log2_nonneg (Z.pos n)) as Hln. pose proof (Z.log2_nonneg (Z.pos d)) as Hld.
  set (ln := Z.log2 (Z.pos n)) in *. set (ld := Z.log2 (Z.pos d)) in *.
  destruct (0 <=? ln - ld) eqn:Hk.
  - apply Z.leb_le in Hk.
    destruct (Z.pos d * 2 ^ (ln - ld) <=? Z.pos n) eqn:Ht.
    + rewrite (proj2 (Z.leb_le _ _) Hk). by apply Z.leb_le.
    + destruct (0 <=? ln - ld - 1) eqn:Hk'.
      * apply Z.leb_le in Hk'.
        assert (2 ^ ln = 2 ^ (ld + 1) * 2 ^ (ln - ld - 1)) as Hp.
        { rewrite <- Z.pow_add_r by lia. f_equal. lia. }
        pose proof (Z.pow_pos_nonneg 2 (ln - ld - 1) ltac:(lia) ltac:(lia)). nia.
      * apply Z.leb_gt in Hk'. replace (- (ln - ld - 1)) with 1 by lia.
        replace ln with ld in * by lia. rewrite Z.pow_succ_r in Hd by lia.
        change (2 ^ 1) with 2. lia.
  - apply Z.leb_gt in Hk.
    destruct (Z.pos d <=? Z.pos n * 2 ^ (- (ln - ld))) eqn:Ht.
    + rewrite (proj2 (Z.leb_gt _ _) Hk). by apply Z.leb_le.
    + rewrite (proj2 (Z.leb_gt _ _)) by lia.
      assert (2 ^ (ld + 1) = 2 ^ ln * 2 ^ (- (ln - ld - 1))) as Hp.
      { rewrite <- Z.pow_add_r by lia. f_equal. lia. }
      pose proof (Z.pow_pos_nonneg 2 (- (ln - ld - 1)) ltac:(lia) ltac:(lia)). nia.
Qed.


(** Closes the integer form of [|v - x| ≤ x * 2^-53 + 2^-1075], from a bound
    [|X| * U ≤ N] on the scaled error [X]. *)
Lemma scaled_error_bound (X U E N D : Z) :
  0 < D → 0 < E → 0 ≤ U → - N ≤ X * U ≤ N →
  - (N * E + D * U) * D ≤ X * (D * U * E) ≤ (N * E + D * U) * D.
Proof.
  intros HD HE HU [H1 H2].
  assert (0 ≤ D * E) as HDE by nia.
  pose proof (Z.mul_le_mono_nonneg_r _ _ (D * E) HDE H1) as H3.
  pose proof (Z.mul_le_mono_nonneg_r _ _ (D * E) HDE H2) as H4.
  assert (0 ≤ D * U * D) by nia. lia.
Qed.


Lemma scaled_error_relative (X U E N D P : Z) :
  0 < D → 0 < E → 0 < P → 0 ≤ U → 0 ≤ N → - (N * P) ≤ X * U ≤ N * P →
  - (N * E + D * U) * (P * D) ≤ X * (D * U * E) ≤ (N * E + D * U) * (P * D).
Proof.
  intros HD HE HP HU HN [H1 H2].
  assert (0 ≤ D * E) as HDE by nia.
  pose proof (Z.mul_le_mono_nonneg_r _ _ (D * E) HDE H1) as H3.
  pose proof (Z.mul_le_mono_nonneg_r _ _ (D * E) HDE H2) as H4.
  assert (0 ≤ D * U * (P * D)) by nia. lia.
Qed.

Lemma scaled_error_absolute (X U E N D P : Z) :
  0 < D → 0 < P → 0 ≤ U → 0 ≤ N → E = 2 * P → - D ≤ 2 * X ≤ D →
  - (N * E + D * U) * (P * D) ≤ X * (D * U * E) ≤ (N * E + D * U) * (P * D).
Proof.
  intros HD HP HU HN -> [H1 H2].
  assert (0 ≤ P * D * U) as HDE by nia.
  pose proof (Z.mul_le_mono_nonneg_r _ _ (P * D * U) HDE H1) as H3.
  pose proof (Z.mul_le_mono_nonneg_r _ _ (P * D * U) HDE H2) as H4.
  assert (0 ≤ N * (2 * P) * (P * D)) by nia. lia.
Qed.

(** The value kept has at least 53 significant bits' worth of magnitude
    unless the last place is the smallest one. *)
Lemma round_pos_error (n d : positive) :
  (Qabs (round_pos n d - (Z.pos n # d)) <= (Z.pos n # d) * unit_roundoff + underflow_unit)%Q.
Proof.
  unfold round_pos, last_place.
  pose proof (floor_log2_reaches n d) as Hfl. unfold reaches in Hfl.
  set (fl := floor_log2 n d) in *.
  destruct (0 <=? Z.max (fl - 52) (-1074)) eqn:He.
  - apply Z.leb_le in He.
    assert (Z.max (fl - 52) (-1074) = fl - 52) as -> by lia.
    rewrite (proj2 (Z.leb_le 0 fl)) in Hfl by lia.
    pose proof (Z.pow_pos_nonneg 2 (fl - 52) ltac:(lia) ltac:(lia)) as Hp.
    assert (2 ^ fl = 2 ^ 52 * 2 ^ (fl - 52)) as Hpow.
    { rewrite <- Z.pow_add_r by lia. f_equal. lia. }
    set (P := 2 ^ (fl - 52)) in *.
    pose proof (nearest_even_error (Z.pos n) (Z.pos d * P) ltac:(lia) ltac:(lia)) as Hm.
    set (m := nearest_even (Z.pos n) (Z.pos d * P)) in *.
    apply Qabs_Qle_condition. unfold unit_roundoff, underflow_unit.
    unfold Qle, Qminus, Qplus, Qopp, Qmult, inject_Z; cbn [Qnum Qden].
    rewrite !Pos2Z.inj_mul.
    set (U := Z.pos (2 ^ 53)). set (E := Z.pos (2 ^ 1075)).
    assert (U = 2 * 2 ^ 52) as HU by reflexivity.
    assert (0 < E) as HE by done.
    set (T := 2 ^ 52) in *. assert (0 < T) as HT by done.
    clearbody U E T fl m P.
    pose proof (scaled_error_bound (m * P * Z.pos d - Z.pos n) U E (Z.pos n) (Z.pos d)
                  ltac:(done) HE ltac:(lia) ltac:(nia)) as Hb.
    lia.
  - apply Z.leb_gt in He.
    set (e := Z.max (fl - 52) (-1074)) in *.
    pose proof (Z.pow_pos_nonneg 2 (- e) ltac:(lia) ltac:(lia)) as Hp.
    pose proof (nearest_even_error (Z.pos n * 2 ^ (- e)) (Z.pos d) ltac:(lia) ltac:(lia)) as Hm.
    set (m := nearest_even (Z.pos n * 2 ^ (- e)) (Z.pos d)) in *.
    apply Qabs_Qle_condition. unfold unit_roundoff, underflow_unit.
    unfold Qle, Qminus, Qplus, Qopp, Qmult; cbn [Qnum Qden].
    rewrite !Pos2Z.inj_mul, Z2Pos.id by done.
    destruct (decide (fl - 52 < -1074)) as [Hsub|Hnorm].
    + assert (e = -1074) as Hemin by lia.
      assert (2 * 2 ^ (- e) = Z.pos (2 ^ 1075)) as HE by (rewrite Hemin; reflexivity).
      set (P := 2 ^ (- e)) in *. set (U := Z.pos (2 ^ 53)). set (E := Z.pos (2 ^ 1075)) in *.
      assert (0 < U) by done.
      clearbody U E m P.
      pose proof (scaled_error_absolute (m * Z.pos d - Z.pos n * P) U E (Z.pos n) (Z.pos d) P
                    ltac:(done) Hp ltac:(lia) ltac:(lia) ltac:(lia) ltac:(lia)) as Hb.
      lia.
    + assert (e = fl - 52) as Hefl by lia.
      assert (Z.pos d * 2 ^ 52 ≤ Z.pos n * 2 ^ (- e)) as Hbig.
      { destruct (0 <=? fl) eqn:Hfl0.
        - apply Z.leb_le in Hfl0.
          assert (2 ^ 52 = 2 ^ fl * 2 ^ (- e)) as ->.
          { rewrite <- Z.pow_add_r by lia. f_equal. lia. }
          nia.
        - apply Z.leb_gt in Hfl0.
          assert (2 ^ (- e) = 2 ^ (- fl) * 2 ^ 52) as ->.
          { rewrite <- Z.pow_add_r by lia. f_equal. lia. }
          nia. }
      set (P := 2 ^ (- e)) in *. set (U := Z.pos (2 ^ 53)). set (E := Z.pos (2 ^ 1075)).
      assert (U = 2 * 2 ^ 52) as HU by reflexivity.
      assert (0 < E) as HE by done.
      set (T := 2 ^ 52) in *. assert (0 < T) as HT by done.
      clearbody U E T m P.
      pose proof (scaled_error_relative (m * Z.pos d - Z.pos n * P) U E (Z.pos n) (Z.pos d) P
                    ltac:(done) HE Hp ltac:(lia) ltac:(lia) ltac:(nia)) as Hb.
      lia.
Qed.

(** Every binary64 operation rounds its exact result with a relative error of
    at most [2 ^ -53], or an absolute error of at most [2 ^ -1075] where the
    result is subnormal. *)
Lemma round_error (x : Q) :
  (Qabs (round x - x) <= Qabs x * unit_roundoff + underflow_unit)%Q.
Proof.
  destruct x as [[|n|n] d]; unfold round; cbn [Qnum Qden]; rewrite Qred_correct.
  - by vm_compute.
  - rewrite (Qabs_pos (Z.pos n # d)) by done. apply round_pos_error.
  - assert (- round_pos n d - (Z.neg n # d) == - (round_pos n d - (Z.pos n # d)))%Q as ->.
    { change (Z.neg n # d) with (- (Z.pos n # d))%Q. ring. }
    rewrite Qabs_opp. change (Z.neg n # d) with (- (Z.pos n # d))%Q.
    rewrite Qabs_opp, (Qabs_pos (Z.pos n # d)) by done. apply round_pos_error.
Qed.

Lemma round_zero (x : Q) : (x == 0)%Q → round x = 0%Q.
Proof.
  intros Hx. unfold round.
  assert (Qnum x = 0) as -> by (unfold Qeq in Hx; cbn in Hx; lia). done.
Qed.

Lemma nearest_even_exact (q b : Z) : 0 < b → nearest_even (q * b) b = q.
Proof.
  intros Hb. unfold nearest_even.
  rewrite Z.mod_mul, Z.div_mul by lia.
  by rewrite (proj2 (Z.ltb_lt _ _)) by lia.
Qed.

Lemma round_pos_int (n : positive) :
  Z.pos n ≤ 2 ^ 53 → (round_pos n 1 == inject_Z (Z.pos n))%Q.
Proof.
  intros Hn. unfold round_pos, last_place, floor_log2.
  pose proof (Z.log2_spec (Z.pos n) ltac:(lia)) as [Hlo Hhi].
  pose proof (Z.log2_nonneg (Z.pos n)) as Hk.
  change (Z.log2 1) with 0. rewrite Z.sub_0_r.
  set (k := Z.log2 (Z.pos n)) in *.
  rewrite (proj2 (Z.leb_le 0 k)) by done.
  rewrite (proj2 (Z.leb_le (1 * 2 ^ k) (Z.pos n))) by lia.
  assert (k ≤ 53) as Hk53.
  { destruct (decide (k ≤ 53)) as [|Hgt]; [done|].
    assert (2 ^ 54 ≤ 2 ^ k) by (apply Z.pow_le_mono_r; lia). lia. }
  rewrite Z.max_l by lia.
  destruct (0 <=? k - 52) eqn:He.
  - apply Z.leb_le in He.
    assert (k = 52 ∨ k = 53) as [->| ->] by lia.
    + assert (nearest_even (Z.pos n) (1 * 2 ^ (52 - 52)) * 2 ^ (52 - 52) = Z.pos n) as ->; [|done].
      change (2 ^ (52 - 52)) with 1. rewrite !Z.mul_1_r.
      pose proof (nearest_even_exact (Z.pos n) 1 ltac:(lia)) as Hx.
      by rewrite Z.mul_1_r in Hx.
    + assert (Z.pos n = 2 ^ 53) as -> by lia. reflexivity.
  - apply Z.leb_gt in He.
    pose proof (Z.pow_pos_nonneg 2 (- (k - 52)) ltac:(lia) ltac:(lia)) as Hp.
    pose proof (nearest_even_exact (Z.pos n * 2 ^ (- (k - 52))) 1 ltac:(lia)) as Hx.
    rewrite Z.mul_1_r in Hx. rewrite Hx.
    unfold Qeq. cbn [Qnum Qden inject_Z]. rewrite Z2Pos.id by done. lia.
Qed.

(** An integer of at most 53 bits is a binary64 number. *)
Lemma of_int_exact (n : Z) : Z.abs n ≤ 2 ^ 53 → of_int n = inject_Z n.
Proof.
  intros Hn. unfold of_int, round.
  rewrite <- (Qcanon.Qred_identity (inject_Z n)) at 2 by (cbn; apply Z.gcd_1_r).
  apply Qred_complete.
  destruct n as [|n|n]; cbn [Qnum Qden inject_Z].
  - done.
  - apply round_pos_int. lia.
  - rewrite round_pos_int by lia. done.
Qed.

(** The literals 0.1 and 0.3, the sum 0.1 + 0.2, which is not 0.3, the first
    integer that is not a binary64 number, and half the smallest positive
    number, which rounds to zero. *)
Lemma round_examples :
  round (1 # 10) = 3602879701896397 # 36028797018963968
  ∧ round (3 # 10) = 5404319552844595 # 18014398509481984
  ∧ add (round (1 # 10)) (round (1 # 5)) = 1351079888211149 # 4503599627370496
  ∧ of_int 9007199254740993 = inject_Z 9007199254740992
  ∧ round (1 # 2 ^ 1075) = 0%Q.
Proof. split_and!; by vm_compute. Qed.

End binary64_rounding.


Lemma Qabs_bounds (x : Q) : (0 <= Qabs x ∧ x <= Qabs x ∧ - x <= Qabs x)%Q.
Proof.
  split_and!; [apply Qabs_nonneg | apply Qle_Qabs |].
  rewrite <- Qabs_opp. apply Qle_Qabs.
Qed.

Lemma Qabs_le_intro (x y : Q) : (- y <= x → x <= y → Qabs x <= y)%Q.
Proof. intros. by apply Qabs_Qle_condition. Qed.

Lemma Qabs_le_elim (x y : Q) : (Qabs x <= y → - y <= x ∧ x <= y)%Q.
Proof. intros. by apply Qabs_Qle_condition. Qed.

Lemma average_entry_price_error (s0 : Z) (p0 : Q) (d : Z) (pd : Q) :
  s0 + d ≠ 0 → Z.abs s0 ≤ 2 ^ 53 → Z.abs d ≤ 2 ^ 53 → Z.abs (s0 + d) ≤ 2 ^ 53 →
  (Qabs (average_entry_price s0 p0 d pd - weighted_average s0 p0 d pd)
   <= rounding_slack s0 p0 d pd * (1 # 2 ^ 51) + (1 # 2 ^ 1072))%Q.
Proof.
  intros Hne Hs0 Hd Hs.
  unfold average_entry_price, weighted_average, rounding_slack.
  rewrite !of_int_exact by done.
  unfold Binary64.div, Binary64.add, Binary64.mul.
  set (x1 := (inject_Z s0 * p0)%Q). set (x2 := (inject_Z d * pd)%Q).
  set (S := inject_Z (s0 + d)).
  pose proof (round_error x1) as H1.
  pose proof (round_error x2) as H2.
  set (a := Binary64.round x1) in *. set (b := Binary64.round x2) in *.
  pose proof (round_error (a + b)) as H3.
  set (c := Binary64.round (a + b)) in *.
  pose proof (round_error (c / S)) as H4.
  set (q := Binary64.round (c / S)) in *.
  assert (1 <= Qabs S)%Q as HS1.
  { subst S. unfold inject_Z. rewrite <- Zabs_Qabs. change (inject_Z 1 <= inject_Z (Z.abs (s0 + d)))%Q.
    rewrite <- Zle_Qle. lia. }
  set (w := (/ Qabs S)%Q).
  assert (0 < w ∧ w <= 1)%Q as [Hw0 Hw1].
  { subst w. split.
    - apply Qinv_lt_0_compat. lra.
    - apply Qle_shift_inv_r; lra. }
  assert (Qabs (c / S) == Qabs c * w)%Q as Hcs.
  { unfold Qdiv. by rewrite Qabs_Qmult, Qabs_Qinv. }
  assert (∀ y, Qabs (y / S) == Qabs y * w)%Q as Hdiv.
  { intros y. unfold Qdiv. by rewrite Qabs_Qmult, Qabs_Qinv. }
  assert (q - (x1 + x2) / S == (q - c / S) + (c - (x1 + x2)) / S)%Q as ->.
  { field. intros HS0. rewrite HS0 in HS1. vm_compute in HS1. done. }
  eapply Qle_trans; [apply Qabs_triangle|].
  rewrite Hdiv. rewrite Hcs in H4.
  assert ((Qabs x1 + Qabs x2) / Qabs S == (Qabs x1 + Qabs x2) * w)%Q as -> by done.
  assert (Binary64.unit_roundoff == 1 # 9007199254740992)%Q as Hu by reflexivity.
  assert (1 # 2 ^ 51 == 4 * Binary64.unit_roundoff)%Q as -> by reflexivity.
  assert (1 # 2 ^ 1072 == 8 * Binary64.underflow_unit)%Q as -> by reflexivity.
  assert (0 <= Binary64.underflow_unit)%Q as Heta by done.
  rewrite Hu in *. set (eta := Binary64.underflow_unit) in *. clearbody eta.
  destruct (Qabs_bounds x1) as (HA0 & HA1 & HA2). destruct (Qabs_bounds x2) as (HB0 & HB1 & HB2).
  set (A := Qabs x1) in *. set (B := Qabs x2) in *.
  apply Qabs_le_elim in H1 as [H1l H1u]. apply Qabs_le_elim in H2 as [H2l H2u].
  assert (Qabs (a + b) <= A + B + (A + B) * (1 # 9007199254740992) + 2 * eta)%Q as Hab.
  { apply Qabs_le_intro; lra. }
  apply Qabs_le_elim in H3 as [H3l H3u].
  assert (Qabs (c - (x1 + x2)) <=
            (A + B) * ((2 # 1) * (1 # 9007199254740992)
                       + (1 # 9007199254740992) * (1 # 9007199254740992))
            + (3 + 2 * (1 # 9007199254740992)) * eta)%Q as Hct.
  { apply Qabs_le_intro; lra. }
  assert (Qabs c <= A + B +
            (A + B) * ((2 # 1) * (1 # 9007199254740992)
                       + (1 # 9007199254740992) * (1 # 9007199254740992))
            + (3 + 2 * (1 # 9007199254740992)) * eta)%Q as Hc.
  { apply Qabs_le_elim in Hct as [? ?]. apply Qabs_le_intro; lra. }
  pose proof (Qabs_nonneg (q - c / S)) as Hq0.
  set (C := Qabs c) in *. set (D := Qabs (c - (x1 + x2))) in *.
  set (Eq := Qabs (q - c / S)) in *.
  assert (0 <= (A + B) * w)%Q as HK by nra.
  assert (C * w <= (A + B) * w * (1 + (2 # 1) * (1 # 9007199254740992)
                       + (1 # 9007199254740992) * (1 # 9007199254740992))
                   + (3 + 2 * (1 # 9007199254740992)) * eta * w)%Q as HCw.
  { assert (C * w <= (A + B +
            (A + B) * ((2 # 1) * (1 # 9007199254740992)
                       + (1 # 9007199254740992) * (1 # 9007199254740992))
            + (3 + 2 * (1 # 9007199254740992)) * eta) * w)%Q as H'
      by (apply Qmult_le_compat_r; lra). lra. }
  assert (D * w <= (A + B) * w * ((2 # 1) * (1 # 9007199254740992)
                       + (1 # 9007199254740992) * (1 # 9007199254740992))
                   + (3 + 2 * (1 # 9007199254740992)) * eta * w)%Q as HDw.
  { assert (D * w <= ((A + B) * ((2 # 1) * (1 # 9007199254740992)
                       + (1 # 9007199254740992) * (1 # 9007199254740992))
            + (3 + 2 * (1 # 9007199254740992)) * eta) * w)%Q as H'
      by (apply Qmult_le_compat_r; lra). lra. }
  assert (eta * w <= eta)%Q as Hew by nra.
  set (K := ((A + B) * w)%Q) in *. set (ew := (eta * w)%Q) in *.
  assert (0 <= ew)%Q by (subst ew; nra).
  assert ((3 + 2 * (1 # 9007199254740992)) * eta * w
          == (3 + 2 * (1 # 9007199254740992)) * ew)%Q as Hr by (subst ew; ring).
  rewrite Hr in HCw, HDw.
  clearbody K ew C D Eq. lra.
Qed.

(** ** Position Ledger *)

Section position_ledger.
Import PositionTracker.
Implicit Types positions : gmap string Position.t.

Lemma add_position_other positions now sn mid q side d pd mct k :
  k ≠ position_key sn mid side →
  (add_position positions now sn mid q side d pd mct).1 !! k = positions !! k.
Proof.
  intros Hk. unfold add_position.
  destruct (positions !! position_key sn mid side) as [e|]; simpl.
  - case_decide; simpl.
    + by rewrite lookup_delete_ne.
    + by rewrite lookup_insert_ne.
  - by rewrite lookup_insert_ne.
Qed.

Lemma add_position_existing positions now sn mid q side d pd mct e :
  positions !! position_key sn mid side = Some e →
  (add_position positions now sn mid q side d pd mct).1 !! position_key sn mid side =
    if decide (Position.shares e + d = 0) then None
    else Some (Position.mk (Position.strategy_name e) (Position.market_id e)
                 (Position.question e) (Position.side e) (Position.shares e + d)
                 (average_entry_price (Position.shares e) (Position.entry_price e) d pd)
                 (Position.entry_time e) (Position.market_close_time e)).
Proof.
  intros He. unfold add_position. rewrite He.
  case_decide; simpl.
  - by rewrite lookup_delete_eq.
  - by rewrite lookup_insert_eq.
Qed.

Lemma add_position_new positions now sn mid q side d pd mct :
  positions !! position_key sn mid side = None →
  (add_position positions now sn mid q side d pd mct).1 !! position_key sn mid side =
    Some (Position.mk sn mid q side d pd now mct).
Proof.
  intros He. unfold add_position. rewrite He. simpl. by rewrite lookup_insert_eq.
Qed.
End position_ledger.

Lemma lots_within_slack (s0 : Z) (p0 : Q) (d : Z) (pd : Q) :
  s0 + d ≠ 0 → Z.abs s0 ≤ 1000000 → Z.abs d ≤ 1000000 →
  (0 <= p0 <= 1)%Q → (0 <= pd <= 1)%Q →
  (rounding_slack s0 p0 d pd <= 2000000)%Q.
Proof.
  intros Hne Hs0 Hd [Hp0 Hp1] [Hq0 Hq1]. unfold rounding_slack.
  assert (∀ z : Z, Qabs (inject_Z z) == inject_Z (Z.abs z))%Q as Habs.
  { intros z. unfold inject_Z. by rewrite <- Zabs_Qabs. }
  assert (∀ (z : Z) (x : Q), Z.abs z ≤ 1000000 → (0 <= x <= 1)%Q →
            (Qabs (inject_Z z * x) <= 1000000)%Q) as Hlot.
  { intros z x Hz [Hx0 Hx1]. rewrite Qabs_Qmult, Habs, (Qabs_pos x) by done.
    assert (inject_Z (Z.abs z) <= inject_Z 1000000)%Q as Hz' by (by rewrite <- Zle_Qle).
    assert (0 <= inject_Z (Z.abs z))%Q by (rewrite <- (Habs z); apply Qabs_nonneg).
    change (inject_Z 1000000) with 1000000%Q in Hz'. nra. }
  pose proof (Hlot s0 p0 Hs0 (conj Hp0 Hp1)) as HA.
  pose proof (Hlot d pd Hd (conj Hq0 Hq1)) as HB.
  assert (1 <= Qabs (inject_Z (s0 + d)))%Q as HS.
  { rewrite Habs. change 1%Q with (inject_Z 1). rewrite <- Zle_Qle. lia. }
  apply Qle_shift_div_r; [lra|].
  pose proof (Qabs_nonneg (inject_Z s0 * p0)). pose proof (Qabs_nonneg (inject_Z d * pd)).
  nra.
Qed.

(** C2, as the code has it. An upsert on a key that holds (shares0, price0),
    with a signed shares_delta at price_delta such that shares0 + shares_delta
    is not zero, leaves the position with shares0 + shares_delta shares, and
    with the entry price that binary64 arithmetic gives for the cost-weighted
    average.  For share counts of at most 53 bits and prices far below the
    overflow threshold, that price is off the exact average by at most 2^-51
    times the slack of the two lots (plus 2^-1072), hence by at most 1e-9
    while the slack is at most two million: in particular for lots of at most
    a million shares at prices between 0 and 1, whether shares_delta is
    positive or negative. *)
Theorem add_position_weighted_average
    (positions : gmap string Position.t) (now sn mid q side : string)
    (shares_delta : Z) (price_delta : Q) (mct : string) (existing : Position.t) :
  PositionTracker.get_position positions sn mid side = Some existing →
  Position.shares existing + shares_delta ≠ 0 →
  let shares0 := Position.shares existing in
  let price0 := Position.entry_price existing in
  ∃ p,
    PositionTracker.get_position
      (PositionTracker.add_position positions now sn mid q side shares_delta price_delta mct).1
      sn mid side = Some p
    ∧ Position.shares p = shares0 + shares_delta
    ∧ Position.entry_price p = average_entry_price shares0 price0 shares_delta price_delta
    ∧ (Z.abs shares0 ≤ 2 ^ 53 → Z.abs shares_delta ≤ 2 ^ 53 →
       Z.abs (shares0 + shares_delta) ≤ 2 ^ 53 →
       (Qabs price0 <= inject_Z (2 ^ 960))%Q → (Qabs price_delta <= inject_Z (2 ^ 960))%Q →
       (Qabs (Position.entry_price p
              - weighted_average shares0 price0 shares_delta price_delta)
        <= rounding_slack shares0 price0 shares_delta price_delta * (1 # 2 ^ 51)
           + (1 # 2 ^ 1072))%Q
       ∧ ((rounding_slack shares0 price0 shares_delta price_delta <= 2000000)%Q →
          (Qabs (Position.entry_price p
                 - weighted_average shares0 price0 shares_delta price_delta)
           <= 1 # 1000000000)%Q))
    ∧ (Z.abs shares0 ≤ 1000000 → Z.abs shares_delta ≤ 1000000 →
       (0 <= price0 <= 1)%Q → (0 <= price_delta <= 1)%Q →
       (Qabs (Position.entry_price p
              - weighted_average shares0 price0 shares_delta price_delta)
        <= 1 # 1000000000)%Q).
Proof.
  unfold PositionTracker.get_position. intros He Hne.
  set (shares0 := Position.shares existing). set (price0 := Position.entry_price existing).
  rewrite (add_position_existing _ _ _ _ _ _ _ _ _ _ He).
  rewrite decide_False by done.
  eexists; split; [reflexivity|].
  cbn [Position.shares Position.entry_price].
  split; [done|]. split; [done|].
  assert (Hsmall : (rounding_slack shares0 price0 shares_delta price_delta <= 2000000)%Q →
            Z.abs shares0 ≤ 2 ^ 53 → Z.abs shares_delta ≤ 2 ^ 53 →
            Z.abs (shares0 + shares_delta) ≤ 2 ^ 53 →
            (Qabs (average_entry_price shares0 price0 shares_delta price_delta
                   - weighted_average shares0 price0 shares_delta price_delta)
             <= 1 # 1000000000)%Q).
  { intros Hslack H0 Hd Ht.
    eapply Qle_trans; [by apply average_entry_price_error|].
    assert (1 # 2 ^ 51 == 1 # 2251799813685248)%Q as -> by reflexivity.
    assert (1 # 2 ^ 1072 <= 1 # 2251799813685248)%Q as Htiny by done.
    set (tiny := 1 # 2 ^ 1072) in *. clearbody tiny.
    set (slack := rounding_slack shares0 price0 shares_delta price_delta) in *.
    clearbody slack. lra. }
  split.
  - intros H0 Hd Ht _ _. split; [by apply average_entry_price_error|].
    intros Hslack. by apply Hsmall.
  - intros H0 Hd Hp0 Hpd. apply Hsmall; [by apply lots_within_slack | lia..].
Qed.

Lemma add_position_weighted_average_witness :
  let price0 := Binary64.round (1 # 2) in
  let price_delta := Binary64.round (4 # 5) in
  let positions : gmap string Position.t :=
    {[ "S:m:UP" := Position.mk "S" "m" "q" "UP" 10 price0 "t0" "t9" ]} in
  ∃ p,
    PositionTracker.get_position
      (PositionTracker.add_position positions "t1" "S" "m" "q" "UP" (-4) price_delta "t9").1
      "S" "m" "UP" = Some p
    ∧ Position.shares p = 10 + -4
    ∧ (Qabs (Position.entry_price p - weighted_average 10 price0 (-4) price_delta)
       <= 1 # 1000000000)%Q.
Proof.
  intros price0 price_delta positions.
  destruct (add_position_weighted_average positions "t1" "S" "m" "q" "UP" (-4) price_delta "t9"
              (Position.mk "S" "m" "q" "UP" 10 price0 "t0" "t9"))
    as (p & Hp & Hshares & _ & _ & Hclose).
  - reflexivity.
  - simpl. lia.
  - exists p. split; [exact Hp|]. split; [exact Hshares|].
    apply Hclose; [simpl; lia | simpl; lia | by vm_compute | by vm_compute].
Defined.

(** C2 as stated fails: a sale of 999999999 shares at 0.7 out of a position
    of 1000000000 shares held at 0.3 leaves one share, whose entry price is
    off the cost-weighted average of the two lots by more than 1e-9. *)
Lemma nearly_closed_position_average :
  let price0 := Binary64.round (3 # 10) in
  let price_delta := Binary64.round (7 # 10) in
  let positions : gmap string Position.t :=
    {[ "S:m:UP" := Position.mk "S" "m" "q" "UP" 1000000000 price0 "t0" "t9" ]} in
  ∃ p,
    PositionTracker.get_position
      (PositionTracker.add_position positions "t1" "S" "m" "q" "UP" (-999999999)
         price_delta "t9").1
      "S" "m" "UP" = Some p
    ∧ Position.shares p = 1
    ∧ (1 # 1000000000
       < Qabs (Position.entry_price p
               - weighted_average 1000000000 price0 (-999999999) price_delta))%Q.
Proof.
  intros price0 price_delta positions.
  eexists. split; [reflexivity|]. split; [reflexivity|]. by vm_compute.
Qed.

(** *** Sequences of upserts *)

Lemma held_apply_upsert positions c k :
  held (apply_upsert positions c) k =
    held positions k + (if decide (upsert_key c = k) then u_shares c else 0).
Proof.
  unfold held, apply_upsert. case_decide as Hk.
  - subst k. unfold upsert_key.
    destruct (positions !! PositionTracker.position_key (u_strategy_name c)
                (u_market_id c) (u_side c)) as [e|] eqn:He.
    + rewrite (add_position_existing _ _ _ _ _ _ _ _ _ _ He).
      case_decide; simpl; lia.
    + rewrite add_position_new by done. simpl. lia.
  - rewrite add_position_other by done. lia.
Qed.

Lemma held_apply_upserts calls : ∀ positions k,
  held (apply_upserts positions calls) k = held positions k + net_delta k calls.
Proof.
  induction calls as [|c calls IH]; intros positions k.
  - unfold net_delta. simpl. lia.
  - unfold apply_upserts. simpl. fold (apply_upserts (apply_upsert positions c) calls).
    rewrite IH, held_apply_upsert. unfold net_delta. rewrite filter_cons.
    case_decide; [rewrite fmap_cons|]; simpl; lia.
Qed.

Lemma no_zero_apply_upsert positions c :
  u_shares c ≠ 0 → no_zero_position positions → no_zero_position (apply_upsert positions c).
Proof.
  intros Hc Hinv k p. unfold apply_upsert.
  destruct (decide (k = upsert_key c)) as [->|Hk].
  - unfold upsert_key.
    destruct (positions !! PositionTracker.position_key (u_strategy_name c)
                (u_market_id c) (u_side c)) as [e|] eqn:He.
    + rewrite (add_position_existing _ _ _ _ _ _ _ _ _ _ He).
      case_decide; [done|]. by intros [= <-].
    + rewrite add_position_new by done. by intros [= <-].
  - rewrite add_position_other by done. apply Hinv.
Qed.

Lemma no_zero_apply_upserts calls : ∀ positions,
  Forall (λ c, u_shares c ≠ 0) calls →
  no_zero_position positions → no_zero_position (apply_upserts positions calls).
Proof.
  induction calls as [|c calls IH]; intros positions Hcalls Hinv; [done|].
  inversion_clear Hcalls as [|?? Hc Hcs].
  apply (IH (apply_upsert positions c)); [done|].
  by apply no_zero_apply_upsert.
Qed.

(** C3, as the code has it. From a ledger without a zero record in which key
    [k] is absent, any sequence of upserts with non-zero shares_delta whose
    deltas for [k] sum to zero leaves [k] absent, and no record of the
    resulting ledger holds zero shares. *)
Theorem upserts_net_zero_absent
    (positions : gmap string Position.t) (calls : list Upsert) (k : string) :
  no_zero_position positions →
  positions !! k = None →
  Forall (λ c, u_shares c ≠ 0) calls →
  net_delta k calls = 0 →
  apply_upserts positions calls !! k = None
  ∧ no_zero_position (apply_upserts positions calls).
Proof.
  intros Hinv Hk Hcalls Hsum.
  pose proof (no_zero_apply_upserts calls positions Hcalls Hinv) as Hinv'.
  split; [|done].
  pose proof (held_apply_upserts calls positions k) as Hheld.
  unfold held in Hheld. rewrite Hk, Hsum in Hheld. simpl in Hheld.
  destruct (apply_upserts positions calls !! k) as [p|] eqn:Hp; [|done].
  apply Hinv' in Hp. simpl in Hheld. lia.
Qed.

Lemma upserts_net_zero_absent_witness :
  apply_upserts ∅ c3_calls !! "S:m:UP" = None
  ∧ no_zero_position (apply_upserts ∅ c3_calls).
Proof.
  apply (upserts_net_zero_absent ∅ c3_calls "S:m:UP").
  - intros k p Hp. by rewrite lookup_empty in Hp.
  - reflexivity.
  - unfold c3_calls. repeat constructor; simpl; lia.
  - reflexivity.
Defined.

(** C3 as stated fails: a single upsert with shares_delta 0 on an absent key
    sums to zero and yet leaves a record, held at zero shares. *)
Lemma zero_upsert_retained :
  let calls := [ mkUpsert "t1" "S" "m" "q" "UP" 0 (1 # 2) "t9" ] in
  net_delta "S:m:UP" calls = 0
  ∧ ∃ p, apply_upserts ∅ calls !! "S:m:UP" = Some p ∧ Position.shares p = 0.
Proof.
  split; [reflexivity|]. eexists. split; reflexivity.
Qed.

(** ** Paper Trade Ledger *)


Lemma resolve_trade_unresolved trades trade_id winning_side t :
  trades !! trade_id = Some t →
  PaperTrade.resolved t = false →
  (PaperTradingTracker.resolve_trade trades trade_id winning_side).1 !! trade_id =
    Some (PaperTrade.mk (PaperTrade.trade_id t) (PaperTrade.market_id t)
            (PaperTrade.question t) (PaperTrade.side t) (PaperTrade.amount t)
            (PaperTrade.entry_price t) (PaperTrade.entry_time t) (PaperTrade.reason t)
            (PaperTrade.volume t) (PaperTrade.market_end_date t) true (Some winning_side)
            (Some (payout_per_share (PaperTrade.side t) winning_side))
            (Some (PaperTrade.calculate_pnl t winning_side).1)).
Proof.
  intros Ht Hr. unfold PaperTradingTracker.resolve_trade. rewrite Ht, Hr.
  cbn. by rewrite lookup_insert_eq.
Qed.



(** C7. [resolve_trade] leaves the ledger as it is, with a warning, when the
    id is unknown, and leaves it as it is when the trade is already resolved;
    so a second call for the same id changes nothing, whatever outcome it
    names. *)
Theorem resolve_trade_idempotent
    (trades : gmap string PaperTrade.t) (trade_id winning_side winning_side' : string) :
  (trades !! trade_id = None →
   PaperTradingTracker.resolve_trade trades trade_id winning_side =
     (trades, [Log WARNING (TradeNotFound trade_id)]))
  ∧ (∀ t, trades !! trade_id = Some t → PaperTrade.resolved t = true →
     PaperTradingTracker.resolve_trade trades trade_id winning_side =
       (trades, [Log DEBUG (TradeAlreadyResolved trade_id)]))
  ∧ (PaperTradingTracker.resolve_trade
       (PaperTradingTracker.resolve_trade trades trade_id winning_side).1
       trade_id winning_side').1
     = (PaperTradingTracker.resolve_trade trades trade_id winning_side).1.
Proof.
  assert (Hnone : trades !! trade_id = None →
    PaperTradingTracker.resolve_trade trades trade_id winning_side =
      (trades, [Log WARNING (TradeNotFound trade_id)])).
  { intros Hn. unfold PaperTradingTracker.resolve_trade. by rewrite Hn. }
  assert (Hres : ∀ w trs t, trs !! trade_id = Some t → PaperTrade.resolved t = true →
    PaperTradingTracker.resolve_trade trs trade_id w =
      (trs, [Log DEBUG (TradeAlreadyResolved trade_id)])).
  { intros w trs t Ht Hr. unfold PaperTradingTracker.resolve_trade. by rewrite Ht, Hr. }
  split_and!; [done | by apply Hres |].
  destruct (trades !! trade_id) as [t|] eqn:Ht.
  - destruct (PaperTrade.resolved t) eqn:Hr.
    + rewrite (Hres winning_side trades t) by done. cbn [fst].
      by rewrite (Hres winning_side' trades t).
    + pose proof (resolve_trade_unresolved trades trade_id winning_side t Ht Hr) as Hl.
      by erewrite (Hres winning_side' _ _ Hl).
  - rewrite Hnone by done. cbn [fst].
    unfold PaperTradingTracker.resolve_trade. by rewrite Ht.
Qed.

Lemma resolve_trade_idempotent_witness :
  let trades : gmap string PaperTrade.t := {[ "m:YES:t0" := c6_trade ]} in
  let once := (PaperTradingTracker.resolve_trade trades "m:YES:t0" "YES").1 in
  (PaperTradingTracker.resolve_trade once "m:YES:t0" "YES").1 = once
  ∧ PaperTradingTracker.resolve_trade trades "unknown" "YES" =
      (trades, [Log WARNING (TradeNotFound "unknown")]).
Proof.
  intros trades once. split.
  - apply (resolve_trade_idempotent trades "m:YES:t0" "YES" "YES").
  - apply (resolve_trade_idempotent trades "unknown" "YES" "YES"). reflexivity.
Defined.

(** *** Statistics *)

Section stats.
Import PaperTradingTracker.
Implicit Types (trades : gmap string PaperTrade.t) (l : list PaperTrade.t).

Lemma py_div_nonzero (a b : Q) : ¬ (b == 0)%Q → py_div a b = Some (a / b)%Q.
Proof.
  intros Hb. unfold py_div. destruct (Qeq_bool b 0) eqn:E; [|done].
  by apply Qeq_bool_eq in E.
Qed.

Lemma py_gt_nonzero (a : Q) : py_gt a 0 = true → ¬ (a == 0)%Q.
Proof.
  unfold py_gt. intros Hgt Ha. apply negb_true_iff in Hgt.
  assert (Qle_bool a 0 = true) as Hle; [|congruence].
  apply Qle_bool_iff. rewrite Ha. apply Qle_refl.
Qed.

Lemma py_gt_zero (a : Q) : (a == 0)%Q → py_gt a 0 = false.
Proof.
  intros Ha. destruct (py_gt a 0) eqn:E; [|done]. by apply py_gt_nonzero in E.
Qed.

Lemma py_len_nonzero {A} (x : A) (xs : list A) : ¬ (inject_Z (py_len (x :: xs)) == 0)%Q.
Proof.
  unfold py_len, Qeq. simpl. lia.
Qed.

(** A sum over all records is the sum over the resolved ones plus the sum
    over the pending ones. *)
Lemma py_sum_split (f : PaperTrade.t → Q) l :
  (py_sum (f <$> l) ==
   py_sum (f <$> filter (λ t, PaperTrade.resolved t = true) l)
   + py_sum (f <$> filter (λ t, PaperTrade.resolved t = false) l))%Q.
Proof.
  induction l as [|t l IH]; [done|].
  rewrite !filter_cons. destruct (PaperTrade.resolved t) eqn:Hr.
  - rewrite decide_True, decide_False by done.
    rewrite !fmap_cons. cbn [py_sum foldr]. fold (py_sum (f <$> l)).
    rewrite IH. unfold py_sum. ring.
  - rewrite decide_False, decide_True by done.
    rewrite !fmap_cons. cbn [py_sum foldr]. fold (py_sum (f <$> l)).
    rewrite IH. unfold py_sum. ring.
Qed.

(** Wins, losses and the records whose profit_loss is [None] or zero split
    any list of records. *)
Lemma win_loss_count l :
  (length (filter (λ t, is_win t = true) l)
   + length (filter (λ t, is_loss t = true) l)
   + length (filter (λ t, truthy (PaperTrade.profit_loss t) = false) l)
   = length l)%nat.
Proof.
  induction l as [|t l IH]; [done|].
  rewrite !filter_cons.
  assert (is_win t = truthy (PaperTrade.profit_loss t)
                     && negb (Qle_bool (default 0%Q (PaperTrade.profit_loss t)) 0)) as ->
    by done.
  assert (is_loss t = truthy (PaperTrade.profit_loss t)
                      && Qle_bool (default 0%Q (PaperTrade.profit_loss t)) 0) as ->
    by done.
  destruct (truthy (PaperTrade.profit_loss t)),
    (Qle_bool (default 0%Q (PaperTrade.profit_loss t)) 0);
    repeat case_decide; simpl in *; try done; lia.
Qed.

Lemma get_stats_total trades :
  ∃ win_rate roi,
    get_stats trades =
      Some (mkStats (py_len (values trades)) (py_len (resolved_list trades))
              (py_len (get_pending_trades trades)) (py_len (winning_list trades))
              (py_len (losing_list trades)) win_rate
              (py_sum ((λ t, default 0%Q (PaperTrade.profit_loss t)) <$>
                       filter (λ t, truthy (PaperTrade.profit_loss t) = true)
                         (resolved_list trades)))
              (py_sum (invested <$> values trades)) roi)
    ∧ (resolved_list trades = [] → win_rate = 0%Q)
    ∧ (py_gt (py_sum (invested <$> values trades)) 0 = false → roi = 0%Q)
    ∧ (resolved_list trades = [] → (roi == 0)%Q).
Proof.
  unfold get_stats.
  set (ti := py_sum (invested <$> values trades)).
  set (tp := py_sum _).
  destruct (py_gt ti 0) eqn:Hgt.
  - rewrite (py_div_nonzero tp ti) by by apply py_gt_nonzero.
    destruct (resolved_list trades) as [|r rs] eqn:Hres.
    + eexists _, _. split; [reflexivity|]. split_and!; done.
    + rewrite py_div_nonzero by apply py_len_nonzero.
      eexists _, _. split; [reflexivity|]. split_and!; done.
  - destruct (resolved_list trades) as [|r rs] eqn:Hres.
    + eexists _, _. split; [reflexivity|]. split_and!; done.
    + rewrite py_div_nonzero by apply py_len_nonzero.
      eexists _, _. split; [reflexivity|]. split_and!; done.
Qed.
Lemma py_sum_Permutation (l1 l2 : list Q) : l1 ≡ₚ l2 → (py_sum l1 == py_sum l2)%Q.
Proof.
  induction 1 as [|x l1 l2 _ IH|x y l|l1 l2 l3 _ IH1 _ IH2]; cbn [py_sum foldr].
  - reflexivity.
  - fold (py_sum l1) (py_sum l2). by rewrite IH.
  - ring.
  - by rewrite IH1.
Qed.

(** Replacing a record by one with the same price and amount keeps the sum
    invested. *)
Lemma invested_insert trades trade_id t t' :
  trades !! trade_id = Some t →
  invested t' = invested t →
  (py_sum (invested <$> values (<[trade_id := t']> trades)) ==
   py_sum (invested <$> values trades))%Q.
Proof.
  intros Ht Hinv. unfold values.
  rewrite <- (insert_delete_eq trades).
  rewrite (py_sum_Permutation _ (invested <$> ((trade_id, t') :: map_to_list (delete trade_id trades)).*2)).
  - rewrite (py_sum_Permutation (invested <$> (map_to_list trades).*2)
               (invested <$> ((trade_id, t) :: map_to_list (delete trade_id trades)).*2)).
    + rewrite !fmap_cons. cbn [snd py_sum foldr]. by rewrite Hinv.
    + by rewrite map_to_list_delete.
  - rewrite map_to_list_insert; [done|]. apply lookup_delete_eq.
Qed.

(** Resolving a trade leaves total_invested as it was. *)
Lemma resolve_trade_invested trades trade_id winning_side :
  (py_sum (invested <$> values (resolve_trade trades trade_id winning_side).1) ==
   py_sum (invested <$> values trades))%Q.
Proof.
  unfold resolve_trade. destruct (trades !! trade_id) as [t|] eqn:Ht; [|reflexivity].
  destruct (PaperTrade.resolved t); [reflexivity|]. cbn [fst PaperTrade.calculate_pnl].
  by apply (invested_insert _ _ t).
Qed.
End stats.

Lemma py_len_zero {A} (l : list A) : py_len l = 0 → l = [].
Proof. unfold py_len. destruct l; [done|]. simpl. lia. Qed.

(** C9. [get_stats] always returns (no division error); its total_invested
    is the sum of entry_price * amount over all records, resolved and pending
    alike, so that resolving a trade does not change it; win_rate is 0 when
    no trade is resolved and roi is 0 when total_invested is zero; with no
    resolved trade and some pending ones both are 0. *)
Theorem get_stats_total_invested (trades : gmap string PaperTrade.t) :
  ∃ s,
    PaperTradingTracker.get_stats trades = Some s
    ∧ PaperTradingTracker.total_invested s =
        py_sum ((λ t, (PaperTrade.entry_price t * inject_Z (PaperTrade.amount t))%Q)
                <$> PaperTradingTracker.values trades)
    ∧ (PaperTradingTracker.total_invested s ==
         py_sum (PaperTradingTracker.invested <$> PaperTradingTracker.resolved_list trades)
         + py_sum (PaperTradingTracker.invested <$> PaperTradingTracker.get_pending_trades trades))%Q
    ∧ (PaperTradingTracker.resolved_trades s = 0 → PaperTradingTracker.win_rate s = 0%Q)
    ∧ ((PaperTradingTracker.total_invested s == 0)%Q → PaperTradingTracker.roi s = 0%Q)
    ∧ (PaperTradingTracker.resolved_trades s = 0 → PaperTradingTracker.pending_trades s > 0 →
       PaperTradingTracker.win_rate s = 0%Q ∧ (PaperTradingTracker.roi s == 0)%Q)
    ∧ (∀ trade_id winning_side, ∃ s',
         PaperTradingTracker.get_stats
           (PaperTradingTracker.resolve_trade trades trade_id winning_side).1 = Some s'
         ∧ (PaperTradingTracker.total_invested s' == PaperTradingTracker.total_invested s)%Q).
Proof.
  destruct (get_stats_total trades) as (win_rate & roi & Hs & Hwin & Hroi & Hroi').
  eexists. split; [exact Hs|].
  cbn [PaperTradingTracker.total_invested PaperTradingTracker.resolved_trades
       PaperTradingTracker.pending_trades PaperTradingTracker.win_rate
       PaperTradingTracker.roi].
  split_and!.
  - done.
  - apply py_sum_split.
  - intros H0. by apply Hwin, py_len_zero.
  - intros H0. by apply Hroi, py_gt_zero.
  - intros H0 _. apply py_len_zero in H0. split; [by apply Hwin | by apply Hroi'].
  - intros trade_id winning_side.
    destruct (get_stats_total (PaperTradingTracker.resolve_trade trades trade_id winning_side).1)
      as (win_rate' & roi' & Hs' & _).
    eexists. split; [exact Hs'|]. apply resolve_trade_invested.
Qed.

Lemma get_stats_total_invested_witness :
  ∃ s,
    PaperTradingTracker.get_stats c9_trades = Some s
    ∧ (PaperTradingTracker.total_invested s == 41 # 4)%Q
    ∧ PaperTradingTracker.resolved_trades s = 0
    ∧ PaperTradingTracker.pending_trades s = 2
    ∧ PaperTradingTracker.win_rate s = 0%Q
    ∧ (PaperTradingTracker.roi s == 0)%Q.
Proof.
  destruct (get_stats_total_invested c9_trades) as (s & Hs & Hti & _ & _ & _ & Hzero & _).
  exists s.
  assert (PaperTradingTracker.resolved_trades s = 0 ∧ PaperTradingTracker.pending_trades s = 2)
    as [Hr Hp].
  { vm_compute in Hs. injection Hs as <-. split; reflexivity. }
  split; [exact Hs|]. split; [rewrite Hti; by vm_compute|].
  split; [exact Hr|]. split; [exact Hp|].
  apply Hzero; [exact Hr | rewrite Hp; lia].
Defined.

(** C10. A resolved trade whose profit_loss is exactly zero is counted
    neither as a win nor as a loss: wins, losses and the resolved trades
    whose profit_loss is [None] or zero add up to the resolved trades, and a
    winning trade entered at price 1.00 makes wins + losses strictly smaller
    than the number of resolved trades. *)
Theorem get_stats_zero_profit_uncounted :
  (∀ (trades : gmap string PaperTrade.t) (t : PaperTrade.t) (pl : Q),
     t ∈ PaperTradingTracker.resolved_list trades →
     PaperTrade.profit_loss t = Some pl → (pl == 0)%Q →
     (t ∉ PaperTradingTracker.winning_list trades)
     ∧ (t ∉ PaperTradingTracker.losing_list trades))
  ∧ (∀ (trades : gmap string PaperTrade.t) (s : PaperTradingTracker.Stats),
     PaperTradingTracker.get_stats trades = Some s →
     PaperTradingTracker.winning_trades s + PaperTradingTracker.losing_trades s
     + py_len (filter (λ t, truthy (PaperTrade.profit_loss t) = false)
                 (PaperTradingTracker.resolved_list trades))
     = PaperTradingTracker.resolved_trades s)
  ∧ (∃ (trades : gmap string PaperTrade.t) (s : PaperTradingTracker.Stats),
     trades =
       (PaperTradingTracker.resolve_trade
          {[ "m:YES:t0" :=
               PaperTrade.mk "m:YES:t0" "m" "q" "YES" 10 1 "t0" "r" 1000 "t9"
                 false None None None ]} "m:YES:t0" "YES").1
     ∧ PaperTradingTracker.get_stats trades = Some s
     ∧ PaperTradingTracker.resolved_trades s = 1
     ∧ PaperTradingTracker.winning_trades s = 0
     ∧ PaperTradingTracker.losing_trades s = 0).
Proof.
  split_and!.
  - intros trades t pl _ Hpl Hzero.
    assert (truthy (PaperTrade.profit_loss t) = false) as Hfalse.
    { rewrite Hpl. simpl. apply negb_false_iff. by apply Qeq_bool_iff. }
    unfold PaperTradingTracker.winning_list, PaperTradingTracker.losing_list.
    rewrite !list_elem_of_filter.
    unfold PaperTradingTracker.is_win, PaperTradingTracker.is_loss.
    rewrite Hfalse. simpl. split; intros [? _]; done.
  - intros trades s Hs.
    destruct (get_stats_total trades) as (win_rate & roi & Hs' & _).
    rewrite Hs' in Hs. injection Hs as <-.
    cbn [PaperTradingTracker.winning_trades PaperTradingTracker.losing_trades
         PaperTradingTracker.resolved_trades].
    unfold PaperTradingTracker.winning_list, PaperTradingTracker.losing_list, py_len.
    pose proof (win_loss_count (PaperTradingTracker.resolved_list trades)). lia.
  - eexists _, _. split; [reflexivity|]. split; [by vm_compute|]. done.
Qed.

Lemma get_stats_zero_profit_uncounted_witness :
  let t := PaperTrade.mk "m:YES:t0" "m" "q" "YES" 10 1 "t0" "r" 1000 "t9"
             true (Some "YES") (Some 1%Q) (Some (1 * inject_Z 10 - 1 * inject_Z 10)%Q) in
  let trades : gmap string PaperTrade.t := {[ "m:YES:t0" := t ]} in
  (t ∉ PaperTradingTracker.winning_list trades) ∧ (t ∉ PaperTradingTracker.losing_list trades).
Proof.
  intros t trades.
  apply (proj1 get_stats_zero_profit_uncounted trades t (1 * inject_Z 10 - 1 * inject_Z 10)%Q).
  - unfold PaperTradingTracker.resolved_list. apply list_elem_of_filter.
    split; [reflexivity|]. vm_compute. left.
  - reflexivity.
  - by vm_compute.
Defined.

(** ** BTC 15-minute orchestrator: checks and dispatch of one signal *)

Lemma signed_shares_buy (trade : Trade.t) :
  Trade.action trade = "BUY" → BTC15MinBot.signed_shares trade = Trade.amount trade.
Proof. intros H. unfold BTC15MinBot.signed_shares. by rewrite decide_True. Qed.

Lemma signed_shares_sell (trade : Trade.t) :
  Trade.action trade = "SELL" → BTC15MinBot.signed_shares trade = - Trade.amount trade.
Proof. intros H. unfold BTC15MinBot.signed_shares. rewrite H. by rewrite decide_False. Qed.

Lemma validate_sell_no_position positions sn signal :
  Trade.action (TradeSignal.trade signal) = "SELL" →
  PositionTracker.get_position positions sn (Market.id (TradeSignal.market signal))
    (Trade.side (TradeSignal.trade signal)) = None →
  BTC15MinBot.validate positions sn signal =
    (None, [Log WARNING (NoPositionToSell sn
                           (py_prefix 40 (Market.question (TradeSignal.market signal))))]).
Proof.
  intros Ha Hp. unfold BTC15MinBot.validate. rewrite Ha, Hp.
  rewrite decide_False by done. by rewrite decide_True.
Qed.

Lemma validate_sell_clamp positions sn signal existing :
  Trade.action (TradeSignal.trade signal) = "SELL" →
  PositionTracker.get_position positions sn (Market.id (TradeSignal.market signal))
    (Trade.side (TradeSignal.trade signal)) = Some existing →
  Trade.amount (TradeSignal.trade signal) > Position.shares existing →
  BTC15MinBot.validate positions sn signal =
    (Some (Trade.set_amount (Position.shares existing) (TradeSignal.trade signal)),
     [Log WARNING (SellExceedsPosition sn (Trade.amount (TradeSignal.trade signal))
                     (Position.shares existing))]).
Proof.
  intros Ha Hp Hgt. unfold BTC15MinBot.validate. rewrite Ha, Hp.
  rewrite decide_False by done. rewrite decide_True by done. by rewrite decide_True.
Qed.

Lemma track_position_tracker clock st sn trade market before after :
  BTC15MinBot.position_tracker (BTC15MinBot.track_position clock st sn trade market before after) =
    (PositionTracker.add_position (BTC15MinBot.position_tracker st)
       (clock (BTC15MinBot.tick st)) sn (Trade.market_id trade) (Trade.question trade)
       (Trade.side trade) (BTC15MinBot.signed_shares trade) (Trade.price trade)
       (Market.end_date market)).1.
Proof.
  unfold BTC15MinBot.track_position. by destruct (PositionTracker.add_position _ _ _ _ _ _ _ _ _).
Qed.

Lemma track_position_executions clock st sn trade market before after :
  BTC15MinBot.executions (BTC15MinBot.track_position clock st sn trade market before after) =
    BTC15MinBot.executions st ++ [trade].
Proof.
  unfold BTC15MinBot.track_position. by destruct (PositionTracker.add_position _ _ _ _ _ _ _ _ _).
Qed.

Lemma track_position_calls clock st sn trade market before after :
  BTC15MinBot.calls (BTC15MinBot.track_position clock st sn trade market before after) =
    BTC15MinBot.calls st.
Proof.
  unfold BTC15MinBot.track_position. by destruct (PositionTracker.add_position _ _ _ _ _ _ _ _ _).
Qed.

(** A dry run, or a submission that succeeds, reaches [add_position]. *)
Lemma dispatch_executed dry_run clock execute_trade st sn trade market :
  dry_run = true ∨ execute_trade trade = true →
  ∃ before after,
    BTC15MinBot.dispatch dry_run clock execute_trade st sn trade market =
      (BTC15MinBot.track_position clock st sn trade market before after, 1).
Proof.
  intros Hexec. unfold BTC15MinBot.dispatch. destruct dry_run; [by eexists _, _|].
  destruct Hexec as [|Hexec]; [done|]. rewrite Hexec. by eexists _, _.
Qed.

(** A submission that fails changes nothing. *)
Lemma dispatch_failed clock execute_trade st sn trade market :
  execute_trade trade = false →
  BTC15MinBot.dispatch false clock execute_trade st sn trade market = (st, 0).
Proof. intros H. unfold BTC15MinBot.dispatch. by rewrite H. Qed.

(** C5, as the code has it.  For a SELL signal that carries the market of
    its trade: when the strategy holds no position the signal is skipped with
    a warning and changes no ledger; when its amount exceeds the shares held
    it is executed with its amount set to the shares held, which closes the
    position: its record is removed. *)
Theorem sell_checked_against_position
    (dry_run : bool) (clock : nat → string) (execute_trade : Trade.t → bool)
    (sn : string) (st : BTC15MinBot.state) (signal : TradeSignal.t) :
  Trade.action (TradeSignal.trade signal) = "SELL" →
  Trade.market_id (TradeSignal.trade signal) = Market.id (TradeSignal.market signal) →
  let trade := TradeSignal.trade signal in
  let held := PositionTracker.get_position (BTC15MinBot.position_tracker st) sn
                (Trade.market_id trade) (Trade.side trade) in
  let result := BTC15MinBot.process_signal dry_run clock execute_trade sn st signal in
  (held = None →
   result =
     (BTC15MinBot.mkState (BTC15MinBot.position_tracker st) (BTC15MinBot.tick st)
        (BTC15MinBot.log st ++
         [Log WARNING (NoPositionToSell sn
                         (py_prefix 40 (Market.question (TradeSignal.market signal))))])
        (BTC15MinBot.calls st) (BTC15MinBot.executions st), 0))
  ∧ (∀ existing, held = Some existing →
     Trade.amount trade > Position.shares existing →
     let clamped := Trade.set_amount (Position.shares existing) trade in
     (dry_run = true ∨ execute_trade clamped = true) →
     result.2 = 1
     ∧ BTC15MinBot.executions result.1 = BTC15MinBot.executions st ++ [clamped]
     ∧ Trade.amount clamped = Position.shares existing
     ∧ PositionTracker.get_position (BTC15MinBot.position_tracker result.1) sn
         (Trade.market_id trade) (Trade.side trade) = None
     ∧ (∀ k, k ≠ PositionTracker.position_key sn (Trade.market_id trade) (Trade.side trade) →
        BTC15MinBot.position_tracker result.1 !! k = BTC15MinBot.position_tracker st !! k)).
Proof.
  intros Ha Hm trade held result. split.
  - intros Hnone. subst result held trade. unfold BTC15MinBot.process_signal.
    rewrite Hm in Hnone. by rewrite validate_sell_no_position.
  - intros existing Hsome Hgt clamped Hexec. subst result held trade.
    unfold BTC15MinBot.process_signal.
    rewrite Hm in Hsome. rewrite (validate_sell_clamp _ _ _ existing) by done.
    fold clamped.
    edestruct (dispatch_executed dry_run clock execute_trade) as (before & after & ->);
      [exact Hexec|].
    cbn [fst snd]. rewrite track_position_tracker, track_position_executions.
    cbn [BTC15MinBot.position_tracker BTC15MinBot.tick BTC15MinBot.executions].
    assert (Hadd : ∀ now q pd mct,
      (PositionTracker.add_position (BTC15MinBot.position_tracker st) now sn
         (Trade.market_id clamped) q (Trade.side clamped)
         (BTC15MinBot.signed_shares clamped) pd mct).1
      = delete (PositionTracker.position_key sn (Trade.market_id (TradeSignal.trade signal))
                  (Trade.side (TradeSignal.trade signal)))
          (BTC15MinBot.position_tracker st)).
    { intros now q pd mct.
      unfold PositionTracker.add_position, PositionTracker.get_position in *.
      cbn [clamped Trade.set_amount Trade.market_id Trade.side].
      rewrite Hm, Hsome.
      rewrite signed_shares_sell by done.
      cbn [clamped Trade.set_amount Trade.amount].
      by rewrite decide_True by lia. }
    rewrite Hadd. unfold PositionTracker.get_position.
    rewrite lookup_delete_eq. split_and!; try done.
    intros k Hk. by rewrite lookup_delete_ne.
Qed.

Lemma sell_checked_against_position_witness :
  let st := BTC15MinBot.init {[ "S:m:YES" := c5_position ]} in
  let result := BTC15MinBot.process_signal true (λ _, "t1") (λ _, true) "S" st c5_signal in
  result.2 = 1
  ∧ BTC15MinBot.executions result.1 = [Trade.mk "m" "q" "YES" 10 (3 # 5) "r" "SELL"]
  ∧ PositionTracker.get_position (BTC15MinBot.position_tracker result.1) "S" "m" "YES" = None.
Proof.
  intros st result.
  destruct (sell_checked_against_position true (λ _, "t1") (λ _, true) "S" st c5_signal
              eq_refl eq_refl) as [_ Hclamp].
  destruct (Hclamp c5_position eq_refl) as (H1 & H2 & _ & H4 & _).
  - simpl. lia.
  - by left.
  - split; [exact H1|]. split; [exact H2 | exact H4].
Defined.

(** C5 as stated fails for a signal whose trade names another market than
    the one it is bundled with.  The position held in the bundled market
    passes the check of lines 168-176, and the sale is booked on the market
    of the trade, where nothing is held: the signal is executed and a
    position of -10 shares appears. *)
Lemma sell_without_position_executed :
  let st := BTC15MinBot.init {[ "S:m:YES" := c5_position ]} in
  let result :=
    BTC15MinBot.process_signal true (λ _, "t1") (λ _, true) "S" st c5_stray_signal in
  PositionTracker.get_position (BTC15MinBot.position_tracker st) "S" "n" "YES" = None
  ∧ result.2 = 1
  ∧ Position.shares <$>
      PositionTracker.get_position (BTC15MinBot.position_tracker result.1) "S" "n" "YES"
    = Some (-10)
  ∧ PositionTracker.get_position (BTC15MinBot.position_tracker result.1) "S" "m" "YES"
    = Some c5_position.
Proof. split_and!; reflexivity. Qed.

(** ** Dispatch and the two ledgers *)

Lemma btc_dispatch_executed dry_run clock execute_trade sn trade market L :
  dry_run = true ∨ execute_trade trade = true →
  btc_dispatch dry_run clock execute_trade sn trade market L =
    mkLedgers
      (PositionTracker.add_position (position_ledger L) (clock 0%nat) sn
         (Trade.market_id trade) (Trade.question trade) (Trade.side trade)
         (BTC15MinBot.signed_shares trade) (Trade.price trade) (Market.end_date market)).1
      (paper_ledger L).
Proof.
  intros Hexec. unfold btc_dispatch.
  edestruct (dispatch_executed dry_run clock execute_trade) as (before & after & ->);
    [exact Hexec|].
  cbn [fst]. by rewrite track_position_tracker.
Qed.

(** C1, as the code has it. Each orchestrator holds one ledger.  The BTC
    15-minute orchestrator, in dry-run mode and in live mode after a
    successful submission, applies the trade to the Position Ledger (a BUY with
    shares_delta = amount, a SELL with shares_delta = -amount) and records
    nothing in the Paper Trade Ledger; after a failed submission no ledger
    changes.  The generic orchestrator, in dry-run mode, records the trade in
    the Paper Trade Ledger and updates no Position Ledger; in live mode it
    changes no ledger. *)
Theorem dispatch_updates_own_ledger
    (clock : nat → string) (execute_trade : Trade.t → bool) (sn : string)
    (signal : TradeSignal.t) (L : Ledgers) :
  let trade := TradeSignal.trade signal in
  let market := TradeSignal.market signal in
  let upsert shares_delta :=
    mkLedgers
      (PositionTracker.add_position (position_ledger L) (clock 0%nat) sn
         (Trade.market_id trade) (Trade.question trade) (Trade.side trade)
         shares_delta (Trade.price trade) (Market.end_date market)).1
      (paper_ledger L) in
  (∀ dry_run, dry_run = true ∨ execute_trade trade = true →
     (Trade.action trade = "BUY" →
      btc_dispatch dry_run clock execute_trade sn trade market L = upsert (Trade.amount trade))
     ∧ (Trade.action trade = "SELL" →
        btc_dispatch dry_run clock execute_trade sn trade market L = upsert (- Trade.amount trade)))
  ∧ (execute_trade trade = false →
     btc_dispatch false clock execute_trade sn trade market L = L)
  ∧ trading_bot_dispatch true clock execute_trade signal L =
      mkLedgers (position_ledger L)
        (PaperTradingTracker.add_trade (paper_ledger L) (clock 0%nat) (clock 1%nat) trade
           (Market.end_date market) (Market.volume market)).1.2
  ∧ trading_bot_dispatch false clock execute_trade signal L = L.
Proof.
  intros trade market upsert. split_and!.
  - intros dry_run Hexec. rewrite btc_dispatch_executed by done. subst upsert. cbn beta.
    split; intros Ha; [by rewrite signed_shares_buy | by rewrite signed_shares_sell].
  - intros Hfail. unfold btc_dispatch. rewrite dispatch_failed by done.
    by destruct L.
  - unfold trading_bot_dispatch, TradingBot.process_signal, TradingBot.init.
    cbn [TradingBot.executed_trades TradingBot.paper_trader TradingBot.tick].
    rewrite decide_False by set_solver. done.
  - unfold trading_bot_dispatch, TradingBot.process_signal, TradingBot.init.
    cbn [TradingBot.executed_trades TradingBot.paper_trader TradingBot.tick].
    rewrite decide_False by set_solver.
    destruct L. by destruct (execute_trade _).
Qed.

Lemma dispatch_updates_own_ledger_witness :
  btc_dispatch true (λ _, "t1") (λ _, true) "S" (TradeSignal.trade c1_signal)
    (TradeSignal.market c1_signal) (mkLedgers ∅ ∅) =
  mkLedgers
    (PositionTracker.add_position ∅ "t1" "S" "m" "q" "YES" 10 (3 # 5) "t9").1 ∅.
Proof.
  destruct (dispatch_updates_own_ledger (λ _, "t1") (λ _, true) "S" c1_signal (mkLedgers ∅ ∅))
    as (Hbtc & _).
  destruct (Hbtc true (or_introl eq_refl)) as [Hbuy _].
  exact (Hbuy eq_refl).
Defined.

(** C1 as stated fails: in dry-run mode the BTC 15-minute orchestrator
    opens the position and records no paper trade, and the generic
    orchestrator records the paper trade and opens no position. *)
Lemma dry_run_updates_one_ledger :
  let L := mkLedgers ∅ ∅ in
  let L1 := btc_dispatch true (λ _, "t1") (λ _, true) "S" (TradeSignal.trade c1_signal)
              (TradeSignal.market c1_signal) L in
  let L2 := trading_bot_dispatch true (λ _, "t1") (λ _, true) c1_signal L in
  (is_Some (position_ledger L1 !! "S:m:YES") ∧ paper_ledger L1 = ∅)
  ∧ (is_Some (paper_ledger L2 !! "m:YES:t1") ∧ position_ledger L2 = ∅).
Proof.
  split; (split; [by eexists | reflexivity]).
Qed.

(** ** Invariants of the generic orchestrator

    A property of the state that no log line and no call of [analyze] affects,
    and that the processing of one signal keeps, holds throughout a run:
    after every signal, after a cycle that returns and after a cycle that
    raises. *)

Section trading_bot_invariant.
Import TradingBot.
Context (dry_run : bool) (clock : nat → string) (P : state → Prop).
Hypothesis P_log : ∀ st lg cs,
  P st → P (mkState (executed_trades st) (paper_trader st) (tick st) lg cs (executions st)).
Hypothesis P_signal : ∀ execute_trade st signal,
  P st → P (process_signal dry_run clock execute_trade st signal).1.

Lemma process_signals_invariant execute_trade all_signals : ∀ st n,
  P st → P (process_signals dry_run clock execute_trade st n all_signals).1.
Proof.
  induction all_signals as [|[trade_object signal|trade] all_signals IH]; intros st n HP;
    cbn [process_signals]; [done| |done].
  pose proof (P_signal execute_trade st signal HP) as HP'.
  destruct (process_signal dry_run clock execute_trade st signal) as [st' m].
  by apply IH.
Qed.

Lemma run_once_invariant execute_trade st markets strategies :
  P st → P (run_once dry_run clock execute_trade st markets strategies).1.
Proof.
  intros HP. unfold run_once. destruct markets as [|m ms]; [by apply P_log|].
  destruct (foldl _ _ strategies) as [[all_signals lg] cs].
  match goal with
  | |- context [process_signals _ _ _ ?s 0 all_signals] =>
      pose proof (process_signals_invariant execute_trade all_signals s 0
                    (P_log st _ _ HP)) as Hs;
      destruct (process_signals dry_run clock execute_trade s 0 all_signals) as [st2 [e|n]]
  end; [done|].
  by apply P_log.
Qed.

Lemma run_cycle_invariant st c : P st → P (run_cycle dry_run clock st c).1.
Proof.
  intros HP. unfold run_cycle.
  pose proof (run_once_invariant (env_execute_trade c) st (env_markets c)
                (env_strategies c) HP) as Hs.
  destruct (run_once _ _ _ _ _ _) as [st' [e|n]]; [|done]. by apply P_log.
Qed.

Lemma run_invariant cycles : ∀ st, P st → P (run dry_run clock st cycles).
Proof.
  induction cycles as [|c cycles IH]; intros st HP; [done|].
  unfold run. cbn [foldl]. apply IH. by apply run_cycle_invariant.
Qed.
End trading_bot_invariant.

(** ** Duplicate suppression in the generic orchestrator *)

Section dedup.
Import TradingBot.

Lemma dedup_inv_same st st' :
  executions st' = executions st → executed_trades st' = executed_trades st →
  dedup_inv st → dedup_inv st'.
Proof. unfold dedup_inv. by intros -> ->. Qed.

Lemma dedup_inv_execute st st' trade :
  trade_key trade ∉ executed_trades st →
  executions st' = executions st ++ [trade] →
  executed_trades st' = {[trade_key trade]} ∪ executed_trades st →
  dedup_inv st → dedup_inv st'.
Proof.
  intros Hnew He Hk [Hnd Hin]. unfold dedup_inv. rewrite He, Hk. split.
  - rewrite fmap_app. apply NoDup_app. split_and!; [done | | apply NoDup_singleton].
    intros k Hk1 Hk2. apply list_elem_of_singleton in Hk2 as ->.
    apply list_elem_of_fmap in Hk1 as (t & Ht & Hel).
    apply Hnew. rewrite Ht. by apply Hin.
  - intros t Ht. apply elem_of_app in Ht as [Ht|Ht].
    + apply elem_of_union_r. by apply Hin.
    + apply list_elem_of_singleton in Ht as ->. apply elem_of_union_l. set_solver.
Qed.

Lemma process_signal_duplicate dry_run clock execute_trade st signal :
  trade_key (TradeSignal.trade signal) ∈ executed_trades st →
  process_signal dry_run clock execute_trade st signal =
    (mkState (executed_trades st) (paper_trader st) (tick st)
       (log st ++ [Log DEBUG (SkippingDuplicate (trade_key (TradeSignal.trade signal)))])
       (calls st) (executions st), 0).
Proof. intros Hin. unfold process_signal. by rewrite decide_True. Qed.

Lemma process_signal_inv dry_run clock execute_trade st signal :
  dedup_inv st → dedup_inv (process_signal dry_run clock execute_trade st signal).1.
Proof.
  intros Hinv. unfold process_signal.
  case_decide as Hdup; [by eapply dedup_inv_same|].
  destruct dry_run.
  - destruct (paper_trader st) as [trades|]; by eapply dedup_inv_execute.
  - destruct (execute_trade _); [by eapply dedup_inv_execute | by eapply dedup_inv_same].
Qed.

Lemma run_inv dry_run clock cycles : ∀ st,
  dedup_inv st → dedup_inv (run dry_run clock st cycles).
Proof.
  apply run_invariant.
  - intros st lg cs. by apply dedup_inv_same.
  - intros execute_trade st signal. apply process_signal_inv.
Qed.

Lemma init_inv dry_run trades : dedup_inv (init dry_run trades).
Proof. split; [apply NoDup_nil_2 | intros t Ht; by apply elem_of_nil in Ht]. Qed.

(** Among elements with pairwise distinct keys, at most one has key [k]. *)
Lemma at_most_one_with_key {A} (f : A → string) (P : A → Prop) `{∀ x, Decision (P x)}
    (k : string) (l : list A) :
  (∀ x, P x → f x = k) → NoDup (f <$> l) → (length (filter P l) ≤ 1)%nat.
Proof.
  intros HP. induction l as [|x l IH]; intros Hnd; [simpl; lia|].
  rewrite fmap_cons in Hnd. apply NoDup_cons in Hnd as [Hx Hnd].
  rewrite filter_cons. case_decide as HPx; [|by apply IH].
  assert (filter P l = []) as ->; [|simpl; lia].
  destruct (filter P l) as [|y ys] eqn:Hf; [done|]. exfalso.
  assert (y ∈ filter P l) as Hy by (rewrite Hf; left).
  apply list_elem_of_filter in Hy as [HPy Hy].
  apply Hx. apply list_elem_of_fmap. exists y. split; [|done].
  by rewrite (HP x), (HP y).
Qed.
End dedup.

(** C4, as the code has it. In a run of the generic orchestrator from
    process start, over any number of cycles, at most one of the trades with
    a given (market_id, side, amount) is executed, and once one is executed
    every later signal with the same triple is skipped: nothing but a debug
    line is added to the state. *)
Theorem identical_intents_executed_once
    (dry_run : bool) (clock : nat → string) (trades0 : gmap string PaperTrade.t)
    (cycles : list TradingBot.cycle_env) :
  let st := TradingBot.run dry_run clock (TradingBot.init dry_run trades0) cycles in
  (∀ market_id side amount,
     (length (filter (λ t, Trade.market_id t = market_id ∧ Trade.side t = side
                           ∧ Trade.amount t = amount)
                (TradingBot.executions st)) ≤ 1)%nat)
  ∧ (∀ execute_trade signal t,
       t ∈ TradingBot.executions st →
       Trade.market_id (TradeSignal.trade signal) = Trade.market_id t →
       Trade.side (TradeSignal.trade signal) = Trade.side t →
       Trade.amount (TradeSignal.trade signal) = Trade.amount t →
       TradingBot.process_signal dry_run clock execute_trade st signal =
         (TradingBot.mkState (TradingBot.executed_trades st) (TradingBot.paper_trader st)
            (TradingBot.tick st)
            (TradingBot.log st ++
             [Log DEBUG (SkippingDuplicate (TradingBot.trade_key (TradeSignal.trade signal)))])
            (TradingBot.calls st) (TradingBot.executions st), 0)).
Proof.
  intros st.
  destruct (run_inv dry_run clock cycles _ (init_inv dry_run trades0)) as [Hnd Hin].
  fold st in Hnd, Hin. split.
  - intros market_id side amount.
    apply (at_most_one_with_key TradingBot.trade_key _
             (market_id +:+ ":" +:+ side +:+ ":" +:+ pretty amount)); [|done].
    intros t (<- & <- & <-). done.
  - intros execute_trade signal t Ht Hm Hs Ha.
    apply process_signal_duplicate.
    assert (TradingBot.trade_key (TradeSignal.trade signal) = TradingBot.trade_key t) as ->.
    { unfold TradingBot.trade_key. by rewrite Hm, Hs, Ha. }
    by apply Hin.
Qed.

Lemma identical_intents_executed_once_witness :
  let st := TradingBot.run true (λ _, "t1") (TradingBot.init true ∅) [c4_cycle; c4_cycle] in
  TradingBot.executions st = [TradeSignal.trade c1_signal]
  ∧ (length (filter (λ t, Trade.market_id t = "m" ∧ Trade.side t = "YES"
                          ∧ Trade.amount t = 10%Z)
               (TradingBot.executions st)) ≤ 1)%nat.
Proof.
  intros st. split; [reflexivity|].
  apply (identical_intents_executed_once true (λ _, "t1") ∅ [c4_cycle; c4_cycle]).
Defined.

(** C4 as stated fails for the BTC 15-minute orchestrator, which keeps no
    set of executed trades: two strategies that signal the same
    (market_id, side, amount) in one cycle are both executed, and each opens
    a position. *)
Lemma btc_identical_intents_both_executed :
  let result :=
    BTC15MinBot.run_once true (λ _, "t1") (λ _, true) (BTC15MinBot.init ∅)
      [TradeSignal.market c1_signal] [c4_strategy "S1"; c4_strategy "S2"] in
  result.2 = 2
  ∧ BTC15MinBot.executions result.1 = [TradeSignal.trade c1_signal; TradeSignal.trade c1_signal]
  ∧ is_Some (BTC15MinBot.position_tracker result.1 !! "S1:m:YES")
  ∧ is_Some (BTC15MinBot.position_tracker result.1 !! "S2:m:YES").
Proof.
  split_and!; [reflexivity | reflexivity | by eexists | by eexists].
Qed.

(** ** Strategy isolation *)

Lemma get_strategy_positions_spec (positions : gmap string Position.t) (name : string) p :
  p ∈ PositionTracker.get_strategy_positions positions name ↔
  Position.strategy_name p = name ∧ ∃ k, positions !! k = Some p.
Proof.
  unfold PositionTracker.get_strategy_positions, PositionTracker.values.
  rewrite list_elem_of_filter, list_elem_of_fmap. split.
  - intros [Hn ([k p'] & -> & Hkp)]. split; [done|].
    exists k. by apply elem_of_map_to_list in Hkp.
  - intros [Hn [k Hk]]. split; [done|]. exists (k, p). split; [done|].
    by apply elem_of_map_to_list.
Qed.

Section btc_isolation.
Import BTC15MinBot.
Context (dry_run : bool) (clock : nat → string) (execute_trade : Trade.t → bool).

Lemma btc_process_signal_calls sn st signal :
  calls (process_signal dry_run clock execute_trade sn st signal).1 = calls st.
Proof.
  unfold process_signal. destruct (validate _ _ _) as [[trade|] lg]; [|done].
  unfold dispatch. destruct dry_run; cbn [fst]; [by rewrite track_position_calls|].
  destruct (execute_trade trade); cbn [fst]; [by rewrite track_position_calls | done].
Qed.

Lemma btc_process_signals_cons sn st amounts n trade_object signal signals :
  process_signals dry_run clock execute_trade sn st amounts n
    (Signal trade_object signal :: signals) =
  let signal' := current amounts trade_object signal in
  let step := process_signal dry_run clock execute_trade sn st signal' in
  process_signals dry_run clock execute_trade sn step.1
    (<[trade_object := amount_after (position_tracker st) sn signal']> amounts)
    (n + step.2) signals.
Proof. cbn [process_signals]. by destruct (process_signal _ _ _ _ _ _). Qed.

Lemma btc_process_signals_calls sn signals : ∀ st amounts n,
  calls (process_signals dry_run clock execute_trade sn st amounts n signals).1.1 = calls st.
Proof.
  induction signals as [|[trade_object signal|trade] signals IH]; intros st amounts n;
    [done| |done].
  rewrite btc_process_signals_cons. cbn zeta. rewrite IH. apply btc_process_signal_calls.
Qed.

Lemma run_strategy_disabled markets acc strategy :
  Strategy.enabled strategy = false →
  run_strategy dry_run clock execute_trade markets acc strategy = acc.
Proof. intros He. unfold run_strategy. destruct acc. by rewrite He. Qed.

Lemma run_strategy_calls markets st n strategy :
  Strategy.enabled strategy = true →
  calls (run_strategy dry_run clock execute_trade markets (st, n) strategy).1 =
    calls st ++
    [Invoke (Strategy.name strategy) markets
       (Some (PositionTracker.get_strategy_positions (position_tracker st)
                (Strategy.name strategy)))].
Proof.
  intros He. unfold run_strategy. rewrite He. cbn [negb].
  destruct (Strategy.analyze _ _ _) as [e|signals]; [done|].
  match goal with
  | |- context [process_signals _ _ _ ?sn ?s ∅ 0 signals] =>
      pose proof (btc_process_signals_calls sn signals s ∅ 0) as Hc;
      destruct (process_signals dry_run clock execute_trade sn s ∅ 0 signals)
        as [[st2 m] [e|]]
  end; exact Hc.
Qed.

Lemma run_strategy_raises markets st n strategy e :
  Strategy.enabled strategy = true →
  Strategy.analyze strategy markets
    (Some (PositionTracker.get_strategy_positions (position_tracker st)
             (Strategy.name strategy))) = Raise e →
  run_strategy dry_run clock execute_trade markets (st, n) strategy =
    (mkState (position_tracker st) (tick st)
       (log st ++ [Log INFO (RunningStrategy (Strategy.name strategy))]
               ++ [Log ERROR (StrategyFailed (Strategy.name strategy) e)])
       (calls st ++
        [Invoke (Strategy.name strategy) markets
           (Some (PositionTracker.get_strategy_positions (position_tracker st)
                    (Strategy.name strategy)))])
       (executions st), n).
Proof.
  intros He Hr. unfold run_strategy. rewrite He, Hr. cbn.
  by rewrite <- (assoc_L (++)).
Qed.

Lemma run_strategies_calls markets strategies : ∀ acc,
  ∃ new,
    calls (foldl (run_strategy dry_run clock execute_trade markets) acc strategies).1
      = calls acc.1 ++ new
    ∧ inv_strategy <$> new = enabled_names strategies
    ∧ Forall (own_positions_only markets) new.
Proof.
  induction strategies as [|s strategies IH]; intros [st n].
  - exists []. by rewrite app_nil_r.
  - cbn [foldl]. unfold enabled_names. rewrite filter_cons.
    destruct (Strategy.enabled s) eqn:He.
    + pose proof (run_strategy_calls markets st n s He) as Hc.
      destruct (IH (run_strategy dry_run clock execute_trade markets (st, n) s))
        as (new & Hnew & Hnames & Hown).
      eexists (_ :: new). rewrite Hnew, Hc, <- (assoc_L (++)).
      split; [done|]. rewrite decide_True by done. split.
      * rewrite !fmap_cons. simpl. f_equal. exact Hnames.
      * constructor; [|done]. split; [done|]. eexists. split; [done|].
        apply Forall_forall. intros p Hp. by apply get_strategy_positions_spec in Hp as [? _].
    + rewrite run_strategy_disabled by done. rewrite decide_False by done.
      apply IH.
Qed.
End btc_isolation.

Section trading_bot_isolation.
Import TradingBot.

Lemma collect_calls markets strategies : ∀ all_signals lg cs,
  (foldl (collect markets) (all_signals, lg, cs) strategies).2 =
    cs ++ ((λ s, Invoke (Strategy.name s) markets None)
           <$> filter (λ s, Strategy.enabled s = true) strategies).
Proof.
  induction strategies as [|s strategies IH]; intros all_signals lg cs.
  - by rewrite app_nil_r.
  - cbn [foldl]. rewrite filter_cons. unfold collect at 2.
    destruct (Strategy.enabled s) eqn:He; cbn [negb].
    + rewrite decide_True by done.
      destruct (Strategy.analyze s markets None); rewrite IH, fmap_cons, <- (assoc_L (++));
        done.
    + rewrite decide_False by done. apply IH.
Qed.

Lemma trading_bot_process_signals_calls dry_run clock execute_trade signals : ∀ st n,
  calls (process_signals dry_run clock execute_trade st n signals).1 = calls st.
Proof.
  induction signals as [|[trade_object signal|trade] signals IH]; intros st n; [done| |done].
  cbn [process_signals].
  assert (calls (process_signal dry_run clock execute_trade st signal).1 = calls st) as Hc.
  { unfold process_signal. case_decide; [done|].
    destruct dry_run; [by destruct (paper_trader st)|]. by destruct (execute_trade _). }
  destruct (process_signal dry_run clock execute_trade st signal) as [st' m].
  rewrite IH. exact Hc.
Qed.

Lemma trading_bot_run_once_calls dry_run clock execute_trade st m ms strategies :
  calls (run_once dry_run clock execute_trade st (m :: ms) strategies).1 =
    calls st ++ ((λ s, Invoke (Strategy.name s) (m :: ms) None)
                 <$> filter (λ s, Strategy.enabled s = true) strategies).
Proof.
  unfold run_once.
  pose proof (collect_calls (m :: ms) strategies [] [] []) as Hc.
  destruct (foldl _ _ strategies) as [[all_signals lg] cs]. cbn [snd] in Hc.
  rewrite app_nil_l in Hc. subst cs.
  match goal with
  | |- context [process_signals _ _ _ ?s 0 all_signals] =>
      pose proof (trading_bot_process_signals_calls dry_run clock execute_trade
                    all_signals s 0) as Hs;
      destruct (process_signals dry_run clock execute_trade s 0 all_signals) as [st2 [e|n]]
  end; exact Hs.
Qed.
End trading_bot_isolation.

(** C8, as the code has it. In a cycle that fetched markets, every enabled
    strategy is called exactly once, in order, with the markets of the cycle,
    whether or not an earlier strategy raised.  The BTC 15-minute
    orchestrator hands each strategy the positions of the ledger whose
    strategy_name is its own, and no other; the generic orchestrator hands
    over no position at all.  A strategy that raises is logged as failed,
    leaves the ledger and the count of executed trades as they were, and the
    loop goes on with the remaining strategies. *)
Theorem strategies_isolated
    (dry_run : bool) (clock : nat → string) (execute_trade : Trade.t → bool)
    (markets : list Market.t) (strategies : list Strategy.t) :
  markets ≠ [] →
  (∀ st, ∃ new,
     BTC15MinBot.calls
       (BTC15MinBot.run_once dry_run clock execute_trade st markets strategies).1
       = BTC15MinBot.calls st ++ new
     ∧ inv_strategy <$> new = enabled_names strategies
     ∧ Forall (own_positions_only markets) new)
  ∧ (∀ st n strategy, Strategy.enabled strategy = true →
       BTC15MinBot.calls
         (BTC15MinBot.run_strategy dry_run clock execute_trade markets (st, n) strategy).1
       = BTC15MinBot.calls st ++
         [Invoke (Strategy.name strategy) markets
            (Some (PositionTracker.get_strategy_positions (BTC15MinBot.position_tracker st)
                     (Strategy.name strategy)))])
  ∧ (∀ (positions : gmap string Position.t) name p,
       p ∈ PositionTracker.get_strategy_positions positions name ↔
       Position.strategy_name p = name ∧ ∃ k, positions !! k = Some p)
  ∧ (∀ st n strategy e rest, Strategy.enabled strategy = true →
       Strategy.analyze strategy markets
         (Some (PositionTracker.get_strategy_positions (BTC15MinBot.position_tracker st)
                  (Strategy.name strategy))) = Raise e →
       ∃ st',
         foldl (BTC15MinBot.run_strategy dry_run clock execute_trade markets) (st, n)
           (strategy :: rest)
         = foldl (BTC15MinBot.run_strategy dry_run clock execute_trade markets) (st', n) rest
         ∧ BTC15MinBot.position_tracker st' = BTC15MinBot.position_tracker st
         ∧ BTC15MinBot.executions st' = BTC15MinBot.executions st
         ∧ BTC15MinBot.log st' =
             BTC15MinBot.log st ++ [Log INFO (RunningStrategy (Strategy.name strategy))]
               ++ [Log ERROR (StrategyFailed (Strategy.name strategy) e)])
  ∧ (∀ st,
       TradingBot.calls
         (TradingBot.run_once dry_run clock execute_trade st markets strategies).1
       = TradingBot.calls st ++
         ((λ s, Invoke (Strategy.name s) markets None)
          <$> filter (λ s, Strategy.enabled s = true) strategies))
  ∧ (∀ sigs lg cs strategy e rest, Strategy.enabled strategy = true →
       Strategy.analyze strategy markets None = Raise e →
       foldl (TradingBot.collect markets) (sigs, lg, cs) (strategy :: rest)
       = foldl (TradingBot.collect markets)
           (sigs,
            (lg ++ [Log INFO (RunningStrategy (Strategy.name strategy))])
               ++ [Log ERROR (StrategyFailed (Strategy.name strategy) e)],
            cs ++ [Invoke (Strategy.name strategy) markets None]) rest).
Proof.
  intros Hm. destruct markets as [|m ms]; [done|]. split_and!.
  - intros st. unfold BTC15MinBot.run_once.
    destruct (run_strategies_calls dry_run clock execute_trade (m :: ms) strategies (st, 0))
      as (new & Hnew & Hnames & Hown).
    destruct (foldl _ _ strategies) as [st1 n]. by exists new.
  - intros st n strategy He. by apply run_strategy_calls.
  - apply get_strategy_positions_spec.
  - intros st n strategy e rest He Hr. cbn [foldl].
    rewrite (run_strategy_raises _ _ _ _ _ _ _ e) by done.
    by eexists.
  - intros st. apply trading_bot_run_once_calls.
  - intros sigs lg cs strategy e rest He Hr. cbn [foldl].
    unfold TradingBot.collect at 2. by rewrite He, Hr.
Qed.

Lemma strategies_isolated_witness :
  let markets := [TradeSignal.market c1_signal] in
  let strategies := [c8_raising; c4_strategy "S2"] in
  let result :=
    BTC15MinBot.run_once true (λ _, "t1") (λ _, true) (BTC15MinBot.init ∅) markets strategies in
  (∃ new,
     BTC15MinBot.calls result.1 = [] ++ new
     ∧ inv_strategy <$> new = ["S1"; "S2"]
     ∧ Forall (own_positions_only markets) new)
  ∧ result.2 = 1
  ∧ is_Some (BTC15MinBot.position_tracker result.1 !! "S2:m:YES").
Proof.
  intros markets strategies result. split.
  - destruct (strategies_isolated true (λ _, "t1") (λ _, true) markets strategies) as [Hcalls _].
    + discriminate.
    + exact (Hcalls (BTC15MinBot.init ∅)).
  - split; [reflexivity | by eexists].
Defined.

(** C8 as stated fails in two ways.  In a cycle that fetched no market no
    strategy is called, in either orchestrator; and the generic orchestrator,
    which holds no Position Ledger, calls a strategy with the markets alone:
    no positions are passed. *)
Lemma strategy_called_without_positions :
  let markets := [TradeSignal.market c1_signal] in
  let strategies := [c4_strategy "S1"] in
  BTC15MinBot.calls
    (BTC15MinBot.run_once true (λ _, "t1") (λ _, true) (BTC15MinBot.init ∅) [] strategies).1
  = []
  ∧ TradingBot.calls
      (TradingBot.run_once true (λ _, "t1") (λ _, true) (TradingBot.init true ∅) []
         strategies).1
    = []
  ∧ TradingBot.calls
      (TradingBot.run_once true (λ _, "t1") (λ _, true) (TradingBot.init true ∅) markets
         strategies).1
    = [Invoke "S1" markets None].
Proof. split_and!; reflexivity. Qed.

(** * Further properties of the ledgers *)

(** ** Position Ledger: keys, round trips, exposure *)

Lemma colon_free_app_inv (s1 s2 t1 t2 : string) :
  colon_free s1 = true → colon_free s2 = true →
  s1 +:+ ":" +:+ t1 = s2 +:+ ":" +:+ t2 → s1 = s2 ∧ t1 = t2.
Proof.
  revert s2. induction s1 as [|a s1 IH]; intros [|b s2] H1 H2 Heq; cbn in *.
  - by simplify_eq.
  - by simplify_eq.
  - by simplify_eq.
  - injection Heq as -> Heq.
    apply andb_true_iff in H1 as [_ H1]. apply andb_true_iff in H2 as [_ H2].
    destruct (IH s2 H1 H2 Heq) as [-> ->]. done.
Qed.

(** The key of a position determines strategy, market and side as soon
    as strategy names and market ids contain no colon. *)
Lemma position_key_injective (sn mid side sn' mid' side' : string) :
  colon_free sn = true → colon_free mid = true →
  colon_free sn' = true → colon_free mid' = true →
  PositionTracker.position_key sn mid side = PositionTracker.position_key sn' mid' side' →
  sn = sn' ∧ mid = mid' ∧ side = side'.
Proof.
  unfold PositionTracker.position_key. intros Hs Hm Hs' Hm' Heq.
  apply colon_free_app_inv in Heq as [-> Heq]; [|done..].
  apply colon_free_app_inv in Heq as [-> ->]; done.
Qed.

(** X1. With colon-free strategy names and market ids, an upsert for one
    (strategy, market, side) leaves the position of every other triple as it
    was, whatever branch it takes. *)
Theorem add_position_isolated
    (positions : gmap string Position.t) (now sn mid q side : string)
    (shares : Z) (price : Q) (mct : string) (sn' mid' side' : string) :
  colon_free sn = true → colon_free mid = true →
  colon_free sn' = true → colon_free mid' = true →
  (sn', mid', side') ≠ (sn, mid, side) →
  PositionTracker.get_position
    (PositionTracker.add_position positions now sn mid q side shares price mct).1
    sn' mid' side'
  = PositionTracker.get_position positions sn' mid' side'.
Proof.
  intros Hs Hm Hs' Hm' Hne. unfold PositionTracker.get_position.
  apply add_position_other. intros Heq. apply Hne.
  by destruct (position_key_injective sn' mid' side' sn mid side) as (-> & -> & ->).
Qed.

Lemma add_position_isolated_witness :
  PositionTracker.get_position
    (PositionTracker.add_position {[ "S:m:YES" := c5_position ]} "t1" "T" "m" "q" "YES"
       5 (1 # 2) "t9").1 "S" "m" "YES"
  = PositionTracker.get_position {[ "S:m:YES" := c5_position ]} "S" "m" "YES".
Proof.
  apply add_position_isolated; try reflexivity. discriminate.
Defined.

(** X2. Opening a position on an absent key and then applying the opposite
    shares_delta gives back the ledger exactly as it was, at any prices. *)
Theorem add_position_open_close
    (positions : gmap string Position.t) (now now' sn mid q q' side : string)
    (shares : Z) (price price' : Q) (mct mct' : string) :
  PositionTracker.get_position positions sn mid side = None →
  (PositionTracker.add_position
     (PositionTracker.add_position positions now sn mid q side shares price mct).1
     now' sn mid q' side (- shares) price' mct').1 = positions.
Proof.
  unfold PositionTracker.get_position. intros Hnone.
  unfold PositionTracker.add_position at 2. rewrite Hnone. cbn [fst].
  unfold PositionTracker.add_position. rewrite lookup_insert_eq.
  cbn [Position.shares]. rewrite decide_True by lia. cbn [fst].
  rewrite delete_insert_eq. by apply delete_id.
Qed.

Lemma add_position_open_close_witness :
  (PositionTracker.add_position
     (PositionTracker.add_position ∅ "t1" "S" "m" "q" "YES" 10 (1 # 2) "t9").1
     "t2" "S" "m" "q" "YES" (- 10) (3 # 5) "t9").1 = ∅.
Proof.
  apply (add_position_open_close ∅ "t1" "t2" "S" "m" "q" "q" "YES" 10 (1 # 2) (3 # 5) "t9" "t9").
  reflexivity.
Defined.






(** ** Paper Trade Ledger: records, counts, profit *)





Lemma filter_length_cons {A} (P : A → Prop) `{∀ x, Decision (P x)} (x : A) (l : list A) :
  length (filter P (x :: l)) = ((if decide (P x) then 1 else 0) + length (filter P l))%nat.
Proof. rewrite filter_cons. by case_decide. Qed.

Lemma resolved_pending_length (l : list PaperTrade.t) :
  (length (filter (λ t, PaperTrade.resolved t = true) l)
   + length (filter (λ t, PaperTrade.resolved t = false) l) = length l)%nat.
Proof.
  induction l as [|t l IH]; [done|].
  rewrite !filter_length_cons. cbn [length].
  destruct (PaperTrade.resolved t); repeat case_decide; try done; lia.
Qed.

(** X5. The counts of [get_stats] add up: every trade is resolved or pending,
    and a resolved trade is a win, a loss, or has a profit that is unset or
    zero. *)
Theorem get_stats_counts (trades : gmap string PaperTrade.t) :
  ∃ s,
    PaperTradingTracker.get_stats trades = Some s
    ∧ PaperTradingTracker.total_trades s = Z.of_nat (size trades)
    ∧ PaperTradingTracker.total_trades s =
        PaperTradingTracker.resolved_trades s + PaperTradingTracker.pending_trades s
    ∧ PaperTradingTracker.winning_trades s + PaperTradingTracker.losing_trades s
        ≤ PaperTradingTracker.resolved_trades s
    ∧ 0 ≤ PaperTradingTracker.winning_trades s
    ∧ 0 ≤ PaperTradingTracker.losing_trades s.
Proof.
  destruct (get_stats_total trades) as (win_rate & roi & Hs & _).
  eexists. split; [exact Hs|].
  cbn [PaperTradingTracker.total_trades PaperTradingTracker.resolved_trades
       PaperTradingTracker.pending_trades PaperTradingTracker.winning_trades
       PaperTradingTracker.losing_trades].
  unfold py_len, PaperTradingTracker.resolved_list, PaperTradingTracker.get_pending_trades.
  pose proof (resolved_pending_length (PaperTradingTracker.values trades)) as Hrp.
  pose proof (win_loss_count (PaperTradingTracker.resolved_list trades)) as Hwl.
  unfold PaperTradingTracker.winning_list, PaperTradingTracker.losing_list,
    PaperTradingTracker.resolved_list in *.
  split_and!; try lia.
  unfold PaperTradingTracker.values. by rewrite length_fmap, length_map_to_list.
Qed.










(** ** BTC 15-minute orchestrator: what a signal does to the ledger *)

Lemma validate_buy_held positions sn signal existing :
  Trade.action (TradeSignal.trade signal) = "BUY" →
  PositionTracker.get_position positions sn (Market.id (TradeSignal.market signal))
    (Trade.side (TradeSignal.trade signal)) = Some existing →
  BTC15MinBot.validate positions sn signal =
    (None, [Log INFO (AlreadyHasPosition sn
                        (py_prefix 40 (Market.question (TradeSignal.market signal))))]).
Proof.
  intros Ha Hp. unfold BTC15MinBot.validate. rewrite Ha, Hp. by rewrite decide_True.
Qed.

Lemma validate_buy_free positions sn signal :
  Trade.action (TradeSignal.trade signal) = "BUY" →
  PositionTracker.get_position positions sn (Market.id (TradeSignal.market signal))
    (Trade.side (TradeSignal.trade signal)) = None →
  BTC15MinBot.validate positions sn signal = (Some (TradeSignal.trade signal), []).
Proof.
  intros Ha Hp. unfold BTC15MinBot.validate. rewrite Ha, Hp. by rewrite decide_True.
Qed.

Lemma validate_sell_within positions sn signal existing :
  Trade.action (TradeSignal.trade signal) = "SELL" →
  PositionTracker.get_position positions sn (Market.id (TradeSignal.market signal))
    (Trade.side (TradeSignal.trade signal)) = Some existing →
  Trade.amount (TradeSignal.trade signal) ≤ Position.shares existing →
  BTC15MinBot.validate positions sn signal = (Some (TradeSignal.trade signal), []).
Proof.
  intros Ha Hp Hle. unfold BTC15MinBot.validate. rewrite Ha, Hp.
  rewrite decide_False by done. rewrite decide_True by done. by rewrite decide_False by lia.
Qed.

Lemma held_add_position (positions : gmap string Position.t) now sn mid q side d pd mct k :
  held (PositionTracker.add_position positions now sn mid q side d pd mct).1 k =
    held positions k + (if decide (PositionTracker.position_key sn mid side = k) then d else 0).
Proof. apply (held_apply_upsert positions (mkUpsert now sn mid q side d pd mct) k). Qed.

Lemma track_position_tick clock st sn trade market before after :
  BTC15MinBot.tick (BTC15MinBot.track_position clock st sn trade market before after) =
    match PositionTracker.get_position (BTC15MinBot.position_tracker st) sn
            (Trade.market_id trade) (Trade.side trade) with
    | Some _ => BTC15MinBot.tick st
    | None => S (BTC15MinBot.tick st)
    end.
Proof.
  unfold BTC15MinBot.track_position. by destruct (PositionTracker.add_position _ _ _ _ _ _ _ _ _).
Qed.

(** X9. A BUY signal.  The check reads the position that the strategy holds
    in the market of the signal, on the side of the trade: when there is one,
    the signal is skipped and nothing but a log line changes.  Otherwise, in
    a dry run or after a successful submission, the trade is executed and
    booked on the market that the trade names: the shares held there grow by
    exactly the amount, and no other key changes.  When nothing was held
    there, as when the trade names the market of the signal, a position of
    exactly the amount bought is opened at the trade price, stamped with the
    clock reading and the close time of the market of the signal. *)
Theorem buy_checked_against_position
    (dry_run : bool) (clock : nat → string) (execute_trade : Trade.t → bool)
    (sn : string) (st : BTC15MinBot.state) (signal : TradeSignal.t) :
  Trade.action (TradeSignal.trade signal) = "BUY" →
  let trade := TradeSignal.trade signal in
  let market := TradeSignal.market signal in
  let checked := PositionTracker.get_position (BTC15MinBot.position_tracker st) sn
                   (Market.id market) (Trade.side trade) in
  let key := PositionTracker.position_key sn (Trade.market_id trade) (Trade.side trade) in
  let result := BTC15MinBot.process_signal dry_run clock execute_trade sn st signal in
  (is_Some checked →
   result =
     (BTC15MinBot.mkState (BTC15MinBot.position_tracker st) (BTC15MinBot.tick st)
        (BTC15MinBot.log st ++
         [Log INFO (AlreadyHasPosition sn (py_prefix 40 (Market.question market)))])
        (BTC15MinBot.calls st) (BTC15MinBot.executions st), 0))
  ∧ (checked = None → dry_run = true ∨ execute_trade trade = true →
     result.2 = 1
     ∧ BTC15MinBot.executions result.1 = BTC15MinBot.executions st ++ [trade]
     ∧ held (BTC15MinBot.position_tracker result.1) key
       = held (BTC15MinBot.position_tracker st) key + Trade.amount trade
     ∧ (∀ k, k ≠ key →
        BTC15MinBot.position_tracker result.1 !! k = BTC15MinBot.position_tracker st !! k)
     ∧ (BTC15MinBot.position_tracker st !! key = None →
        BTC15MinBot.position_tracker result.1 !! key
        = Some (Position.mk sn (Trade.market_id trade) (Trade.question trade)
                  (Trade.side trade) (Trade.amount trade) (Trade.price trade)
                  (clock (BTC15MinBot.tick st)) (Market.end_date market))
        ∧ BTC15MinBot.tick result.1 = S (BTC15MinBot.tick st))
     ∧ (Trade.market_id trade = Market.id market →
        BTC15MinBot.position_tracker st !! key = None)).
Proof.
  intros Ha trade market checked key result. subst result checked key trade market. split.
  - intros [existing Hheld]. unfold BTC15MinBot.process_signal.
    by rewrite (validate_buy_held _ _ _ existing).
  - intros Hnone Hexec. unfold BTC15MinBot.process_signal.
    rewrite validate_buy_free by done.
    edestruct (dispatch_executed dry_run clock execute_trade) as (before & after & ->);
      [exact Hexec|].
    cbn [fst snd].
    rewrite track_position_tracker, track_position_executions, track_position_tick.
    cbn [BTC15MinBot.position_tracker BTC15MinBot.tick BTC15MinBot.executions].
    rewrite signed_shares_buy by done. unfold PositionTracker.get_position in *.
    split_and!; [done | done | | | |].
    + rewrite held_add_position. by rewrite decide_True.
    + intros k Hk. by rewrite add_position_other.
    + intros Hfree. rewrite Hfree. split; [by rewrite add_position_new | done].
    + intros Hm. by rewrite Hm.
Qed.

Lemma buy_checked_against_position_witness :
  let result :=
    BTC15MinBot.process_signal true (λ _, "t1") (λ _, true) "S" (BTC15MinBot.init ∅) c1_signal in
  result.2 = 1
  ∧ PositionTracker.get_position (BTC15MinBot.position_tracker result.1) "S" "m" "YES"
    = Some (Position.mk "S" "m" "q" "YES" 10 (3 # 5) "t1" "t9").
Proof.
  intros result.
  destruct (buy_checked_against_position true (λ _, "t1") (λ _, true) "S"
              (BTC15MinBot.init ∅) c1_signal eq_refl) as [_ Hopen].
  destruct (Hopen eq_refl (or_introl eq_refl)) as (H1 & _ & _ & _ & H5 & _).
  destruct (H5 eq_refl) as [H6 _]. by split.
Defined.

Lemma set_amount_same (trade : Trade.t) : Trade.set_amount (Trade.amount trade) trade = trade.
Proof. by destruct trade. Qed.

(** X10. A SELL signal that is executed.  The check reads the position that
    the strategy holds in the market of the signal: with [shares] held there
    and [amount] asked, the amount executed is min(amount, shares), the
    shares held in the market that the trade names fall by it, and no other
    key changes.  When the trade names the market of the signal, the position
    checked is the one reduced: it is left with shares - min(amount, shares),
    and when something is left the record keeps its identity and takes the
    entry price that averaging the lot held with the lot sold gives. *)
Theorem sell_reduces_position
    (dry_run : bool) (clock : nat → string) (execute_trade : Trade.t → bool)
    (sn : string) (st : BTC15MinBot.state) (signal : TradeSignal.t) (existing : Position.t) :
  Trade.action (TradeSignal.trade signal) = "SELL" →
  let trade := TradeSignal.trade signal in
  let market := TradeSignal.market signal in
  let key := PositionTracker.position_key sn (Trade.market_id trade) (Trade.side trade) in
  PositionTracker.get_position (BTC15MinBot.position_tracker st) sn (Market.id market)
    (Trade.side trade) = Some existing →
  let sold := Z.min (Trade.amount trade) (Position.shares existing) in
  (dry_run = true ∨ execute_trade (Trade.set_amount sold trade) = true) →
  let result := BTC15MinBot.process_signal dry_run clock execute_trade sn st signal in
  result.2 = 1
  ∧ Trade.amount <$> last (BTC15MinBot.executions result.1) = Some sold
  ∧ held (BTC15MinBot.position_tracker result.1) key
    = held (BTC15MinBot.position_tracker st) key - sold
  ∧ (∀ k, k ≠ key →
     BTC15MinBot.position_tracker result.1 !! k = BTC15MinBot.position_tracker st !! k)
  ∧ (Trade.market_id trade = Market.id market →
     held (BTC15MinBot.position_tracker result.1) key = Position.shares existing - sold
     ∧ (Trade.amount trade < Position.shares existing →
        BTC15MinBot.position_tracker result.1 !! key =
          Some (Position.mk (Position.strategy_name existing) (Position.market_id existing)
                  (Position.question existing) (Position.side existing)
                  (Position.shares existing - Trade.amount trade)
                  (average_entry_price (Position.shares existing)
                     (Position.entry_price existing)
                     (- Trade.amount trade) (Trade.price trade))
                  (Position.entry_time existing) (Position.market_close_time existing)))).
Proof.
  intros Ha trade market key Hheld sold Hexec result. subst result.
  unfold BTC15MinBot.process_signal.
  assert (∃ trade' lg,
    BTC15MinBot.validate (BTC15MinBot.position_tracker st) sn signal = (Some trade', lg)
    ∧ trade' = Trade.set_amount sold trade) as (trade' & lg & -> & ->).
  { destruct (decide (Trade.amount trade > Position.shares existing)) as [Hgt|Hle].
    - rewrite (validate_sell_clamp _ _ _ existing) by done.
      eexists _, _. split; [done|]. subst sold. by rewrite Z.min_r by lia.
    - rewrite (validate_sell_within _ _ _ existing) by (done || lia).
      eexists _, _. split; [done|]. subst sold. rewrite Z.min_l by lia.
      by rewrite set_amount_same. }
  edestruct (dispatch_executed dry_run clock execute_trade) as (before & after & ->);
    [exact Hexec|].
  cbn [fst snd]. rewrite track_position_tracker, track_position_executions.
  cbn [BTC15MinBot.position_tracker BTC15MinBot.tick BTC15MinBot.executions].
  rewrite signed_shares_sell by done.
  cbn [Trade.set_amount Trade.market_id Trade.side Trade.amount Trade.question Trade.price].
  split; [done|]. split; [by rewrite last_snoc|].
  fold key. rewrite held_add_position, decide_True by done.
  split; [lia|]. split; [intros k Hk; by rewrite add_position_other|].
  intros Hm. unfold PositionTracker.get_position in Hheld.
  assert (BTC15MinBot.position_tracker st !! key = Some existing) as Hkey.
  { subst key trade market. by rewrite Hm. }
  split.
  - unfold held. rewrite Hkey. cbn. lia.
  - intros Hlt. subst key trade.
    rewrite (add_position_existing _ _ _ _ _ _ _ _ _ existing) by done.
    subst sold. rewrite Z.min_l by lia. by rewrite decide_False by lia.
Qed.

Lemma sell_reduces_position_witness :
  let st := BTC15MinBot.init {[ "S:m:YES" := c5_position ]} in
  let result :=
    BTC15MinBot.process_signal true (λ _, "t1") (λ _, true) "S" st x_sell_signal in
  result.2 = 1
  ∧ held (BTC15MinBot.position_tracker result.1) "S:m:YES" = 10 - Z.min 4 10.
Proof.
  intros st result.
  destruct (sell_reduces_position true (λ _, "t1") (λ _, true) "S" st x_sell_signal
              c5_position eq_refl eq_refl (or_introl eq_refl)) as (H1 & _ & _ & _ & H5).
  destruct (H5 eq_refl) as [H6 _]. by split.
Defined.

(** The assignment of line 181 is seen by a later signal that holds the same
    [Trade] object.  A sale of 10 shares of market "n" comes twice, first
    bundled with market "m", where 4 shares are held, then with market "n",
    where 20 are: the first signal cuts the amount to 4, and both book 4. *)
Lemma assigned_amount_seen_by_later_signal :
  let positions : gmap string Position.t :=
    {[ "S:m:YES" := Position.mk "S" "m" "q" "YES" 4 (1 # 2) "t0" "t9";
       "S:n:YES" := Position.mk "S" "n" "q" "YES" 20 (1 # 2) "t0" "t9" ]} in
  let trade := Trade.mk "n" "q" "YES" 10 (1 # 2) "r" "SELL" in
  let market id := Market.mk id "q" "t9" (1 # 2) (1 # 2) 1000 true in
  let result signals :=
    BTC15MinBot.process_signals true (λ _, "t1") (λ _, true) "S"
      (BTC15MinBot.init positions) ∅ 0 signals in
  held (BTC15MinBot.position_tracker
          (result [Signal 0 (TradeSignal.mk trade (market "m"));
                   Signal 0 (TradeSignal.mk trade (market "n"))]).1.1) "S:n:YES" = 12
  ∧ held (BTC15MinBot.position_tracker
            (result [Signal 0 (TradeSignal.mk trade (market "m"));
                     Signal 1 (TradeSignal.mk trade (market "n"))]).1.1) "S:n:YES" = 6.
Proof. split; reflexivity. Qed.

(** ** BTC 15-minute orchestrator: positions stay long *)

Lemma add_position_positive (positions : gmap string Position.t) now sn mid q side d pd mct :
  positions_positive positions →
  (∀ e, positions !! PositionTracker.position_key sn mid side = Some e →
        0 ≤ Position.shares e + d) →
  (positions !! PositionTracker.position_key sn mid side = None → 0 < d) →
  positions_positive (PositionTracker.add_position positions now sn mid q side d pd mct).1.
Proof.
  intros Hinv Hsome Hnone k p.
  destruct (decide (k = PositionTracker.position_key sn mid side)) as [->|Hk].
  - destruct (positions !! PositionTracker.position_key sn mid side) as [e|] eqn:He.
    + rewrite (add_position_existing _ _ _ _ _ _ _ _ _ e) by done.
      case_decide as Hz; [done|]. intros [= <-]. cbn. specialize (Hsome e eq_refl). lia.
    + rewrite add_position_new by done. intros [= <-]. cbn. by apply Hnone.
  - rewrite add_position_other by done. apply Hinv.
Qed.

Section btc_positive.
Import BTC15MinBot.
Context (dry_run : bool) (clock : nat → string) (execute_trade : Trade.t → bool).

Lemma dispatch_positive st sn trade market :
  positions_positive (position_tracker st) →
  (∀ e, position_tracker st !! PositionTracker.position_key sn (Trade.market_id trade)
          (Trade.side trade) = Some e → 0 ≤ Position.shares e + signed_shares trade) →
  (position_tracker st !! PositionTracker.position_key sn (Trade.market_id trade)
     (Trade.side trade) = None → 0 < signed_shares trade) →
  positions_positive
    (position_tracker (dispatch dry_run clock execute_trade st sn trade market).1).
Proof.
  intros Hinv Hsome Hnone. unfold dispatch.
  destruct dry_run; cbn [fst].
  - rewrite track_position_tracker. by apply add_position_positive.
  - destruct (execute_trade trade); cbn [fst]; [|done].
    rewrite track_position_tracker. by apply add_position_positive.
Qed.

Lemma process_signal_positive sn st signal :
  well_formed_signal signal →
  positions_positive (position_tracker st) →
  positions_positive
    (position_tracker (process_signal dry_run clock execute_trade sn st signal).1).
Proof.
  intros ([Ha|Ha] & Hamount & Hm) Hinv; unfold process_signal.
  - destruct (PositionTracker.get_position (position_tracker st) sn
                (Market.id (TradeSignal.market signal))
                (Trade.side (TradeSignal.trade signal))) as [e|] eqn:He.
    + by rewrite (validate_buy_held _ _ _ e).
    + rewrite validate_buy_free by done.
      apply dispatch_positive; cbn [position_tracker]; [done|..];
        unfold PositionTracker.get_position in He; rewrite Hm, He; [done|].
      intros _. by rewrite signed_shares_buy.
  - destruct (PositionTracker.get_position (position_tracker st) sn
                (Market.id (TradeSignal.market signal))
                (Trade.side (TradeSignal.trade signal))) as [e|] eqn:He.
    + pose proof (Hinv _ _ He) as Hpos. unfold PositionTracker.get_position in He.
      destruct (decide (Trade.amount (TradeSignal.trade signal) > Position.shares e))
        as [Hgt|Hle].
      * rewrite (validate_sell_clamp _ _ _ e) by done.
        apply dispatch_positive; cbn [position_tracker Trade.set_amount Trade.market_id
                                        Trade.side]; [done|..]; rewrite Hm, He; [|done].
        intros e' [= <-]. rewrite signed_shares_sell by done. cbn. lia.
      * rewrite (validate_sell_within _ _ _ e) by (done || lia).
        apply dispatch_positive; cbn [position_tracker]; [done|..]; rewrite Hm, He; [|done].
        intros e' [= <-]. rewrite signed_shares_sell by done. lia.
    + by rewrite validate_sell_no_position.
Qed.

Lemma current_well_formed amounts trade_object signal :
  amounts_positive amounts → well_formed_signal signal →
  well_formed_signal (current amounts trade_object signal).
Proof.
  intros Hpos (Ha & Hamount & Hm). unfold current.
  destruct (amounts !! trade_object) as [v|] eqn:Hv; [|done].
  split_and!; [done | by apply (Hpos trade_object) | done].
Qed.

Lemma amount_after_positive positions sn signal :
  positions_positive positions → well_formed_signal signal →
  0 < amount_after positions sn signal.
Proof.
  intros Hinv (_ & Hamount & _). unfold amount_after, validate.
  repeat case_match; simplify_eq/=; try done.
  match goal with H : PositionTracker.get_position _ _ _ _ = Some _ |- _ => by apply Hinv in H end.
Qed.

Lemma process_signals_positive sn signals : ∀ st amounts n,
  Forall well_formed_item signals →
  amounts_positive amounts →
  positions_positive (position_tracker st) →
  positions_positive
    (position_tracker
       (process_signals dry_run clock execute_trade sn st amounts n signals).1.1).
Proof.
  induction signals as [|[trade_object signal|trade] signals IH];
    intros st amounts n Hwf Hamounts Hinv; [done| |done].
  inversion_clear Hwf as [|?? Hs Hrest]. cbn [well_formed_item] in Hs.
  rewrite btc_process_signals_cons. cbn zeta.
  pose proof (current_well_formed amounts trade_object signal Hamounts Hs) as Hs'.
  apply IH; [done| |by apply process_signal_positive].
  intros o v. destruct (decide (o = trade_object)) as [->|Hne].
  - rewrite lookup_insert_eq. intros [= <-]. by apply amount_after_positive.
  - rewrite lookup_insert_ne by done. apply Hamounts.
Qed.

Lemma run_strategy_positive markets st n strategy :
  well_behaved strategy →
  positions_positive (position_tracker st) →
  positions_positive
    (position_tracker (run_strategy dry_run clock execute_trade markets (st, n) strategy).1).
Proof.
  intros Hwb Hinv. unfold run_strategy.
  destruct (Strategy.enabled strategy); cbn [negb]; [|done].
  destruct (Strategy.analyze _ _ _) as [e|signals] eqn:Han; [done|].
  match goal with
  | |- context [process_signals _ _ _ ?sn ?s ∅ 0 signals] =>
      pose proof (process_signals_positive sn signals s ∅ 0 (Hwb _ _ _ Han)) as Hp;
      destruct (process_signals dry_run clock execute_trade sn s ∅ 0 signals)
        as [[st2 m] [e|]]
  end; apply Hp; done.
Qed.

Lemma run_strategies_positive markets strategies : ∀ st n,
  Forall well_behaved strategies →
  positions_positive (position_tracker st) →
  positions_positive
    (position_tracker
       (foldl (run_strategy dry_run clock execute_trade markets) (st, n) strategies).1).
Proof.
  induction strategies as [|s strategies IH]; intros st n Hwb Hinv; [done|].
  inversion_clear Hwb as [|?? Hs Hrest]. cbn [foldl].
  pose proof (run_strategy_positive markets st n s Hs Hinv) as Hinv'.
  destruct (run_strategy dry_run clock execute_trade markets (st, n) s) as [st' m].
  by apply IH.
Qed.
End btc_positive.

(** X11. A cycle of the BTC 15-minute orchestrator keeps every position long.
    When every record holds a positive number of shares and the strategies
    emit only well-formed signals (BUY or SELL, positive amount, the market
    of the trade), every record holds a positive number of shares after the
    cycle, in dry-run and in live mode, whatever the submissions answer and
    whichever strategies raise. *)
Theorem run_once_keeps_positions_long
    (dry_run : bool) (clock : nat → string) (execute_trade : Trade.t → bool)
    (st : BTC15MinBot.state) (markets : list Market.t) (strategies : list Strategy.t) :
  Forall well_behaved strategies →
  positions_positive (BTC15MinBot.position_tracker st) →
  positions_positive
    (BTC15MinBot.position_tracker
       (BTC15MinBot.run_once dry_run clock execute_trade st markets strategies).1).
Proof.
  intros Hwb Hinv. unfold BTC15MinBot.run_once. destruct markets as [|m ms]; [done|].
  pose proof (run_strategies_positive dry_run clock execute_trade (m :: ms) strategies st 0
                Hwb Hinv) as Hp.
  by destruct (foldl _ _ strategies) as [st1 n].
Qed.

(** ** The strategies of the BTC 15-minute bot *)

Lemma py_lt_true (a b : Q) : py_lt a b = true → (a < b)%Q.
Proof.
  unfold py_lt. intros H. apply negb_true_iff in H. apply Qnot_le_lt. intros Hle.
  apply Qle_bool_iff in Hle. congruence.
Qed.

Lemma py_lt_false (a b : Q) : py_lt a b = false → (b <= a)%Q.
Proof. unfold py_lt. intros H. apply negb_false_iff in H. by apply Qle_bool_iff. Qed.

Lemma py_gt_true (a b : Q) : py_gt a b = true → (b < a)%Q.
Proof. apply (py_lt_true b a). Qed.

Lemma py_gt_false (a b : Q) : py_gt a b = false → (a <= b)%Q.
Proof. apply (py_lt_false b a). Qed.

Lemma py_ge_true (a b : Q) : py_ge a b = true → (b <= a)%Q.
Proof. unfold py_ge. by intros H%Qle_bool_iff. Qed.

Lemma bind_length_le {A B} (f : A → list B) (l : list A) :
  (∀ x, length (f x) ≤ 1)%nat → (length (l ≫= f) ≤ length l)%nat.
Proof.
  intros Hf. induction l as [|x l IH]; [done|].
  rewrite bind_cons, length_app. cbn [length]. pose proof (Hf x). lia.
Qed.

Lemma bind_Forall {A B} (f : A → list B) (P : B → Prop) (l : list A) :
  (∀ x, x ∈ l → Forall P (f x)) → Forall P (l ≫= f).
Proof.
  intros Hf. apply Forall_forall. intros y Hy.
  apply list_elem_of_bind in Hy as (x & Hy & Hx).
  by eapply Forall_forall; [apply Hf|].
Qed.

Lemma buy_signal_quoted shares_per_trade markets market side price reason :
  market ∈ markets → Market.active market = true →
  (side = "YES" ∧ price = Market.yes_price market)
  ∨ (side = "NO" ∧ price = Market.no_price market) →
  buys_quoted_side shares_per_trade markets
    (buy_signal market side shares_per_trade price reason).
Proof. intros Hin Ha Hs. by repeat split. Qed.

(** Solves [Forall P (analyze_market ... market)] by going through the
    branches of the strategy. *)
Ltac strategy_branches :=
  repeat case_match; repeat constructor.

Lemma momentum_signals fmt3 shares_per_trade thr (P : TradeSignal.t → Prop) markets :
  (∀ market side price reason,
     market ∈ markets → Market.active market = true →
     (side = "YES" ∧ price = Market.yes_price market)
     ∨ (side = "NO" ∧ price = Market.no_price market) →
     P (buy_signal market side shares_per_trade price reason)) →
  ∀ last_prices signals,
    Forall P signals →
    Forall P (foldl (MomentumStrategy.analyze_market fmt3 shares_per_trade thr)
                (signals, last_prices) markets).1.
Proof.
  induction markets as [|market markets IH]; intros HP last_prices signals Hs; [done|].
  cbn [foldl]. unfold MomentumStrategy.analyze_market at 2.
  assert (∀ market' side price reason,
     market' ∈ markets → Market.active market' = true →
     (side = "YES" ∧ price = Market.yes_price market')
     ∨ (side = "NO" ∧ price = Market.no_price market') →
     P (buy_signal market' side shares_per_trade price reason)) as HP'.
  { intros ???? Hin. apply HP. by right. }
  destruct (Market.active market) eqn:Ha; cbn [negb]; [|by apply IH].
  apply IH; [done|].
  repeat case_match; try done; apply Forall_app; (split; [done|]);
    repeat constructor; (apply HP; [by left | done | naive_solver]).
Qed.

Lemma momentum_length fmt3 shares_per_trade thr markets : ∀ last_prices signals,
  (length (foldl (MomentumStrategy.analyze_market fmt3 shares_per_trade thr)
             (signals, last_prices) markets).1 ≤ length signals + length markets)%nat.
Proof.
  induction markets as [|market markets IH]; intros last_prices signals.
  - cbn. lia.
  - cbn [foldl length]. unfold MomentumStrategy.analyze_market at 2.
    repeat case_match; (etrans; [apply IH|]); rewrite ?length_app; cbn [length]; lia.
Qed.

(** X16. Every signal of the PriceArbitrage, MeanReversion, SimpleBalanced,
    VolumeSpike and Momentum strategies is a BUY of shares_per_trade shares of
    one side of an active market of the list analysed, carrying the id and the
    question of that market and the price quoted for the side bought; and
    each strategy emits at most one signal per market analysed. *)
Theorem strategies_buy_quoted_side
    (fmt3 fmt0 : Q → string) (shares_per_trade : Z) (threshold threshold' : Q)
    (last_prices : gmap string (Q * Q)) (markets : list Market.t) :
  let emitted signals :=
    Forall (buys_quoted_side shares_per_trade markets) signals
    ∧ (length signals ≤ length markets)%nat in
  emitted (PriceArbitrageStrategy.analyze fmt3 shares_per_trade threshold markets)
  ∧ emitted (MeanReversionStrategy.analyze fmt3 shares_per_trade threshold markets)
  ∧ emitted (SimpleBalancedStrategy.analyze fmt3 shares_per_trade threshold markets)
  ∧ emitted (VolumeSpikeStrategy.analyze fmt3 fmt0 shares_per_trade threshold threshold'
               markets)
  ∧ emitted (MomentumStrategy.analyze fmt3 shares_per_trade threshold last_prices markets).1.
Proof.
  intros emitted. subst emitted. cbn beta.
  assert (Hq : ∀ market side price reason,
     market ∈ markets → Market.active market = true →
     (side = "YES" ∧ price = Market.yes_price market)
     ∨ (side = "NO" ∧ price = Market.no_price market) →
     buys_quoted_side shares_per_trade markets
       (buy_signal market side shares_per_trade price reason)).
  { intros. by apply buy_signal_quoted. }
  split_and!.
  - apply bind_Forall. intros market Hin. unfold PriceArbitrageStrategy.analyze_market.
    destruct (Market.active market) eqn:Ha; cbn [negb]; [|done].
    repeat case_match; repeat constructor; apply Hq; naive_solver.
  - apply bind_length_le. intros market. unfold PriceArbitrageStrategy.analyze_market.
    repeat case_match; cbn; lia.
  - apply bind_Forall. intros market Hin. unfold MeanReversionStrategy.analyze_market.
    destruct (Market.active market) eqn:Ha; cbn [negb]; [|done].
    repeat case_match; repeat constructor; apply Hq; naive_solver.
  - apply bind_length_le. intros market. unfold MeanReversionStrategy.analyze_market.
    repeat case_match; cbn; lia.
  - apply bind_Forall. intros market Hin. unfold SimpleBalancedStrategy.analyze_market.
    destruct (Market.active market) eqn:Ha; cbn [negb]; [|done].
    repeat case_match; repeat constructor; apply Hq; naive_solver.
  - apply bind_length_le. intros market. unfold SimpleBalancedStrategy.analyze_market.
    repeat case_match; cbn; lia.
  - apply bind_Forall. intros market Hin. unfold VolumeSpikeStrategy.analyze_market.
    destruct (Market.active market) eqn:Ha; cbn [negb]; [|done].
    repeat case_match; repeat constructor; apply Hq; naive_solver.
  - apply bind_length_le. intros market. unfold VolumeSpikeStrategy.analyze_market.
    repeat case_match; cbn; lia.
  - by apply momentum_signals.
  - apply (momentum_length fmt3 shares_per_trade threshold markets last_prices []).
Qed.

(** X17. What makes each stateless strategy buy, every sum and difference
    being the binary64 one.  PriceArbitrage buys only where the sum of the two
    prices is below 1 and off 1 by more than its threshold, and buys the side
    that is not dearer.  MeanReversion buys against a side priced above its
    threshold.  SimpleBalanced buys the side that is not dearer, where the
    difference of the prices is at least its edge.  VolumeSpike does the same
    where, in addition, the volume reaches its threshold. *)
Theorem strategies_selection_rules
    (fmt3 fmt0 : Q → string) (shares_per_trade : Z) (threshold threshold' : Q)
    (markets : list Market.t) :
  let up signal := Market.yes_price (TradeSignal.market signal) in
  let down signal := Market.no_price (TradeSignal.market signal) in
  let price signal := Trade.price (TradeSignal.trade signal) in
  Forall (λ signal, (Binary64.add (up signal) (down signal) < 1)%Q
                    ∧ (threshold
                       < Qabs (Binary64.sub (Binary64.add (up signal) (down signal)) 1))%Q
                    ∧ (price signal <= other_price signal)%Q)
    (PriceArbitrageStrategy.analyze fmt3 shares_per_trade threshold markets)
  ∧ Forall (λ signal, (threshold < other_price signal)%Q)
      (MeanReversionStrategy.analyze fmt3 shares_per_trade threshold markets)
  ∧ Forall (λ signal, (price signal <= other_price signal)%Q
                      ∧ (threshold <= Qabs (Binary64.sub (up signal) (down signal)))%Q)
      (SimpleBalancedStrategy.analyze fmt3 shares_per_trade threshold markets)
  ∧ Forall (λ signal, (price signal <= other_price signal)%Q
                      ∧ (threshold' <= Qabs (Binary64.sub (up signal) (down signal)))%Q
                      ∧ (threshold <= Market.volume (TradeSignal.market signal))%Q)
      (VolumeSpikeStrategy.analyze fmt3 fmt0 shares_per_trade threshold threshold' markets).
Proof.
  intros up down price. subst up down price. cbn beta. split_and!.
  - apply bind_Forall. intros market _. unfold PriceArbitrageStrategy.analyze_market.
    repeat case_match; repeat constructor; unfold other_price; cbn;
      repeat match goal with
      | H : py_lt _ _ = true |- _ => apply py_lt_true in H
      | H : py_lt _ _ = false |- _ => apply py_lt_false in H
      | H : py_gt _ _ = true |- _ => apply py_gt_true in H
      end;
      try (by apply Qlt_le_weak); done.
  - apply bind_Forall. intros market _. unfold MeanReversionStrategy.analyze_market.
    repeat case_match; repeat constructor; unfold other_price; cbn;
      by apply py_gt_true.
  - apply bind_Forall. intros market _. unfold SimpleBalancedStrategy.analyze_market.
    repeat case_match; repeat constructor; unfold other_price; cbn;
      repeat match goal with
      | H : py_lt _ _ = true |- _ => apply py_lt_true in H
      | H : py_lt _ _ = false |- _ => apply py_lt_false in H
      end;
      try (by apply Qlt_le_weak); done.
  - apply bind_Forall. intros market _. unfold VolumeSpikeStrategy.analyze_market.
    repeat case_match; repeat constructor; unfold other_price; cbn;
      repeat match goal with
      | H : py_lt _ _ = true |- _ => apply py_lt_true in H
      | H : py_lt _ _ = false |- _ => apply py_lt_false in H
      | H : py_ge _ _ = true |- _ => apply py_ge_true in H
      end;
      try (by apply Qlt_le_weak); done.
Qed.

Lemma momentum_quiet fmt3 shares_per_trade thr markets : ∀ last_prices signals,
  (0 < thr)%Q →
  (∀ m, m ∈ markets → Market.active m = true →
        last_prices !! Market.id m = Some (Market.yes_price m, Market.no_price m)) →
  foldl (MomentumStrategy.analyze_market fmt3 shares_per_trade thr)
    (signals, last_prices) markets = (signals, last_prices).
Proof.
  induction markets as [|market markets IH]; intros last_prices signals Hthr Hseen; [done|].
  cbn [foldl].
  assert (MomentumStrategy.analyze_market fmt3 shares_per_trade thr
            (signals, last_prices) market = (signals, last_prices)) as ->.
  { unfold MomentumStrategy.analyze_market.
    destruct (Market.active market) eqn:Ha; cbn [negb]; [|done].
    rewrite (Hseen market) by (done || by left).
    assert (∀ x : Q, py_ge (Binary64.sub x x) thr = false) as Hflat.
    { intros x. unfold Binary64.sub. rewrite round_zero by ring.
      unfold py_ge. destruct (Qle_bool thr 0) eqn:E; [|done].
      apply Qle_bool_iff in E. lra. }
    rewrite !Hflat. f_equal. apply insert_id. apply Hseen; [by left|done]. }
  apply IH; [done|]. intros m Hm. apply Hseen. by right.
Qed.

Lemma momentum_unseen fmt3 shares_per_trade thr markets : ∀ last_prices signals,
  NoDup (Market.id <$> markets) →
  Forall (λ m, last_prices !! Market.id m = None) markets →
  (foldl (MomentumStrategy.analyze_market fmt3 shares_per_trade thr)
     (signals, last_prices) markets).1 = signals.
Proof.
  induction markets as [|market markets IH]; intros last_prices signals Hnd Hnone; [done|].
  rewrite fmap_cons in Hnd. apply NoDup_cons in Hnd as [Hnotin Hnd].
  inversion_clear Hnone as [|?? Hm Hrest].
  cbn [foldl]. unfold MomentumStrategy.analyze_market at 2.
  destruct (Market.active market); cbn [negb]; [|by apply IH].
  rewrite Hm. apply IH; [done|].
  apply Forall_forall. intros m Hin. rewrite lookup_insert_ne.
  - by eapply Forall_forall in Hrest.
  - intros Heq. apply Hnotin. rewrite Heq. apply list_elem_of_fmap. by exists m.
Qed.

Lemma momentum_history fmt3 shares_per_trade thr markets : ∀ last_prices signals m,
  NoDup (Market.id <$> markets) →
  m ∈ markets → Market.active m = true →
  (foldl (MomentumStrategy.analyze_market fmt3 shares_per_trade thr)
     (signals, last_prices) markets).2 !! Market.id m
  = Some (Market.yes_price m, Market.no_price m).
Proof.
  induction markets as [|x markets IH] using rev_ind; intros last_prices signals m Hnd Hin Ha.
  - by apply elem_of_nil in Hin.
  - rewrite foldl_snoc. rewrite fmap_app in Hnd. apply NoDup_app in Hnd as (Hnd & Hdisj & _).
    destruct (foldl _ _ markets) as [signals' last'] eqn:Hfold.
    assert (∀ m, m ∈ markets → Market.active m = true →
              last' !! Market.id m = Some (Market.yes_price m, Market.no_price m)) as IH'.
    { intros m' Hm' Ha'. specialize (IH last_prices signals m' Hnd Hm' Ha').
      by rewrite Hfold in IH. }
    unfold MomentumStrategy.analyze_market.
    apply elem_of_app in Hin as [Hin|Hin].
    + assert (Market.id x ≠ Market.id m) as Hne.
      { intros Heq. apply (Hdisj (Market.id m)).
        - apply list_elem_of_fmap. by exists m.
        - rewrite <- Heq. cbn. left. }
      destruct (Market.active x); cbn [negb snd]; [|by apply IH'].
      rewrite lookup_insert_ne by done. by apply IH'.
    + apply list_elem_of_singleton in Hin as ->. rewrite Ha. cbn [negb snd].
      by rewrite lookup_insert_eq.
Qed.

(** X18. The Momentum strategy signals only on a price change.  On a list of
    markets with distinct ids it remembers the prices of every active market
    it analysed, emits nothing for markets it has never seen, and, with a
    positive threshold, emits nothing when analysing the same list again. *)
Theorem momentum_needs_a_price_change
    (fmt3 : Q → string) (shares_per_trade : Z) (threshold : Q)
    (last_prices : gmap string (Q * Q)) (markets : list Market.t) :
  NoDup (Market.id <$> markets) →
  (0 < threshold)%Q →
  let first := MomentumStrategy.analyze fmt3 shares_per_trade threshold last_prices markets in
  (∀ m, m ∈ markets → Market.active m = true →
        first.2 !! Market.id m = Some (Market.yes_price m, Market.no_price m))
  ∧ (Forall (λ m, last_prices !! Market.id m = None) markets → first.1 = [])
  ∧ MomentumStrategy.analyze fmt3 shares_per_trade threshold first.2 markets = ([], first.2).
Proof.
  intros Hnd Hthr first. subst first. unfold MomentumStrategy.analyze. split_and!.
  - intros m Hm Ha. by apply momentum_history.
  - intros Hnone. by apply momentum_unseen.
  - apply momentum_quiet; [done|]. intros m Hm Ha. by apply momentum_history.
Qed.
Lemma momentum_needs_a_price_change_witness :
  let first := MomentumStrategy.analyze (λ _, "") 10 (3 # 100) ∅ x_markets in
  first.1 = []
  ∧ MomentumStrategy.analyze (λ _, "") 10 (3 # 100) first.2 x_markets = ([], first.2).
Proof.
  intros first.
  destruct (momentum_needs_a_price_change (λ _, "") 10 (3 # 100) ∅ x_markets)
    as (_ & Hunseen & Hquiet).
  - apply (bool_decide_unpack _). by vm_compute.
  - by vm_compute.
  - split; [|exact Hquiet]. apply Hunseen. repeat constructor.
Defined.

Lemma fresh_objects_well_formed (signals : list TradeSignal.t) :
  Forall well_formed_signal signals → Forall well_formed_item (imap Signal signals).
Proof.
  assert (∀ (f : nat → nat) l,
            Forall well_formed_signal l →
            Forall well_formed_item (imap (λ i, Signal (f i)) l)) as H.
  { intros f l. revert f. induction l as [|x l IH]; intros f Hl; [done|].
    inversion_clear Hl. cbn [imap]. constructor; [done|]. by apply (IH (f ∘ S)). }
  apply (H id).
Qed.

Lemma mean_reversion_well_behaved fmt3 shares_per_trade threshold enabled :
  0 < shares_per_trade →
  well_behaved
    (stateless_strategy "MeanReversion" enabled
       (MeanReversionStrategy.analyze fmt3 shares_per_trade threshold)).
Proof.
  intros Hpos markets positions signals [= <-]. apply fresh_objects_well_formed.
  apply bind_Forall. intros market _. unfold MeanReversionStrategy.analyze_market.
  repeat case_match; repeat constructor; cbn; auto.
Qed.

Lemma run_once_keeps_positions_long_witness :
  let strategies :=
    [ stateless_strategy "MeanReversion" true
        (MeanReversionStrategy.analyze (λ _, "") 10 (11 # 20)) ] in
  positions_positive
    (BTC15MinBot.position_tracker
       (BTC15MinBot.run_once true (λ _, "t1") (λ _, true)
          (BTC15MinBot.init {[ "S:m:YES" := c5_position ]}) x_markets strategies).1).
Proof.
  intros strategies.
  apply run_once_keeps_positions_long.
  - repeat constructor. by apply mean_reversion_well_behaved.
  - intros k p Hp. cbn [BTC15MinBot.init BTC15MinBot.position_tracker] in Hp.
    apply lookup_singleton_Some in Hp as [_ <-]. cbn. lia.
Defined.

(** ** Counting executed trades *)

Section counting.
Context (dry_run : bool) (clock : nat → string) (execute_trade : Trade.t → bool).

Lemma trading_bot_process_signal_size st signal :
  let result := TradingBot.process_signal dry_run clock execute_trade st signal in
  Z.of_nat (size (TradingBot.executed_trades result.1)) =
    Z.of_nat (size (TradingBot.executed_trades st)) + result.2
  ∧ 0 ≤ result.2.
Proof.
  cbn zeta. unfold TradingBot.process_signal.
  assert (∀ k, k ∉ TradingBot.executed_trades st →
    Z.of_nat (size ({[k]} ∪ TradingBot.executed_trades st)) =
      Z.of_nat (size (TradingBot.executed_trades st)) + 1) as Hadd.
  { intros k Hk. rewrite size_union by (by apply disjoint_singleton_l).
    rewrite size_singleton. lia. }
  case_decide as Hin; [cbn; lia|]. unfold PaperTradingTracker.add_trade.
  destruct dry_run.
  - destruct (TradingBot.paper_trader st); cbn [fst snd TradingBot.executed_trades];
      (split; [by apply Hadd|lia]).
  - destruct (execute_trade _); cbn [fst snd TradingBot.executed_trades];
      [split; [by apply Hadd|lia] | lia].
Qed.

Lemma trading_bot_process_signals_size signals : ∀ st n,
  let result := TradingBot.process_signals dry_run clock execute_trade st n signals in
  match result.2 with
  | Return executed_count =>
      Z.of_nat (size (TradingBot.executed_trades result.1)) + n =
        Z.of_nat (size (TradingBot.executed_trades st)) + executed_count
      ∧ n ≤ executed_count
  | Raise _ =>
      Z.of_nat (size (TradingBot.executed_trades st))
      ≤ Z.of_nat (size (TradingBot.executed_trades result.1))
  end.
Proof.
  induction signals as [|[trade_object signal|trade] signals IH]; intros st n;
    [cbn; lia| |cbn; lia].
  cbn [TradingBot.process_signals].
  pose proof (trading_bot_process_signal_size st signal) as Hstep.
  destruct (TradingBot.process_signal dry_run clock execute_trade st signal) as [st' m].
  cbn [fst snd] in Hstep. specialize (IH st' (n + m)). cbn zeta in *.
  destruct (TradingBot.process_signals _ _ _ st' (n + m) signals) as [st2 [e|k]];
    cbn [fst snd] in *; lia.
Qed.

Lemma trading_bot_run_once_size st markets strategies :
  let result := TradingBot.run_once dry_run clock execute_trade st markets strategies in
  match result.2 with
  | Return executed_count =>
      Z.of_nat (size (TradingBot.executed_trades result.1)) =
        Z.of_nat (size (TradingBot.executed_trades st)) + executed_count
      ∧ 0 ≤ executed_count
  | Raise _ =>
      Z.of_nat (size (TradingBot.executed_trades st))
      ≤ Z.of_nat (size (TradingBot.executed_trades result.1))
  end.
Proof.
  cbn zeta. unfold TradingBot.run_once. destruct markets as [|m ms]; [cbn; lia|].
  destruct (foldl _ _ strategies) as [[all_signals lg] cs].
  match goal with
  | |- context [TradingBot.process_signals _ _ _ ?s 0 all_signals] =>
      pose proof (trading_bot_process_signals_size all_signals s 0) as Hs;
      destruct (TradingBot.process_signals dry_run clock execute_trade s 0 all_signals)
        as [st2 [e|n]]
  end; cbn [fst snd TradingBot.executed_trades] in *; lia.
Qed.








End counting.


Section executed_set.
Import TradingBot.

Lemma executed_set_process_signal dry_run clock execute_trade st signal :
  executed_trades st = list_to_set (trade_key <$> executions st) →
  executed_trades (process_signal dry_run clock execute_trade st signal).1 =
    list_to_set (trade_key <$> executions (process_signal dry_run clock execute_trade st signal).1).
Proof.
  intros Hset. unfold process_signal.
  assert (∀ trade, {[trade_key trade]} ∪ executed_trades st =
                   list_to_set (trade_key <$> (executions st ++ [trade]))) as Hadd.
  { intros trade. rewrite fmap_app, list_to_set_app_L, <- Hset. cbn.
    by rewrite (right_id_L ∅ (∪)), (comm_L (∪)). }
  case_decide; [done|]. destruct dry_run.
  - destruct (paper_trader st); cbn; apply Hadd.
  - destruct (execute_trade _); cbn; [apply Hadd | done].
Qed.

Lemma executed_set_run dry_run clock cycles : ∀ st,
  executed_trades st = list_to_set (trade_key <$> executions st) →
  executed_trades (run dry_run clock st cycles) =
    list_to_set (trade_key <$> executions (run dry_run clock st cycles)).
Proof.
  apply (run_invariant dry_run clock
           (λ st, executed_trades st = list_to_set (trade_key <$> executions st))).
  - by intros st lg cs.
  - intros execute_trade st signal. apply executed_set_process_signal.
Qed.
End executed_set.

Lemma run_cycle_size dry_run clock st c :
  let result := TradingBot.run_cycle dry_run clock st c in
  match result.2 with
  | Return executed_count =>
      Z.of_nat (size (TradingBot.executed_trades result.1)) =
        Z.of_nat (size (TradingBot.executed_trades st)) + executed_count
      ∧ 0 ≤ executed_count
  | Raise _ =>
      Z.of_nat (size (TradingBot.executed_trades st))
      ≤ Z.of_nat (size (TradingBot.executed_trades result.1))
  end.
Proof.
  cbn zeta. unfold TradingBot.run_cycle.
  pose proof (trading_bot_run_once_size dry_run clock (TradingBot.env_execute_trade c) st
                (TradingBot.env_markets c) (TradingBot.env_strategies c)) as Hs.
  cbn zeta in Hs. by destruct (TradingBot.run_once _ _ _ _ _ _) as [st' [e|n]].
Qed.

Lemma cycle_outcomes_size dry_run clock cycles : ∀ st,
  let outcomes := cycle_outcomes dry_run clock st cycles in
  let added :=
    Z.of_nat (size (TradingBot.executed_trades (TradingBot.run dry_run clock st cycles)))
    - Z.of_nat (size (TradingBot.executed_trades st)) in
  returned_total outcomes ≤ added
  ∧ (Forall (λ outcome, ∃ n, outcome = Return n) outcomes → added = returned_total outcomes).
Proof.
  induction cycles as [|c cycles IH]; intros st; cbn zeta; [cbn; split; [lia|intros _; lia]|].
  unfold TradingBot.run in *. cbn [foldl cycle_outcomes returned_total foldr].
  pose proof (run_cycle_size dry_run clock st c) as Hstep. cbn zeta in Hstep.
  specialize (IH (TradingBot.run_cycle dry_run clock st c).1). cbn zeta in IH.
  destruct IH as [IHle IHeq]. fold (returned_total (cycle_outcomes dry_run clock
    (TradingBot.run_cycle dry_run clock st c).1 cycles)).
  destruct ((TradingBot.run_cycle dry_run clock st c).2) as [e|n]; split; try lia.
  - intros Hall. inversion_clear Hall as [|?? [n Hn] _]. discriminate.
  - intros Hall. inversion_clear Hall as [|?? _ Hrest]. specialize (IHeq Hrest). lia.
Qed.

(** X13. What the generic orchestrator reports about itself.  After any
    number of cycles from process start, total_trades_executed is the number
    of trades executed, [executed_trades] holding exactly their keys; it is
    at least the sum of the numbers that the calls of [run_once] returned,
    and equal to it when none of them raised.  active_strategies never
    exceeds total_strategies. *)
Theorem bot_stats_count_executions
    (dry_run : bool) (clock : nat → string) (trades0 : gmap string PaperTrade.t)
    (cycles : list TradingBot.cycle_env) (strategies : list Strategy.t) :
  let st0 := TradingBot.init dry_run trades0 in
  let st := TradingBot.run dry_run clock st0 cycles in
  let stats := TradingBot.get_stats dry_run strategies st in
  let outcomes := cycle_outcomes dry_run clock st0 cycles in
  TradingBot.total_trades_executed stats = py_len (TradingBot.executions st)
  ∧ TradingBot.executed_trades st =
      list_to_set (TradingBot.trade_key <$> TradingBot.executions st)
  ∧ returned_total outcomes ≤ TradingBot.total_trades_executed stats
  ∧ (Forall (λ outcome, ∃ n, outcome = Return n) outcomes →
     TradingBot.total_trades_executed stats = returned_total outcomes)
  ∧ 0 ≤ TradingBot.active_strategies stats ≤ TradingBot.total_strategies stats.
Proof.
  intros st0 st stats outcomes. subst stats. unfold TradingBot.get_stats.
  cbn [TradingBot.total_trades_executed TradingBot.active_strategies
       TradingBot.total_strategies].
  pose proof (executed_set_run dry_run clock cycles st0 eq_refl) as Hset.
  destruct (run_inv dry_run clock cycles _ (init_inv dry_run trades0)) as [Hnd _].
  destruct (cycle_outcomes_size dry_run clock cycles st0) as [Hle Heq].
  fold st in Hset, Hnd, Hle, Heq. fold outcomes in Hle, Heq.
  assert (Z.of_nat (size (TradingBot.executed_trades st0)) = 0) as H0.
  { subst st0. cbn. by rewrite size_empty. }
  split_and!.
  - rewrite Hset, size_list_to_set by done. unfold py_len. by rewrite length_fmap.
  - done.
  - lia.
  - intros Hall. specialize (Heq Hall). lia.
  - unfold py_len. lia.
  - unfold py_len. pose proof (length_filter (λ s, Strategy.enabled s = true) strategies). lia.
Qed.

Lemma bot_stats_count_executions_witness :
  let st := TradingBot.run true (λ _, "t1") (TradingBot.init true ∅) [c4_cycle; c4_cycle] in
  let stats := TradingBot.get_stats true [c4_strategy "S1"; c4_strategy "S2"] st in
  TradingBot.total_trades_executed stats = 1
  ∧ returned_total (cycle_outcomes true (λ _, "t1") (TradingBot.init true ∅) [c4_cycle; c4_cycle])
    = 1.
Proof.
  intros st stats.
  destruct (bot_stats_count_executions true (λ _, "t1") ∅ [c4_cycle; c4_cycle]
              [c4_strategy "S1"; c4_strategy "S2"]) as (_ & _ & _ & Heq & _).
  split; [reflexivity|]. rewrite <- Heq; [reflexivity|].
  repeat constructor; by eexists.
Defined.

(** A cycle that raises has executed and keyed the trades before the
    offending element, and returns no number for them. *)
Lemma raising_cycle_counts_nothing :
  let st := TradingBot.run true (λ _, "t1") (TradingBot.init true ∅) [x_raising_cycle] in
  let stats := TradingBot.get_stats true [] st in
  TradingBot.total_trades_executed stats = 1
  ∧ returned_total (cycle_outcomes true (λ _, "t1") (TradingBot.init true ∅) [x_raising_cycle])
    = 0.
Proof. split; reflexivity. Qed.

(** X14. The paper ledger under the generic orchestrator.  In live mode no
    cycle touches it.  In dry-run mode no cycle removes a record: every id
    present before a run is present after it. *)
Theorem paper_ledger_only_grows
    (clock : nat → string) (cycles : list TradingBot.cycle_env) (st : TradingBot.state) :
  TradingBot.paper_trader (TradingBot.run false clock st cycles) = TradingBot.paper_trader st
  ∧ (∀ trades, TradingBot.paper_trader st = Some trades →
       ∃ trades', TradingBot.paper_trader (TradingBot.run true clock st cycles) = Some trades'
                  ∧ dom trades ⊆ dom trades').
Proof.
  split.
  - apply (run_invariant false clock
             (λ st', TradingBot.paper_trader st' = TradingBot.paper_trader st)); [done| |done].
    intros execute_trade st0 signal Hst0. unfold TradingBot.process_signal.
    case_decide; [done|]. by destruct (execute_trade _).
  - intros trades Ht.
    apply (run_invariant true clock
             (λ st', ∃ trades', TradingBot.paper_trader st' = Some trades'
                                ∧ dom trades ⊆ dom trades')); [done| |by exists trades].
    intros execute_trade st0 signal (trades0 & Ht0 & Hsub). unfold TradingBot.process_signal.
    case_decide; [by exists trades0|]. rewrite Ht0. unfold PaperTradingTracker.add_trade.
    eexists. split; [done|]. rewrite dom_insert. etrans; [exact Hsub|]. apply union_subseteq_r.
Qed.

Lemma paper_ledger_only_grows_witness :
  ∃ trades',
    TradingBot.paper_trader
      (TradingBot.run true (λ _, "t1") (TradingBot.init true {[ "m:YES:t0" := c6_trade ]})
         [c4_cycle]) = Some trades'
    ∧ dom ({[ "m:YES:t0" := c6_trade ]} : gmap string PaperTrade.t) ⊆ dom trades'.
Proof.
  destruct (paper_ledger_only_grows (λ _, "t1") [c4_cycle]
              (TradingBot.init true {[ "m:YES:t0" := c6_trade ]})) as [_ Hdry].
  apply Hdry. reflexivity.
Defined.

(** X15. Managing the strategies of the generic orchestrator.  In the next cycle
    that fetches markets, a strategy removed by name is not called, a
    strategy added while enabled is called after all the others, and the
    strategies of other names are called as before. *)
Theorem strategy_management
    (dry_run : bool) (clock : nat → string) (execute_trade : Trade.t → bool)
    (st : TradingBot.state) (markets : list Market.t) (strategies : list Strategy.t) :
  markets ≠ [] →
  let called strategies :=
    inv_strategy <$>
      drop (length (TradingBot.calls st))
        (TradingBot.calls
           (TradingBot.run_once dry_run clock execute_trade st markets strategies).1) in
  called strategies = enabled_names strategies
  ∧ (∀ name, called (TradingBot.remove_strategy strategies name)
             = filter (λ n, n ≠ name) (called strategies))
  ∧ (∀ name, name ∉ called (TradingBot.remove_strategy strategies name))
  ∧ (∀ s, Strategy.enabled s = true →
          called (TradingBot.add_strategy strategies s) = called strategies ++ [Strategy.name s]).
Proof.
  intros Hm called. destruct markets as [|m ms]; [done|].
  assert (Hcalled : ∀ l, called l = enabled_names l).
  { intros l. subst called. cbn beta. rewrite trading_bot_run_once_calls.
    rewrite drop_app_length. unfold enabled_names. rewrite <- list_fmap_compose.
    by apply list_fmap_ext. }
  assert (Hremove : ∀ name,
    enabled_names (TradingBot.remove_strategy strategies name)
    = filter (λ n, n ≠ name) (enabled_names strategies)).
  { intros name. unfold enabled_names, TradingBot.remove_strategy.
    induction strategies as [|s l IH]; [done|].
    destruct (decide (Strategy.name s ≠ name)) as [Hn|Hn],
             (decide (Strategy.enabled s = true)) as [He|He].
    - rewrite (filter_cons_True (λ s, Strategy.name s ≠ name)) by done.
      rewrite !(filter_cons_True (λ s, Strategy.enabled s = true)) by done.
      rewrite !fmap_cons, (filter_cons_True (λ n, n ≠ name)) by done. by rewrite IH.
    - rewrite (filter_cons_True (λ s, Strategy.name s ≠ name)) by done.
      rewrite !(filter_cons_False (λ s, Strategy.enabled s = true)) by done. by rewrite IH.
    - rewrite (filter_cons_False (λ s, Strategy.name s ≠ name)) by done.
      rewrite (filter_cons_True (λ s, Strategy.enabled s = true)) by done.
      rewrite fmap_cons, (filter_cons_False (λ n, n ≠ name)) by done. by rewrite IH.
    - rewrite (filter_cons_False (λ s, Strategy.name s ≠ name)) by done.
      rewrite (filter_cons_False (λ s, Strategy.enabled s = true)) by done. by rewrite IH. }
  split_and!.
  - apply Hcalled.
  - intros name. by rewrite !Hcalled.
  - intros name. rewrite Hcalled, Hremove. intros Hin.
    by apply list_elem_of_filter in Hin as [Hne _].
  - intros s He. rewrite !Hcalled. unfold enabled_names, TradingBot.add_strategy.
    rewrite filter_app, fmap_app. f_equal. rewrite filter_cons, decide_True by done. done.
Qed.

Lemma strategy_management_witness :
  let called strategies :=
    inv_strategy <$>
      drop 0 (TradingBot.calls
                (TradingBot.run_once true (λ _, "t1") (λ _, true) (TradingBot.init true ∅)
                   x_markets strategies).1) in
  "S1" ∉ called (TradingBot.remove_strategy [c4_strategy "S1"; c4_strategy "S2"] "S1").
Proof.
  intros called.
  destruct (strategy_management true (λ _, "t1") (λ _, true) (TradingBot.init true ∅)
              x_markets [c4_strategy "S1"; c4_strategy "S2"]) as (_ & _ & Hremoved & _).
  - discriminate.
  - apply Hremoved.
Defined.

(** ** Fetching markets page by page *)

Section get_markets_props.
Context {Raw : Type}.
Context (request : nat → bool → Z → Z → Response Raw).
Context (_parse_market : Raw → option Market.t).
Context (active_only : bool) (batch_size : Z).

Lemma py_take_length {A} (n : Z) (l : list A) : 0 ≤ n → py_len (py_take n l) ≤ n.
Proof.
  intros Hn. unfold py_take, py_len. rewrite decide_True by done.
  rewrite length_take. lia.
Qed.

Lemma fetch_pages_bounded m fuel : ∀ call offset all_markets l,
  0 < m →
  py_len all_markets < m → Forall (parsed_from_page request _parse_market active_only batch_size) all_markets →
  PolymarketClient.fetch_pages request _parse_market fuel call active_only batch_size
    (Some m) offset all_markets = Some (Return l) →
  py_len l ≤ m ∧ Forall (parsed_from_page request _parse_market active_only batch_size) l.
Proof.
  induction fuel as [|fuel IH]; intros call offset all_markets l Hm Hlen Hall; [done|].
  cbn [PolymarketClient.fetch_pages].
  destruct (request call active_only batch_size offset) as [e|markets_data] eqn:Hreq; [done|].
  destruct markets_data as [|raw rest] eqn:Hdata; [intros [= <-]; split; [lia|done]|].
  rewrite <- Hdata in *. clear Hdata.
  set (all' := all_markets ++ omap _parse_market markets_data).
  assert (Forall (parsed_from_page request _parse_market active_only batch_size) all') as Hall'.
  { apply Forall_app. split; [done|]. apply Forall_forall. intros market Hin.
    apply list_elem_of_omap in Hin as (raw' & Hraw & Hparse).
    by exists call, offset, markets_data, raw'. }
  unfold limit_reached. cbn [default from_option].
  destruct (bool_decide (m ≠ 0) && bool_decide (m ≤ py_len all')) eqn:Hlimit.
  - intros [= <-]. split; [apply py_take_length; lia|].
    unfold py_take. rewrite decide_True by lia. by apply Forall_take.
  - assert (py_len all' < m) as Hlen'.
    { apply andb_false_iff in Hlimit as [H|H]; apply bool_decide_eq_false in H; lia. }
    destruct (bool_decide (py_len markets_data < batch_size)).
    + intros [= <-]. split; [lia|done].
    + by apply IH.
Qed.

Lemma fetch_pages_returns k : ∀ fuel call max_markets offset all_markets,
  last_page batch_size
    (request (call + k)%nat active_only batch_size (offset + Z.of_nat k * batch_size)) →
  (k < fuel)%nat →
  is_Some (PolymarketClient.fetch_pages request _parse_market fuel call active_only
             batch_size max_markets offset all_markets).
Proof.
  induction k as [|k IH]; intros fuel call max_markets offset all_markets Hlast Hfuel;
    (destruct fuel as [|fuel]; [lia|]); cbn [PolymarketClient.fetch_pages].
  - replace (call + 0)%nat with call in Hlast by lia.
    replace (offset + Z.of_nat 0 * batch_size) with offset in Hlast by lia.
    destruct (request call active_only batch_size offset) as [e|[|raw rest]]; [done..|].
    destruct (limit_reached _ _); [done|].
    destruct Hlast as [?|Hshort]; [done|]. by rewrite bool_decide_eq_true_2.
  - destruct (request call active_only batch_size offset) as [e|[|raw rest]]; [done..|].
    destruct (limit_reached _ _); [done|]. case_bool_decide; [done|].
    apply IH; [|lia].
    replace (S call + k)%nat with (call + S k)%nat by lia.
    by replace (offset + batch_size + Z.of_nat k * batch_size)
      with (offset + Z.of_nat (S k) * batch_size) by lia.
Qed.

Lemma fetch_pages_failure n : ∀ fuel call offset all_markets e,
  (∀ i, (i < n)%nat →
        full_page batch_size
          (request (call + i)%nat active_only batch_size (offset + Z.of_nat i * batch_size))) →
  request (call + n)%nat active_only batch_size (offset + Z.of_nat n * batch_size)
    = RequestException e →
  (n < fuel)%nat →
  PolymarketClient.fetch_pages request _parse_market fuel call active_only batch_size None
    offset all_markets = Some (Raise e).
Proof.
  induction n as [|n IH]; intros fuel call offset all_markets e Hfull Hfail Hfuel;
    (destruct fuel as [|fuel]; [lia|]); cbn [PolymarketClient.fetch_pages].
  - replace (call + 0)%nat with call in Hfail by lia.
    replace (offset + Z.of_nat 0 * batch_size) with offset in Hfail by lia.
    by rewrite Hfail.
  - pose proof (Hfull 0%nat ltac:(lia)) as H0.
    replace (call + 0)%nat with call in H0 by lia.
    replace (offset + Z.of_nat 0 * batch_size) with offset in H0 by lia.
    destruct (request call active_only batch_size offset) as [e'|[|raw rest]]; [done| |].
    + by destruct H0.
    + destruct H0 as [_ Hge]. cbn [limit_reached].
      rewrite bool_decide_eq_false_2 by lia.
      apply IH; [| |lia].
      * intros i Hi. specialize (Hfull (S i) ltac:(lia)).
        replace (S call + i)%nat with (call + S i)%nat by lia.
        by replace (offset + batch_size + Z.of_nat i * batch_size)
          with (offset + Z.of_nat (S i) * batch_size) by lia.
      * replace (S call + n)%nat with (call + S n)%nat by lia.
        by replace (offset + batch_size + Z.of_nat n * batch_size)
          with (offset + Z.of_nat (S n) * batch_size) by lia.
Qed.
End get_markets_props.

(** X19. [get_markets] with a positive limit never returns more markets than
    the limit, and every market it returns was parsed from an entry of a page
    the API served.  The generic orchestrator calls it with limit 100 and
    max_markets 2000. *)
Theorem get_markets_bounded {Raw : Type}
    (request : nat → bool → Z → Z → Response Raw) (_parse_market : Raw → option Market.t)
    (fuel : nat) (active_only : bool) (limit max_markets : Z) (markets : list Market.t) :
  0 < max_markets →
  PolymarketClient.get_markets request _parse_market fuel active_only limit (Some max_markets)
    = Some (Return markets) →
  py_len markets ≤ max_markets
  ∧ Forall (parsed_from_page request _parse_market active_only (Z.min limit 100)) markets.
Proof.
  intros Hm. unfold PolymarketClient.get_markets. cbn zeta.
  destruct (PolymarketClient.fetch_pages _ _ _ _ _ _ _ _ _) as [[e|l]|] eqn:Hfetch; [| |done].
  - intros [= <-]. split; [unfold py_len; simpl; lia|done].
  - case_decide; [done|]. intros [= <-].
    eapply fetch_pages_bounded; [exact Hm| | |exact Hfetch]; [unfold py_len; simpl; lia|done].
Qed.

Lemma get_markets_bounded_witness :
  let request := λ (_ : nat) (_ : bool) (_ _ : Z), Json x_markets in
  ∃ markets,
    PolymarketClient.get_markets request Some 5 true 3 (Some 4) = Some (Return markets)
    ∧ py_len markets ≤ 4.
Proof.
  intros request. eexists. split; [reflexivity|].
  apply (get_markets_bounded request Some 5 true 3 4); [lia | reflexivity].
Defined.

(** X20. [get_markets] comes to an end as soon as the API serves a last page: if
    the request number n of the call (at offset n * batch_size) fails, or
    gives an empty page or a page shorter than the batch size, the call ends
    after at most n + 1 requests.  It ends with a list of markets unless
    [limit] is 0: then the batch size is 0, the line that logs the number of
    requests divides by it, and the call raises [ZeroDivisionError] unless a
    failed request made it return the empty list. *)
Theorem get_markets_returns {Raw : Type}
    (request : nat → bool → Z → Z → Response Raw) (_parse_market : Raw → option Market.t)
    (active_only : bool) (limit : Z) (max_markets : option Z) (n fuel : nat) :
  last_page (Z.min limit 100)
    (request n active_only (Z.min limit 100) (Z.of_nat n * Z.min limit 100)) →
  (n < fuel)%nat →
  let result :=
    PolymarketClient.get_markets request _parse_market fuel active_only limit max_markets in
  (limit ≠ 0 → ∃ markets, result = Some (Return markets))
  ∧ (limit = 0 → result = Some (Raise "ZeroDivisionError") ∨ result = Some (Return [])).
Proof.
  intros Hlast Hfuel result. subst result. unfold PolymarketClient.get_markets. cbn zeta.
  destruct (fetch_pages_returns request _parse_market active_only (Z.min limit 100) n
              fuel 0%nat max_markets 0 []) as [[e|l] ->]; [done|done| |].
  - split; [by eexists | by right].
  - split.
    + intros Hl. rewrite decide_False by lia. by eexists.
    + intros ->. left. by rewrite decide_True.
Qed.

Lemma get_markets_returns_witness :
  let request := λ (call : nat) (_ : bool) (_ _ : Z),
    if decide (call = 1%nat) then Json (take 2 x_markets) else Json x_markets in
  ∃ markets, PolymarketClient.get_markets request Some 2 true 3 None = Some (Return markets).
Proof.
  intros request.
  destruct (get_markets_returns request Some true 3 None 1 2) as [Hlist _]; [|lia|].
  - right. by vm_compute.
  - by apply Hlist.
Defined.

(** X21. A failed request discards what was fetched before it: when no limit is
    set and request number n fails after n full pages, [get_markets] returns
    the empty list, whatever the earlier pages contained. *)
Theorem get_markets_failure_discards {Raw : Type}
    (request : nat → bool → Z → Z → Response Raw) (_parse_market : Raw → option Market.t)
    (active_only : bool) (limit : Z) (n fuel : nat) (e : string) :
  (∀ i, (i < n)%nat →
        full_page (Z.min limit 100)
          (request i active_only (Z.min limit 100) (Z.of_nat i * Z.min limit 100))) →
  request n active_only (Z.min limit 100) (Z.of_nat n * Z.min limit 100)
    = RequestException e →
  (n < fuel)%nat →
  PolymarketClient.get_markets request _parse_market fuel active_only limit None
    = Some (Return []).
Proof.
  intros Hfull Hfail Hfuel. unfold PolymarketClient.get_markets. cbn zeta.
  by rewrite (fetch_pages_failure request _parse_market active_only (Z.min limit 100) n
                fuel 0%nat 0 [] e).
Qed.

Lemma get_markets_failure_discards_witness :
  let request := λ (call : nat) (_ : bool) (_ _ : Z),
    if decide (call = 1%nat) then RequestException "timeout" else Json x_markets in
  PolymarketClient.get_markets request Some 2 true 3 None = Some (Return []).
Proof.
  intros request.
  apply (get_markets_failure_discards request Some true 3 1 2 "timeout"); [|done|lia].
  intros i Hi. assert (i = 0%nat) as -> by lia. split; [done|]. by vm_compute.
Defined.
